(** * steerbt: a shallow embedding of the CLMM backtester core

    The development follows the Python package [steerbt] module by module:
    [uv3_math], [curves], [triggers], [portfolio], [strategies.base],
    [strategies.classic], [strategies.channel_multiplier] and [backtester].

    Numeric conventions used throughout:
    - a Python [int] is a [Z];
    - a Python [float] is read as the exact rational it denotes, a [Q];
      arithmetic on floats is exact rational arithmetic (no rounding, no
      overflow, no NaN) and results are compared with [==];
    - [int(x)] truncates toward zero;
    - dividing a Python float by zero raises [ZeroDivisionError] and is
      written [truediv]; a quotient whose operands come out of NumPy
      ([np.exp], [np.log], an array element) or whose divisor is a non-zero
      constant is written [/], which never raises;
    - where the program would produce [inf] or [nan] (a NumPy quotient by
      zero, the logarithm of a negative number) a [Q] has nothing to
      offer: the theorems keep to arguments for which every such quotient
      has a non-zero divisor, and say so in their hypotheses;
    - a double carries 53 bits: where the rounding of an intermediate
      value could flip a comparison or a truncation, the theorem that
      depends on it leaves a margin around the boundary and says so;
    - a statement that can raise returns a [result]; a method that mutates
      its object is a computation in the state-and-exception monad [M];
    - [datetime.now()] is an argument, [now], of the method that reads it. *)

From Stdlib Require Import ZArith QArith Qround Qabs Qminmax Lia Lqa List Bool String.
Import ListNotations.

Local Open Scope Q_scope.

(* ================================================================= *)
(** ** Python runtime conventions *)

Module py.

Inductive exn : Type :=
| ValueError
| ZeroDivisionError
| TypeError
| KeyError
| IndexError.

Inductive result (A : Type) : Type :=
| Ok (a : A)
| Raise (e : exn).

Arguments Ok {A} a.
Arguments Raise {A} e.

Definition rbind {A B} (r : result A) (k : A -> result B) : result B :=
  match r with
  | Ok a => k a
  | Raise e => Raise e
  end.

(** [int(x)] for a float [x]: truncation toward zero. *)
Definition int (x : Q) : Z := Z.quot (Qnum x) (Z.pos (Qden x)).

(** Python [int] used where a float is expected.  The conversion is exact
    here; Python rounds an integer above [2^53] to the nearest double. *)
Definition float (z : Z) : Q := inject_Z z.

(** [x / y] on floats. *)
Definition truediv (x y : Q) : result Q :=
  if Qeq_bool y 0 then Raise ZeroDivisionError else Ok (x / y).

Definition Qltb (x y : Q) : bool := negb (Qle_bool y x).

(** State-and-exception monad: the object a method mutates is the state;
    a raise leaves the object as it is at the raising statement. *)
Definition M (S A : Type) : Type := S -> result A * S.

Definition ret {S A} (a : A) : M S A := fun s => (Ok a, s).

Definition bind {S A B} (m : M S A) (k : A -> M S B) : M S B :=
  fun s =>
    match m s with
    | (Ok a, s') => k a s'
    | (Raise e, s') => (Raise e, s')
    end.

Definition raise {S A} (e : exn) : M S A := fun s => (Raise e, s).

Definition get {S} : M S S := fun s => (Ok s, s).

Definition modify {S} (f : S -> S) : M S unit := fun s => (Ok tt, f s).

Definition lift {S A} (r : result A) : M S A := fun s => (r, s).

Definition put {S} (s : S) : M S unit := fun _ => (Ok tt, s).

(** [for x in xs: body(x)] *)
Fixpoint for_each {S X} (xs : list X) (body : X -> M S unit) : M S unit :=
  match xs with
  | [] => ret tt
  | x :: xs' => bind (body x) (fun _ => for_each xs' body)
  end.

(** A loop that also updates a local variable [acc]. *)
Fixpoint for_fold {S X A} (xs : list X) (acc : A) (body : A -> X -> M S A)
  : M S A :=
  match xs with
  | [] => ret acc
  | x :: xs' => bind (body acc x) (fun acc' => for_fold xs' acc' body)
  end.

(** [[f(x) for x in xs]] where [f] may raise. *)
Fixpoint rmap {X Y} (f : X -> result Y) (xs : list X) : result (list Y) :=
  match xs with
  | [] => Ok []
  | x :: xs' =>
      rbind (f x) (fun y => rbind (rmap f xs') (fun ys => Ok (y :: ys)))
  end.

(** [xs[i] = x] for an index inside the list. *)
Fixpoint setitem {X} (xs : list X) (i : nat) (x : X) : list X :=
  match xs, i with
  | [], _ => []
  | _ :: xs', O => x :: xs'
  | y :: xs', S i' => y :: setitem xs' i' x
  end.

(** [xs[i]] *)
Definition getitem {X} (xs : list X) (i : nat) : result X :=
  match nth_error xs i with
  | Some x => Ok x
  | None => Raise IndexError
  end.

(** [range(n)] as floats-to-be: the integers [0 .. n-1]. *)
Definition range (n : Z) : list Z := map Z.of_nat (seq 0 (Z.to_nat n)).

(** [max(xs) if xs else 0] *)
Definition max_or_zero (xs : list Q) : Q :=
  match xs with
  | [] => 0
  | x :: xs' => fold_left Qmax xs' x
  end.

(** [zip(xs, ys)] *)
Definition zip {X Y} (xs : list X) (ys : list Y) : list (X * Y) := combine xs ys.

(** [sum(xs)] over floats. *)
Definition sum (xs : list Q) : Q := fold_left Qplus xs 0.

(** A computation that leaves the part [proj] of its state as it found
    it, whether it returns or raises. *)
Definition preserves {S X A} (proj : S -> X) (m : M S A) : Prop :=
  forall s, proj (snd (m s)) = proj s.

(** [xs[-n:]] for a positive [n]: the last [n] elements, all of them when
    there are fewer. *)
Definition lastn {X} (n : nat) (xs : list X) : list X :=
  skipn (List.length xs - n) xs.

(** [enumerate(xs)] *)
Definition enumerate {X} (xs : list X) : list (nat * X) :=
  combine (seq 0 (List.length xs)) xs.

(** [d.get(key)] on a dictionary kept as an association list. *)
Fixpoint dict_get {V} (key : string) (d : list (string * V)) : option V :=
  match d with
  | [] => None
  | (k, v) :: rest => if String.eqb k key then Some v else dict_get key rest
  end.

(** [series.expanding().max()]: the running maximum of a pandas series. *)
Fixpoint expanding_max_from (m : Q) (xs : list Q) : list Q :=
  match xs with
  | [] => []
  | x :: xs' => let m' := Qmax m x in m' :: expanding_max_from m' xs'
  end.

Definition expanding_max (xs : list Q) : list Q :=
  match xs with
  | [] => []
  | x :: xs' => x :: expanding_max_from x xs'
  end.

End py.

Import py.

Declare Scope py_scope.
Delimit Scope py_scope with py.
Notation "x <- m ;; k" := (bind m (fun x => k))
  (at level 61, m at next level, right associativity) : py_scope.
Notation "m ;;; k" := (bind m (fun _ => k))
  (at level 61, right associativity) : py_scope.
Notation "x <~ r ;; k" := (rbind r (fun x => k))
  (at level 61, r at next level, right associativity) : py_scope.

(* ================================================================= *)
(** ** steerbt/uv3_math.py *)

Module uv3_math.

Definition Q96 : Z := 2 ^ 96.
Definition Q192 : Z := 2 ^ 192.

(** [(sqrt_price_x96 / Q96) ** 2] *)
Definition sqrt_price_x96_to_price (sqrt_price_x96 : Z) : Q :=
  (float sqrt_price_x96 / float Q96) ^ 2.

(** [int(np.sqrt(price) * Q96)].  For a negative price [np.sqrt] gives NaN
    and [int] raises [ValueError].  Otherwise the value is the integer part
    of [sqrt(price) * 2^96], which is the integer square root of the integer
    part of [price * 2^192]. *)
Definition price_to_sqrt_price_x96 (price : Q) : result Z :=
  if Qltb price 0 then Raise ValueError
  else Ok (Z.sqrt (Qfloor (price * float Q192))).

(** Both bound arguments are swapped into ascending order on entry. *)
Definition sort2 (a b : Z) : Z * Z := if (a >? b)%Z then (b, a) else (a, b).

Definition get_amount0_for_liquidity
  (sqrt_price_a_x96 sqrt_price_b_x96 liquidity : Z) : result Z :=
  let '(a, b) := sort2 sqrt_price_a_x96 sqrt_price_b_x96 in
  let diff_x96 := (b - a)%Z in
  if (diff_x96 =? 0)%Z then Ok 0%Z
  else
    (amount0_float <~
       truediv (float liquidity * (float diff_x96 / float Q96))
               ((float a / float Q96) * (float b / float Q96)) ;;
     Ok (int amount0_float))%py.

Definition get_amount1_for_liquidity
  (sqrt_price_a_x96 sqrt_price_b_x96 liquidity : Z) : Z :=
  let '(a, b) := sort2 sqrt_price_a_x96 sqrt_price_b_x96 in
  let diff_x96 := (b - a)%Z in
  if (diff_x96 =? 0)%Z then 0%Z
  else int (float liquidity * (float diff_x96 / float Q96)).

Definition get_liquidity_for_amount0
  (sqrt_price_a_x96 sqrt_price_b_x96 amount0 : Z) : Z :=
  let '(a, b) := sort2 sqrt_price_a_x96 sqrt_price_b_x96 in
  let diff_x96 := (b - a)%Z in
  if (diff_x96 =? 0)%Z then 0%Z
  else int ((float amount0 * (float a / float Q96) * (float b / float Q96))
            / (float diff_x96 / float Q96)).

Definition get_liquidity_for_amount1
  (sqrt_price_a_x96 sqrt_price_b_x96 amount1 : Z) : Z :=
  let '(a, b) := sort2 sqrt_price_a_x96 sqrt_price_b_x96 in
  let diff_x96 := (b - a)%Z in
  if (diff_x96 =? 0)%Z then 0%Z
  else int (float amount1 / (float diff_x96 / float Q96)).

Definition get_amounts_for_liquidity
  (sqrt_price_x96 sqrt_price_a_x96 sqrt_price_b_x96 liquidity : Z)
  : result (Z * Z) :=
  let '(a, b) := sort2 sqrt_price_a_x96 sqrt_price_b_x96 in
  if (sqrt_price_x96 <=? a)%Z then
    (amount0 <~ get_amount0_for_liquidity a b liquidity ;;
     Ok (amount0, 0%Z))%py
  else if (sqrt_price_x96 >=? b)%Z then
    Ok (0%Z, get_amount1_for_liquidity a b liquidity)
  else
    (amount0 <~ get_amount0_for_liquidity sqrt_price_x96 b liquidity ;;
     Ok (amount0, get_amount1_for_liquidity a sqrt_price_x96 liquidity))%py.

(** Returns [(amount0, amount1, total_value_usd)]; [fee_tier_bps] is
    accepted and not used, as in the source. *)
Definition calculate_position_value
  (price lower_price upper_price liquidity : Q) (fee_tier_bps : Z)
  : result (Q * Q * Q) :=
  (sqrt_price_x96 <~ price_to_sqrt_price_x96 price ;;
   sqrt_lower_x96 <~ price_to_sqrt_price_x96 lower_price ;;
   sqrt_upper_x96 <~ price_to_sqrt_price_x96 upper_price ;;
   amounts <~ get_amounts_for_liquidity
                sqrt_price_x96 sqrt_lower_x96 sqrt_upper_x96 (int liquidity) ;;
   let '(amount0, amount1) := amounts in
   let amount0_decimal := float amount0 / float Q96 in
   let amount1_decimal := float amount1 / float Q96 in
   let total_value := amount0_decimal * price + amount1_decimal in
   Ok (amount0_decimal, amount1_decimal, total_value))%py.

Definition calculate_fees_earned
  (volume_in_range liquidity_share : Q) (fee_tier_bps : Z) : Q :=
  let fee_rate := float fee_tier_bps / 10000 in
  volume_in_range * liquidity_share * fee_rate.

Definition calculate_impermanent_loss
  (initial_price current_price initial_amount0 initial_amount1 : Q)
  : result Q :=
  (* Value if held *)
  let held_value := initial_amount0 * current_price + initial_amount1 in
  (* Value if rebalanced to 50:50 at current price *)
  let total_value := initial_amount0 * initial_price + initial_amount1 in
  (current_amount0 <~ truediv total_value (2 * current_price) ;;
   let current_amount1 := total_value / 2 in
   let rebalanced_value := current_amount0 * current_price + current_amount1 in
   (* Impermanent loss *)
   il <~ truediv (rebalanced_value - held_value) held_value ;;
   Ok il)%py.

Definition calculate_lvr_proxy (hodl_50_50_value clmm_no_fee_value : Q) : Q :=
  hodl_50_50_value - clmm_no_fee_value.

End uv3_math.

(* ================================================================= *)
(** ** steerbt/curves.py

    [np.exp] and [np.log] belong to NumPy; a curve object that calls them
    is built from the functions it was linked against. *)

Module curves.

(** One bin: [(lower_price, upper_price, liquidity)]. *)
Definition Bin : Type := (Q * Q * Q)%type.

Definition bin_lower (b : Bin) : Q := fst (fst b).
Definition bin_upper (b : Bin) : Q := snd (fst b).
Definition bin_liquidity (b : Bin) : Q := snd b.

(** Attributes set by [CurveBase.__init__]. *)
Record CurveBase : Type := mkCurveBase {
  max_bins : Z;
  mirror : bool;
  invert : bool;
  liquidity_scale : Q
}.

(** The keyword defaults of [CurveBase.__init__]. *)
Definition default_base : CurveBase := mkCurveBase 10 false false (1 # 1000).

(** A curve object: its attributes and the [_generate_distribution_impl]
    its class provides. *)
Record Curve : Type := mkCurve {
  base : CurveBase;
  _generate_distribution_impl : Q -> Q -> Q -> result (list Bin)
}.

(** [CurveBase.generate_distribution] *)
Definition generate_distribution
  (self : Curve) (center_price width_pct total_liquidity : Q)
  : result (list Bin) :=
  let scaled_liquidity := total_liquidity * liquidity_scale (base self) in
  let scaled_liquidity := Qmax scaled_liquidity 100 in
  _generate_distribution_impl self center_price width_pct scaled_liquidity.

(** [np.linspace(start, stop, num)]: [num] evenly spaced samples, the last
    one set to [stop]. *)
Definition linspace (start stop : Q) (num : Z) : list Q :=
  let div := (num - 1)%Z in
  let step := (stop - start) / float div in
  let y := map (fun i => float i * step + start) (range num) in
  if (1 <? num)%Z then setitem y (Z.to_nat div) stop else y.

(** [a + b] on one-dimensional arrays, with NumPy broadcasting. *)
Definition np_add (a b : list Q) : result (list Q) :=
  if Nat.eqb (List.length a) (List.length b) then
    Ok (map (fun xy => fst xy + snd xy) (combine a b))
  else
    match a, b with
    | [x], _ => Ok (map (fun y => x + y) b)
    | _, [y] => Ok (map (fun x => x + y) a)
    | _, _ => Raise ValueError
    end.

(** [CurveBase._apply_transforms]: [prices] is an array, [liquidities] a
    list, so [+] adds the former elementwise and concatenates the latter. *)
Definition _apply_transforms
  (self : CurveBase) (prices liquidities : list Q)
  : result (list Q * list Q) :=
  (pl <~ (if mirror self then
            let center_idx := Nat.div (List.length prices) 2 in
            prices' <~ np_add (firstn (S center_idx) prices)
                              (rev (skipn center_idx prices)) ;;
            Ok (prices',
                firstn (S center_idx) liquidities
                  ++ rev (skipn center_idx liquidities))
          else Ok (prices, liquidities)) ;;
   let '(prices, liquidities) := pl in
   if invert self then
     let max_liq := max_or_zero liquidities in
     Ok (prices, map (fun liq => max_liq - liq) liquidities)
   else Ok (prices, liquidities))%py.

(** The closing loop of every variant:
    [for i in range(len(prices) - 1): bins.append((prices[i], prices[i+1], liquidities[i]))]. *)
Definition create_bins (prices liquidities : list Q) : result (list Bin) :=
  rmap (fun i =>
          (lower <~ getitem prices i ;;
           upper <~ getitem prices (S i) ;;
           liq <~ getitem liquidities i ;;
           Ok (lower, upper, liq))%py)
       (seq 0 (List.length prices - 1)).

(** [max(min_bins, min(self.max_bins, int(width_pct / 2)))] *)
Definition bin_count_of (min_bins : Z) (self : CurveBase) (width_pct : Q) : Z :=
  Z.max min_bins (Z.min (max_bins self) (int (width_pct / 2))).

(** The part shared by the five weighted variants: price grid, one
    liquidity per bin from [bin_liquidity_of], transforms, bins. *)
Definition weighted_distribution
  (self : CurveBase) (min_bins : Z)
  (bin_liquidity_of : Z -> list Q -> Z -> result Q)
  (center_price width_pct : Q) : result (list Bin) :=
  let width := center_price * width_pct / 100 in
  let bin_count := bin_count_of min_bins self width_pct in
  let prices :=
    linspace (center_price - width / 2) (center_price + width / 2)
             (bin_count + 1) in
  (liquidities <~ rmap (bin_liquidity_of bin_count prices) (range bin_count) ;;
   pl <~ _apply_transforms self prices liquidities ;;
   create_bins (fst pl) (snd pl))%py.

Module LinearCurve.
Definition _generate_distribution_impl
  (self : CurveBase) (slope : Q) (center_price width_pct total_liquidity : Q)
  : result (list Bin) :=
  weighted_distribution self 2
    (fun bin_count _ i =>
       let distance_from_center :=
         Qabs (float i - float bin_count / 2) / (float bin_count / 2) in
       let liq := total_liquidity / float bin_count
                  * (1 - distance_from_center * slope) in
       Ok (Qmax liq (total_liquidity / float bin_count * (1 # 10))))
    center_price width_pct.

Definition new (self : CurveBase) (slope : Q) : Curve :=
  mkCurve self (_generate_distribution_impl self slope).
End LinearCurve.

Module GaussianCurve.
Definition _generate_distribution_impl
  (np_exp : Q -> Q)
  (self : CurveBase) (std_dev : Q) (center_price width_pct total_liquidity : Q)
  : result (list Bin) :=
  weighted_distribution self 3
    (fun bin_count _ i =>
       let center_idx := float bin_count / 2 in
       let distance := (float i - center_idx) / (float bin_count / 2) in
       (z <~ truediv distance std_dev ;;
        let gaussian := np_exp (- (1 # 2) * z ^ 2) in
        let liq := total_liquidity / float bin_count * gaussian in
        Ok (Qmax liq (total_liquidity / float bin_count * (5 # 100))))%py)
    center_price width_pct.

Definition new (np_exp : Q -> Q) (self : CurveBase) (std_dev : Q) : Curve :=
  mkCurve self (_generate_distribution_impl np_exp self std_dev).
End GaussianCurve.

Module SigmoidCurve.
Definition _generate_distribution_impl
  (np_exp : Q -> Q)
  (self : CurveBase) (k : Q) (center_price width_pct total_liquidity : Q)
  : result (list Bin) :=
  weighted_distribution self 3
    (fun bin_count _ i =>
       let x := (float i - float bin_count / 2) / (float bin_count / 2) * 2 in
       let sigmoid := 1 / (1 + np_exp (- k * x)) in
       let liq := total_liquidity / float bin_count * sigmoid in
       Ok (Qmax liq (total_liquidity / float bin_count * (1 # 10))))
    center_price width_pct.

Definition new (np_exp : Q -> Q) (self : CurveBase) (k : Q) : Curve :=
  mkCurve self (_generate_distribution_impl np_exp self k).
End SigmoidCurve.

Module LogarithmicCurve.
(** [np.log(1 + i + 1) / np.log(self.base)] is a NumPy quotient: it is the
    program's value for a positive base other than 1 (see
    [finite_weights]). *)
Definition _generate_distribution_impl
  (np_log : Q -> Q)
  (self : CurveBase) (log_base : Q) (center_price width_pct total_liquidity : Q)
  : result (list Bin) :=
  weighted_distribution self 3
    (fun bin_count _ i =>
       let log_factor := np_log (float (1 + i + 1)) / np_log log_base in
       let liq := total_liquidity / float bin_count * log_factor in
       Ok (Qmax liq (total_liquidity / float bin_count * (1 # 10))))
    center_price width_pct.

Definition new (np_log : Q -> Q) (self : CurveBase) (log_base : Q) : Curve :=
  mkCurve self (_generate_distribution_impl np_log self log_base).
End LogarithmicCurve.

Module BidAskCurve.
(** [price] is an element of the NumPy grid, so the two distances are NumPy
    quotients: they are the program's values for a non-zero
    [peak_width * center_price] (see [finite_weights]). *)
Definition _generate_distribution_impl
  (np_exp : Q -> Q)
  (self : CurveBase) (peak_separation peak_width : Q)
  (center_price width_pct total_liquidity : Q)
  : result (list Bin) :=
  weighted_distribution self 5
    (fun bin_count prices i =>
       (price <~ getitem prices (Z.to_nat i) ;;
        let peak1 := center_price - peak_separation * center_price / 2 in
        let peak2 := center_price + peak_separation * center_price / 2 in
        let dist1 := Qabs (price - peak1) / (peak_width * center_price) in
        let dist2 := Qabs (price - peak2) / (peak_width * center_price) in
        let gaussian1 := np_exp (- (1 # 2) * dist1 ^ 2) in
        let gaussian2 := np_exp (- (1 # 2) * dist2 ^ 2) in
        let combined := (gaussian1 + gaussian2) / 2 in
        let liq := total_liquidity / float bin_count * combined in
        Ok (Qmax liq (total_liquidity / float bin_count * (5 # 100))))%py)
    center_price width_pct.

Definition new (np_exp : Q -> Q) (self : CurveBase)
  (peak_separation peak_width : Q) : Curve :=
  mkCurve self (_generate_distribution_impl np_exp self peak_separation peak_width).
End BidAskCurve.

Module UniformCurve.
Definition _generate_distribution_impl
  (self : CurveBase) (center_price width_pct total_liquidity : Q)
  : result (list Bin) :=
  let width := center_price * width_pct / 100 in
  let bin_count := bin_count_of 2 self width_pct in
  let prices :=
    linspace (center_price - width / 2) (center_price + width / 2)
             (bin_count + 1) in
  let liquidity_per_bin := total_liquidity / float bin_count in
  rmap (fun i =>
          (lower <~ getitem prices i ;;
           upper <~ getitem prices (S i) ;;
           Ok (lower, upper, liquidity_per_bin))%py)
       (seq 0 (List.length prices - 1)).

Definition new (self : CurveBase) : Curve :=
  mkCurve self (_generate_distribution_impl self).
End UniformCurve.

(** The six classes registered in [CurveFactory._curves], each with the
    minimum bin count it hard-codes and the floor it puts under a bin's
    liquidity, as a fraction of an even share.  A Gaussian curve divides by
    its [std_dev], which is taken to be non-zero. *)
Inductive variant : Curve -> Z -> Q -> Prop :=
| variant_linear : forall b slope,
    variant (LinearCurve.new b slope) 2 (1 # 10)
| variant_gaussian : forall np_exp b std_dev,
    ~ std_dev == 0 -> variant (GaussianCurve.new np_exp b std_dev) 3 (5 # 100)
| variant_sigmoid : forall np_exp b k,
    variant (SigmoidCurve.new np_exp b k) 3 (1 # 10)
| variant_logarithmic : forall np_log b log_base,
    variant (LogarithmicCurve.new np_log b log_base) 3 (1 # 10)
| variant_bid_ask : forall np_exp b sep w,
    variant (BidAskCurve.new np_exp b sep w) 5 (5 # 100)
| variant_uniform : forall b, variant (UniformCurve.new b) 2 1.

(** The five classes whose [_generate_distribution_impl] weighs the bins
    and calls [_apply_transforms], each with its minimum bin count; a
    Gaussian curve is taken with a non-zero [std_dev]. *)
Inductive weighted : Curve -> Z -> Prop :=
| weighted_linear : forall b slope,
    weighted (LinearCurve.new b slope) 2
| weighted_gaussian : forall np_exp b std_dev,
    ~ std_dev == 0 -> weighted (GaussianCurve.new np_exp b std_dev) 3
| weighted_sigmoid : forall np_exp b k,
    weighted (SigmoidCurve.new np_exp b k) 3
| weighted_logarithmic : forall np_log b log_base,
    weighted (LogarithmicCurve.new np_log b log_base) 3
| weighted_bid_ask : forall np_exp b sep w,
    weighted (BidAskCurve.new np_exp b sep w) 5.

(** The parameters for which every weight is a finite number.  A
    logarithmic curve divides by [np.log(base)]: NumPy gives [nan] for a
    negative base and divides by zero for base 1.  A bid-ask curve divides
    by [peak_width * center_price]: with [peak_width] 0 NumPy gives [inf],
    and [nan] at a grid point that sits on a peak, which [max] then keeps.
    The other classes have no such quotient. *)
Inductive finite_weights : Curve -> Prop :=
| finite_linear : forall b slope,
    finite_weights (LinearCurve.new b slope)
| finite_gaussian : forall np_exp b std_dev,
    finite_weights (GaussianCurve.new np_exp b std_dev)
| finite_sigmoid : forall np_exp b k,
    finite_weights (SigmoidCurve.new np_exp b k)
| finite_logarithmic : forall np_log b log_base,
    0 < log_base -> ~ log_base == 1 ->
    finite_weights (LogarithmicCurve.new np_log b log_base)
| finite_bid_ask : forall np_exp b sep w,
    ~ w == 0 -> finite_weights (BidAskCurve.new np_exp b sep w)
| finite_uniform : forall b, finite_weights (UniformCurve.new b).

(** Properties of a list of bins. *)

(** Each bin ends where the next one starts. *)
Definition contiguous (bins : list Bin) : Prop :=
  forall i b1 b2,
    nth_error bins i = Some b1 -> nth_error bins (S i) = Some b2 ->
    bin_upper b1 = bin_lower b2.

(** Every bin has a positive width and an earlier bin ends no later than a
    later bin starts. *)
Definition non_overlapping (bins : list Bin) : Prop :=
  (forall b, In b bins -> bin_lower b < bin_upper b) /\
  (forall i j bi bj,
     (i < j)%nat -> nth_error bins i = Some bi -> nth_error bins j = Some bj ->
     bin_upper bi <= bin_lower bj).

(** The first bin starts at [lo] and the last one ends at [hi]. *)
Definition covers (bins : list Bin) (lo hi : Q) : Prop :=
  exists first last,
    nth_error bins 0 = Some first /\
    nth_error bins (List.length bins - 1) = Some last /\
    bin_lower first == lo /\ bin_upper last == hi.

(** The keyword arguments a curve constructor reads, each present or not. *)
Module kwargs.

Record t : Type := mk {
  max_bins : option Z;
  mirror : option bool;
  invert : option bool;
  liquidity_scale : option Q;
  slope : option Q;
  std_dev : option Q;
  k : option Q;
  base : option Q;
  peak_separation : option Q;
  peak_width : option Q
}.

(** [{}] *)
Definition empty : t := mk None None None None None None None None None None.

(** [kwargs.get(key, default)] *)
Definition get {A} (value : option A) (default : A) : A :=
  match value with
  | Some x => x
  | None => default
  end.

End kwargs.

(** [CurveBase.__init__] reading its keyword arguments. *)
Definition CurveBase_init (kw : kwargs.t) : CurveBase :=
  mkCurveBase (kwargs.get (kwargs.max_bins kw) 10%Z)
              (kwargs.get (kwargs.mirror kw) false)
              (kwargs.get (kwargs.invert kw) false)
              (kwargs.get (kwargs.liquidity_scale kw) (1 # 1000)).

Module CurveFactory.

Section Linked.

(** The NumPy functions the curve classes call. *)
Variables np_exp np_log : Q -> Q.

(** The class registry: each entry is the class's constructor, applied to
    the keyword arguments. *)
Definition _curves : list (string * (kwargs.t -> Curve)) :=
  [("linear"%string,
    fun kw => LinearCurve.new (CurveBase_init kw)
                              (kwargs.get (kwargs.slope kw) 1));
   ("gaussian"%string,
    fun kw => GaussianCurve.new np_exp (CurveBase_init kw)
                                (kwargs.get (kwargs.std_dev kw) (1 # 2)));
   ("sigmoid"%string,
    fun kw => SigmoidCurve.new np_exp (CurveBase_init kw)
                               (kwargs.get (kwargs.k kw) 5));
   ("logarithmic"%string,
    fun kw => LogarithmicCurve.new np_log (CurveBase_init kw)
                                   (kwargs.get (kwargs.base kw) 2));
   ("bid_ask"%string,
    fun kw => BidAskCurve.new np_exp (CurveBase_init kw)
                              (kwargs.get (kwargs.peak_separation kw) (1 # 10))
                              (kwargs.get (kwargs.peak_width kw) (5 # 100)));
   ("uniform"%string,
    fun kw => UniformCurve.new (CurveBase_init kw))].

Definition create_curve (curve_type : string) (kw : kwargs.t) : result Curve :=
  match dict_get curve_type _curves with
  | None => Raise ValueError
  | Some cls => Ok (cls kw)
  end.

Definition get_available_curves : list string := map fst _curves.

End Linked.

Definition get_curve_params (curve_type : string) : kwargs.t :=
  if String.eqb curve_type "linear" then
    kwargs.mk (Some 10%Z) None None None (Some 1) None None None None None
  else if String.eqb curve_type "gaussian" then
    kwargs.mk (Some 10%Z) None None None None (Some (1 # 2)) None None None None
  else if String.eqb curve_type "sigmoid" then
    kwargs.mk (Some 10%Z) None None None None None (Some 5) None None None
  else if String.eqb curve_type "logarithmic" then
    kwargs.mk (Some 10%Z) None None None None None None (Some 2) None None
  else if String.eqb curve_type "bid_ask" then
    kwargs.mk (Some 10%Z) None None None None None None None
              (Some (1 # 10)) (Some (5 # 100))
  else if String.eqb curve_type "uniform" then
    kwargs.mk (Some 10%Z) None None None None None None None None None
  else kwargs.empty.

End CurveFactory.

End curves.

(* ================================================================= *)
(** ** Price bars (one row of the OHLCV frame) *)

Module data.

Definition timestamp : Type := Z.

Record Bar : Type := mkBar {
  bar_timestamp : timestamp;
  open : Q;
  high : Q;
  low : Q;
  close : Q;
  volume : option Q;
  quote_volume : option Q
}.

End data.

(* ================================================================= *)
(** ** steerbt/triggers.py *)

Module triggers.

Import data.

(** The [current_state] dictionary handed to every trigger. *)
Record State : Type := mkState {
  current_price : Q;
  position_center : Q;
  lower_price : Q;
  upper_price : Q;
  position_value : Q;
  current_timestamp : option timestamp
}.

(** Attributes of [TriggerBase]. *)
Record TriggerBase : Type := mkBase {
  last_triggered : option timestamp;
  trigger_count : Z
}.

(** [TriggerBase.__init__] *)
Definition base0 : TriggerBase := mkBase None 0.

(** A trigger object: the base attributes and those of its class.
    [VolatilityTrigger] carries [annualized_volatility], the NumPy
    computation [np.std(np.diff(np.log(history))) * np.sqrt(252)];
    [CompositeTrigger] holds its operator already upper-cased. *)
#[warnings="-register-all"]
Inductive Trigger : Type :=
| GapFromCenterTrigger (b : TriggerBase) (gap_ticks : Z) (gap_bps : option Q)
| RangeInactiveTrigger (b : TriggerBase)
| PercentDriftTrigger (b : TriggerBase) (drift_threshold_pct : Q)
    (last_position_value : option Q)
| OneWayExitTrigger (b : TriggerBase) (direction : string)
    (consecutive_bars : Z) (consecutive_count : Z) (last_price : option Q)
| ElapsedTimeTrigger (b : TriggerBase) (time_delta : Z)
| VolatilityTrigger (b : TriggerBase) (annualized_volatility : list Q -> Q)
    (volatility_threshold : Q) (lookback_periods : Z) (price_history : list Q)
| CompositeTrigger (b : TriggerBase) (triggers : list Trigger) (operator : string).

Definition base_of (t : Trigger) : TriggerBase :=
  match t with
  | GapFromCenterTrigger b _ _ => b
  | RangeInactiveTrigger b => b
  | PercentDriftTrigger b _ _ => b
  | OneWayExitTrigger b _ _ _ _ => b
  | ElapsedTimeTrigger b _ => b
  | VolatilityTrigger b _ _ _ _ => b
  | CompositeTrigger b _ _ => b
  end.

Definition with_base (b : TriggerBase) (t : Trigger) : Trigger :=
  match t with
  | GapFromCenterTrigger _ x y => GapFromCenterTrigger b x y
  | RangeInactiveTrigger _ => RangeInactiveTrigger b
  | PercentDriftTrigger _ x y => PercentDriftTrigger b x y
  | OneWayExitTrigger _ d n c l => OneWayExitTrigger b d n c l
  | ElapsedTimeTrigger _ d => ElapsedTimeTrigger b d
  | VolatilityTrigger _ v x n h => VolatilityTrigger b v x n h
  | CompositeTrigger _ ts op => CompositeTrigger b ts op
  end.

(** [GapFromCenterTrigger.should_trigger] *)
Definition gap_from_center_should_trigger
  (gap_ticks : Z) (gap_bps : option Q) (current_state : State) : result bool :=
  let current_price := current_price current_state in
  let position_center := position_center current_state in
  match gap_bps with
  | Some gap_bps =>
      (gap_pct <~ truediv (Qabs (current_price - position_center))
                          position_center ;;
       Ok (Qle_bool gap_bps (gap_pct * 10000)))%py
  | None =>
      let price_diff := Qabs (current_price - position_center) in
      Ok (Qle_bool (float gap_ticks * (1 # 10000)) price_diff)
  end.

(** [RangeInactiveTrigger.should_trigger] *)
Definition range_inactive_should_trigger (current_state : State) : bool :=
  Qltb (current_price current_state) (lower_price current_state)
  || Qltb (upper_price current_state) (current_price current_state).

(** [trigger.should_trigger(current_state)], dispatched on the class of the
    object; the object is the state of the computation. *)
Fixpoint should_trigger (self : Trigger) (current_state : State) {struct self}
  : result bool * Trigger :=
  match self with
  | GapFromCenterTrigger _ gap_ticks gap_bps =>
      (gap_from_center_should_trigger gap_ticks gap_bps current_state, self)
  | RangeInactiveTrigger _ =>
      (Ok (range_inactive_should_trigger current_state), self)
  | PercentDriftTrigger b threshold last_position_value =>
      let current_position_value := position_value current_state in
      match last_position_value with
      | None =>
          (Ok false, PercentDriftTrigger b threshold (Some current_position_value))
      | Some last =>
          match truediv (Qabs (current_position_value - last)) last with
          | Raise e => (Raise e, self)
          | Ok r =>
              let drift_pct := r * 100 in
              if Qle_bool threshold drift_pct then
                (Ok true,
                 PercentDriftTrigger b threshold (Some current_position_value))
              else (Ok false, self)
          end
      end
  | OneWayExitTrigger b direction consecutive_bars consecutive_count last_price =>
      let current_price := current_price current_state in
      match last_price with
      | None =>
          (Ok false,
           OneWayExitTrigger b direction consecutive_bars consecutive_count
                             (Some current_price))
      | Some last =>
          let count :=
            if String.eqb direction "up" && Qltb last current_price
            then (consecutive_count + 1)%Z
            else if String.eqb direction "down" && Qltb current_price last
            then (consecutive_count + 1)%Z
            else 0%Z in
          (Ok (consecutive_bars <=? count)%Z,
           OneWayExitTrigger b direction consecutive_bars count
                             (Some current_price))
      end
  | ElapsedTimeTrigger b time_delta =>
      match last_triggered b with
      | None =>
          (Ok false,
           ElapsedTimeTrigger
             (mkBase (current_timestamp current_state) (trigger_count b))
             time_delta)
      | Some last =>
          match current_timestamp current_state with
          | None => (Raise TypeError, self)
          | Some now =>
              let time_elapsed := (now - last)%Z in
              (Ok (time_delta <=? time_elapsed)%Z, self)
          end
      end
  | VolatilityTrigger b annualized_volatility threshold lookback history =>
      let history := history ++ [current_price current_state] in
      let history :=
        if (lookback <? Z.of_nat (List.length history))%Z
        then tl history else history in
      let self' :=
        VolatilityTrigger b annualized_volatility threshold lookback history in
      if (Z.of_nat (List.length history) <? lookback)%Z then (Ok false, self')
      else (Ok (Qle_bool threshold (annualized_volatility history)), self')
  | CompositeTrigger b children operator =>
      let fix all_results (ts : list Trigger) : result (list bool) * list Trigger :=
        match ts with
        | [] => (Ok [], [])
        | t :: ts' =>
            match should_trigger t current_state with
            | (Raise e, t') => (Raise e, t' :: ts')
            | (Ok r, t') =>
                match all_results ts' with
                | (Raise e, ts'') => (Raise e, t' :: ts'')
                | (Ok rs, ts'') => (Ok (r :: rs), t' :: ts'')
                end
            end
        end in
      match all_results children with
      | (Raise e, children') => (Raise e, CompositeTrigger b children' operator)
      | (Ok trigger_results, children') =>
          (Ok (if String.eqb operator "AND"
               then forallb (fun r => r) trigger_results
               else existsb (fun r => r) trigger_results),
           CompositeTrigger b children' operator)
      end
  end.

(** [trigger.reset()]: [TriggerBase.reset] clears the two base attributes;
    [CompositeTrigger.reset] also resets every child.  No class resets the
    attributes it added itself. *)
Fixpoint reset (self : Trigger) : Trigger :=
  match self with
  | CompositeTrigger _ children operator =>
      CompositeTrigger base0 (map reset children) operator
  | _ => with_base base0 self
  end.

(** The list comprehension of [CompositeTrigger.should_trigger],
    [[trigger.should_trigger(current_state) for trigger in self.triggers]],
    as a function of its own: the values returned and the children after
    the calls.  It stops at the first child that raises. *)
Fixpoint trigger_results (current_state : State) (ts : list Trigger)
  : result (list bool) * list Trigger :=
  match ts with
  | [] => (Ok [], [])
  | t :: ts' =>
      match should_trigger t current_state with
      | (Raise e, t') => (Raise e, t' :: ts')
      | (Ok r, t') =>
          match trigger_results current_state ts' with
          | (Raise e, ts'') => (Raise e, t' :: ts'')
          | (Ok rs, ts'') => (Ok (r :: rs), t' :: ts'')
          end
      end
  end.


(** Successive calls of [should_trigger] on one trigger object, one per
    state, with the values they return; the calls stop at the first one
    that raises. *)
Fixpoint calls (self : Trigger) (states : list State)
  : list (result bool) * Trigger :=
  match states with
  | [] => ([], self)
  | current_state :: rest =>
      match should_trigger self current_state with
      | (Raise e, self') => ([Raise e], self')
      | (Ok fired, self') =>
          let '(results, self'') := calls self' rest in
          (Ok fired :: results, self'')
      end
  end.

Module TriggerManager.

(** [self.triggers]: a dictionary, kept in insertion order. *)
Definition t : Type := list (string * Trigger).

Definition new : t := [].

(** [self.triggers[name] = trigger] *)
Fixpoint add_trigger (name : string) (trigger : Trigger) (self : t) : t :=
  match self with
  | [] => [(name, trigger)]
  | (n, tr) :: rest =>
      if String.eqb n name then (n, trigger) :: rest
      else (n, tr) :: add_trigger name trigger rest
  end.

(** The loop of [should_trigger_any]; [triggered_names] is the list built
    so far.  A trigger that fires has [last_triggered] and [trigger_count]
    updated by the manager. *)
Fixpoint should_trigger_loop
  (items : t) (current_state : State) (triggered_names : list string)
  : result (list string) * t :=
  match items with
  | [] => (Ok triggered_names, [])
  | (name, trigger) :: rest =>
      match should_trigger trigger current_state with
      | (Raise e, trigger') => (Raise e, (name, trigger') :: rest)
      | (Ok fired, trigger') =>
          let trigger'' :=
            if fired then
              with_base
                (mkBase (current_timestamp current_state)
                        (trigger_count (base_of trigger') + 1))
                trigger'
            else trigger' in
          let names := if fired then triggered_names ++ [name]
                       else triggered_names in
          match should_trigger_loop rest current_state names with
          | (r, rest') => (r, (name, trigger'') :: rest')
          end
      end
  end.

Definition should_trigger_any (current_state : State)
  : M t (bool * list string) :=
  fun self =>
    match should_trigger_loop self current_state [] with
    | (Raise e, self') => (Raise e, self')
    | (Ok triggered_names, self') =>
        (Ok (Nat.ltb 0 (List.length triggered_names), triggered_names), self')
    end.

(** [name in self.triggers] *)
Definition contains (name : string) (self : t) : bool :=
  existsb (fun item => String.eqb (fst item) name) self.

(** [if name in self.triggers: del self.triggers[name]] *)
Definition remove_trigger (name : string) (self : t) : t :=
  if contains name self
  then filter (fun item => negb (String.eqb (fst item) name)) self
  else self.

Definition reset_all (self : t) : t :=
  map (fun item => (fst item, reset (snd item))) self.

(** One value of the dictionary [get_trigger_stats] returns. *)
Record Stats : Type := mkStats {
  stats_trigger_count : Z;
  stats_last_triggered : option timestamp
}.

Definition get_trigger_stats (self : t) : list (string * Stats) :=
  map (fun item =>
         (fst item,
          mkStats (trigger_count (base_of (snd item)))
                  (last_triggered (base_of (snd item)))))
      self.

End TriggerManager.

End triggers.

(* ================================================================= *)
(** ** steerbt/portfolio.py *)

Module portfolio.

Import data.

Module Position.

Record t : Type := mk {
  lower_price : Q;
  upper_price : Q;
  liquidity : Q;
  fee_tier_bps : Z;
  created_at : timestamp;
  fees_earned : Q;
  last_rebalance_at : option timestamp
}.

(** [Position(lower, upper, liquidity)]: [fee_tier_bps] defaults to 500 and
    [created_at] to the clock reading [now]. *)
Definition new (lower upper liq : Q) (now : timestamp) : t :=
  mk lower upper liq 500%Z now 0 None.

Definition get_value (self : t) (current_price : Q) : result (Q * Q * Q) :=
  uv3_math.calculate_position_value
    current_price (lower_price self) (upper_price self) (liquidity self)
    (fee_tier_bps self).

Definition is_in_range (self : t) (price : Q) : bool :=
  Qle_bool (lower_price self) price && Qle_bool price (upper_price self).

Definition add_fees (self : t) (fees : Q) : t :=
  mk (lower_price self) (upper_price self) (liquidity self)
     (fee_tier_bps self) (created_at self) (fees_earned self + fees)
     (last_rebalance_at self).

Definition get_range_width_pct (self : t) : result Q :=
  let center := (lower_price self + upper_price self) / 2 in
  (r <~ truediv (upper_price self - lower_price self) center ;;
   Ok (r * 100))%py.

(** [Position.rebalance]; [now] is the clock reading. *)
Definition rebalance
  (self : t) (new_lower new_upper new_liquidity : Q) (now : timestamp) : t :=
  mk new_lower new_upper new_liquidity (fee_tier_bps self) (created_at self)
     (fees_earned self) (Some now).

End Position.

Record Transaction : Type := mkTransaction {
  tx_timestamp : timestamp;
  tx_type : string;
  tx_cost : Q;
  tx_positions_count : nat
}.

Record EquityPoint : Type := mkEquityPoint {
  ep_timestamp : timestamp;
  ep_price : Q;
  ep_total_value : Q;
  ep_cash : Q;
  ep_positions_value : Q;
  ep_fees_earned : Q;
  ep_total_costs : Q
}.

Module Portfolio.

Record t : Type := mk {
  initial_cash : Q;
  cash : Q;
  fee_bps : Z;
  slippage_bps : Z;
  gas_cost : Q;
  positions : list Position.t;
  transaction_history : list Transaction;
  equity_curve : list EquityPoint;
  total_fees_paid : Q;
  total_gas_paid : Q;
  total_slippage : Q;
  rebalance_count : Z
}.

(** [Portfolio(initial_cash, fee_bps, slippage_bps, gas_cost)] *)
Definition new (initial_cash : Q) (fee_bps slippage_bps : Z) (gas_cost : Q) : t :=
  mk initial_cash initial_cash fee_bps slippage_bps gas_cost [] [] [] 0 0 0 0%Z.

Definition set_cash (c : Q) (s : t) : t :=
  mk (initial_cash s) c (fee_bps s) (slippage_bps s) (gas_cost s)
     (positions s) (transaction_history s) (equity_curve s)
     (total_fees_paid s) (total_gas_paid s) (total_slippage s)
     (rebalance_count s).

Definition set_positions (ps : list Position.t) (s : t) : t :=
  mk (initial_cash s) (cash s) (fee_bps s) (slippage_bps s) (gas_cost s)
     ps (transaction_history s) (equity_curve s)
     (total_fees_paid s) (total_gas_paid s) (total_slippage s)
     (rebalance_count s).

Definition set_transaction_history (h : list Transaction) (s : t) : t :=
  mk (initial_cash s) (cash s) (fee_bps s) (slippage_bps s) (gas_cost s)
     (positions s) h (equity_curve s)
     (total_fees_paid s) (total_gas_paid s) (total_slippage s)
     (rebalance_count s).

Definition set_equity_curve (e : list EquityPoint) (s : t) : t :=
  mk (initial_cash s) (cash s) (fee_bps s) (slippage_bps s) (gas_cost s)
     (positions s) (transaction_history s) e
     (total_fees_paid s) (total_gas_paid s) (total_slippage s)
     (rebalance_count s).

Definition set_total_fees_paid (x : Q) (s : t) : t :=
  mk (initial_cash s) (cash s) (fee_bps s) (slippage_bps s) (gas_cost s)
     (positions s) (transaction_history s) (equity_curve s)
     x (total_gas_paid s) (total_slippage s) (rebalance_count s).

Definition set_total_gas_paid (x : Q) (s : t) : t :=
  mk (initial_cash s) (cash s) (fee_bps s) (slippage_bps s) (gas_cost s)
     (positions s) (transaction_history s) (equity_curve s)
     (total_fees_paid s) x (total_slippage s) (rebalance_count s).

Definition set_rebalance_count (n : Z) (s : t) : t :=
  mk (initial_cash s) (cash s) (fee_bps s) (slippage_bps s) (gas_cost s)
     (positions s) (transaction_history s) (equity_curve s)
     (total_fees_paid s) (total_gas_paid s) (total_slippage s) n.

(** The loop of [get_total_value]: [total += position_value + fees_earned]. *)
Fixpoint total_value_loop (total : Q) (ps : list Position.t) (current_price : Q)
  : result Q :=
  match ps with
  | [] => Ok total
  | position :: ps' =>
      (v <~ Position.get_value position current_price ;;
       let '(_, _, position_value) := v in
       total_value_loop (total + (position_value + Position.fees_earned position))
                        ps' current_price)%py
  end.

Definition get_total_value (self : t) (current_price : Q) : result Q :=
  total_value_loop (cash self) (positions self) current_price.

(** [value + position.fees_earned] for every position currently held. *)
Definition current_values (self : t) (current_price : Q) : result (list Q) :=
  rmap (fun position =>
          (v <~ Position.get_value position current_price ;;
           let '(_, _, value) := v in
           Ok (value + Position.fees_earned position))%py)
       (positions self).

(** The value at [current_price] of every position about to be opened. *)
Definition new_values
  (new_ranges : list (Q * Q)) (new_liquidities : list Q) (current_price : Q)
  : result (list Q) :=
  rmap (fun rl : (Q * Q) * Q =>
          let '((lower, upper), liq) := rl in
          (v <~ uv3_math.calculate_position_value
                  current_price lower upper liq 500 ;;
           let '(_, _, value) := v in
           Ok value)%py)
       (zip new_ranges new_liquidities).

(** Body of the loop "Remove old positions". *)
Definition liquidate (current_price : Q) (position : Position.t) : M t unit :=
  (v <- lift (Position.get_value position current_price) ;;
   let '(_, _, value) := v in
   modify (fun s =>
             set_cash (cash s + (value + Position.fees_earned position)) s))%py.

(** Body of the loop "Add new positions"; [total_cost] is the running
    local variable and the result its new value. *)
Definition open_position
  (current_price : Q) (now : timestamp) (total_cost : Q) (rl : (Q * Q) * Q)
  : M t Q :=
  (let '((lower, upper), liq) := rl in
   let new_position := Position.new lower upper liq now in
   modify (fun s => set_positions (positions s ++ [new_position]) s) ;;;
   v <- lift (Position.get_value new_position current_price) ;;
   let '(_, _, value) := v in
   self <- get ;;
   let cost := value * (float (fee_bps self) / 10000) in
   ret (total_cost + cost))%py.

Definition rebalance_positions
  (new_ranges : list (Q * Q)) (new_liquidities : list Q) (current_price : Q)
  (now : timestamp) : M t Q :=
  (if negb (Nat.eqb (List.length new_ranges) (List.length new_liquidities))
   then raise ValueError
   else
     self <- get ;;
     (* Calculate current position values *)
     _ <- lift (current_values self current_price) ;;
     (* Calculate new position values *)
     _ <- lift (new_values new_ranges new_liquidities current_price) ;;
     (* Calculate rebalancing costs *)
     let total_cost := 0 in
     (* Remove old positions *)
     for_each (positions self) (liquidate current_price) ;;;
     (* Clear positions *)
     modify (set_positions []) ;;;
     (* Add new positions *)
     total_cost <-
       for_fold (zip new_ranges new_liquidities) total_cost
                (open_position current_price now) ;;
     (* Update cash *)
     modify (fun s => set_cash (cash s - total_cost) s) ;;;
     (* Add gas costs *)
     self <- get ;;
     total_cost <-
       (if Qltb 0 (gas_cost self)
        then modify (fun s =>
                       set_total_gas_paid (total_gas_paid s + gas_cost s) s) ;;;
             ret (total_cost + gas_cost self)
        else ret total_cost) ;;
     (* Update transaction history *)
     modify (fun s =>
               set_transaction_history
                 (transaction_history s ++
                    [mkTransaction now "rebalance" total_cost
                                   (List.length (positions s))]) s) ;;;
     modify (fun s => set_rebalance_count (rebalance_count s + 1)%Z s) ;;;
     modify (fun s => set_total_fees_paid (total_fees_paid s + total_cost) s) ;;;
     ret total_cost)%py.

(** [volume_data] is the one-row frame built from the current bar; each
    position object in range is updated in place. *)
Definition add_fees_to_positions (volume_data : Bar) (liquidity_share : Q)
  : M t unit :=
  (self <- get ;;
   for_fold (positions self) 0%nat
     (fun i position =>
        if Position.is_in_range position (close volume_data) then
          match quote_volume volume_data with
          | None => raise KeyError
          | Some qv =>
              let fees := qv * liquidity_share
                          * (float (Position.fee_tier_bps position) / 10000) in
              modify (fun s =>
                        set_positions
                          (setitem (positions s) i
                                   (Position.add_fees position fees)) s) ;;;
              ret (S i)
          end
        else ret (S i)) ;;;
   ret tt)%py.

Definition record_equity_point (ts : timestamp) (current_price : Q) : M t unit :=
  (self <- get ;;
   total_value <- lift (get_total_value self current_price) ;;
   modify (fun s =>
             set_equity_curve
               (equity_curve s ++
                  [mkEquityPoint ts current_price total_value (cash s)
                     (total_value - cash s)
                     (sum (map Position.fees_earned (positions s)))
                     (total_fees_paid s + total_gas_paid s + total_slippage s)])
               s))%py.

Definition add_position (position : Position.t) : M t unit :=
  modify (fun s => set_positions (positions s ++ [position]) s).

(** The dictionary returned maps each position index to its weight; it is
    kept in insertion order. *)
Definition get_position_weights (self : t) (current_price : Q)
  : result (list (nat * Q)) :=
  (total_value <~ get_total_value self current_price ;;
   rmap (fun ip : nat * Position.t =>
           let '(i, position) := ip in
           v <~ Position.get_value position current_price ;;
           let '(_, _, position_value) := v in
           let position_total := position_value + Position.fees_earned position in
           Ok (i, if Qltb 0 total_value then position_total / total_value else 0))
        (enumerate (positions self)))%py.

(** One row of the frame [get_equity_dataframe] returns: the recorded point
    and the two columns added to it. *)
Record EquityRow : Type := mkEquityRow {
  row_point : EquityPoint;
  row_return_pct : Q;
  row_drawdown : Q
}.

(** An empty equity curve gives an empty frame. *)
Definition get_equity_dataframe (self : t) : list EquityRow :=
  let total_value := map ep_total_value (equity_curve self) in
  map (fun pm : EquityPoint * Q =>
         let '(point, running_max) := pm in
         mkEquityRow point
           ((ep_total_value point / initial_cash self - 1) * 100)
           ((ep_total_value point / running_max - 1) * 100))
      (zip (equity_curve self) (expanding_max total_value)).

End Portfolio.

Module BaselinePortfolio.

Record BaselineEquityPoint : Type := mkBaselineEquityPoint {
  bep_timestamp : timestamp;
  bep_price : Q;
  bep_total_value : Q;
  bep_amount0 : Q;
  bep_amount1 : Q;
  bep_cash : Q
}.

Record t : Type := mk {
  initial_cash : Q;
  cash : Q;
  strategy : string;
  amount0 : Q;
  amount1 : Q;
  equity_curve : list BaselineEquityPoint
}.

(** [BaselinePortfolio(initial_cash, strategy)] *)
Definition new (initial_cash : Q) (strategy : string) : t :=
  mk initial_cash initial_cash strategy 0 0 [].

(** The price divides a Python float.  Given a Python float 0 the quotient
    raises; given a NumPy zero, as the closes the engine passes are, it
    returns [inf] instead.  The theorems keep to non-zero prices, where
    both agree. *)
Definition initialize_position (initial_price : Q) : M t unit :=
  (self <- get ;;
   if String.eqb (strategy self) "hodl_50_50" then
     a0 <- lift (truediv (cash self / 2) initial_price) ;;
     put (mk (initial_cash self) 0 (strategy self) a0 (cash self / 2)
             (equity_curve self))
   else if String.eqb (strategy self) "single_asset" then
     a0 <- lift (truediv (cash self) initial_price) ;;
     put (mk (initial_cash self) 0 (strategy self) a0 0 (equity_curve self))
   else ret tt)%py.

Definition get_value (self : t) (current_price : Q) : Q :=
  amount0 self * current_price + amount1 self + cash self.

Definition rebalance_to_50_50 (current_price : Q) : M t unit :=
  (self <- get ;;
   if negb (String.eqb (strategy self) "hodl_50_50") then ret tt
   else
     let total_value := get_value self current_price in
     target_amount0 <- lift (truediv total_value (2 * current_price)) ;;
     let target_amount1 := total_value / 2 in
     let delta_amount0 := target_amount0 - amount0 self in
     let delta_amount1 := target_amount1 - amount1 self in
     put (mk (initial_cash self) (cash self) (strategy self)
             target_amount0 target_amount1 (equity_curve self)))%py.

Definition record_equity_point (ts : timestamp) (current_price : Q) : M t unit :=
  modify (fun self =>
            mk (initial_cash self) (cash self) (strategy self)
               (amount0 self) (amount1 self)
               (equity_curve self ++
                  [mkBaselineEquityPoint ts current_price
                     (get_value self current_price)
                     (amount0 self) (amount1 self) (cash self)])).

End BaselinePortfolio.

End portfolio.

(* ================================================================= *)
(** ** steerbt/strategies *)

Module strategies.

Import data.

(** *** strategies/base.py *)

Module base.

(** A strategy object: the attributes of [BaseStrategy] and, in [sub],
    those added by the concrete class. *)
Record t (Sub : Type) : Type := mk {
  initialized : bool;
  current_ranges : list (Q * Q);
  current_liquidities : list Q;
  last_update : option timestamp;
  rebalance_count : Z;
  total_fees_earned : Q;
  sub : Sub
}.

Arguments mk {Sub}.
Arguments initialized {Sub}.
Arguments current_ranges {Sub}.
Arguments current_liquidities {Sub}.
Arguments last_update {Sub}.
Arguments rebalance_count {Sub}.
Arguments total_fees_earned {Sub}.
Arguments sub {Sub}.

(** [BaseStrategy.__init__] *)
Definition init {Sub} (fields : Sub) : t Sub :=
  mk false [] [] None 0%Z 0 fields.

Definition set_sub {Sub} (x : Sub) (s : t Sub) : t Sub :=
  mk (initialized s) (current_ranges s) (current_liquidities s)
     (last_update s) (rebalance_count s) (total_fees_earned s) x.

(** [price_data.index[-1] if len(price_data) > 0 else None] *)
Definition last_index (price_data : list Bar) : option timestamp :=
  match rev price_data with
  | [] => None
  | bar :: _ => Some (bar_timestamp bar)
  end.

(** The first loop of [_should_rebalance]: a boundary moved by more than 1%. *)
Fixpoint ranges_changed (pairs : list ((Q * Q) * (Q * Q))) : result bool :=
  match pairs with
  | [] => Ok false
  | ((new_lower, new_upper), (current_lower, current_upper)) :: rest =>
      (lower_change <~ truediv (Qabs (new_lower - current_lower)) current_lower ;;
       upper_change <~ truediv (Qabs (new_upper - current_upper)) current_upper ;;
       if Qltb (1 # 100) lower_change || Qltb (1 # 100) upper_change
       then Ok true
       else ranges_changed rest)%py
  end.

(** The second loop: a liquidity changed by more than 5%. *)
Fixpoint liquidities_changed (pairs : list (Q * Q)) : result bool :=
  match pairs with
  | [] => Ok false
  | (new_liq, current_liq) :: rest =>
      (liq_change <~ truediv (Qabs (new_liq - current_liq)) current_liq ;;
       if Qltb (5 # 100) liq_change then Ok true
       else liquidities_changed rest)%py
  end.

Definition _should_rebalance {Sub} (self : t Sub)
  (new_ranges : list (Q * Q)) (new_liquidities : list Q) : result bool :=
  if negb (Nat.eqb (List.length new_ranges) (List.length (current_ranges self)))
  then Ok true
  else if negb (Nat.eqb (List.length new_liquidities)
                        (List.length (current_liquidities self)))
  then Ok true
  else
    (changed <~ ranges_changed (zip new_ranges (current_ranges self)) ;;
     if (changed : bool) then Ok true
     else liquidities_changed (zip new_liquidities (current_liquidities self)))%py.

Definition get_current_positions {Sub} (self : t Sub)
  : list (Q * Q) * list Q :=
  (current_ranges self, current_liquidities self).

(** [BaseStrategy.reset] *)
Definition reset {Sub} : M (t Sub) unit :=
  modify (fun s => mk false [] [] None 0%Z 0 (sub s)).

(** [BaseStrategy.add_fees] *)
Definition add_fees {Sub} (fees : Q) : M (t Sub) unit :=
  modify (fun s =>
            mk (initialized s) (current_ranges s) (current_liquidities s)
               (last_update s) (rebalance_count s)
               (total_fees_earned s + fees) (sub s)).

Section BaseStrategy.

Context {Sub : Type}.

(** The abstract method every concrete class implements. *)
Variable calculate_range :
  list Bar -> Q -> Q -> M (t Sub) (list (Q * Q) * list Q).

Definition initialize
  (initial_price portfolio_value : Q) (price_data : list Bar) : M (t Sub) unit :=
  (self <- get ;;
   if initialized self then ret tt
   else
     rl <- calculate_range price_data initial_price portfolio_value ;;
     let '(ranges, liquidities) := rl in
     modify (fun s =>
               mk true ranges liquidities (last_update s) (rebalance_count s)
                  (total_fees_earned s) (sub s)))%py.

Definition update
  (price_data : list Bar) (current_price portfolio_value : Q)
  (force_update : bool) : M (t Sub) bool :=
  (self <- get ;;
   if negb (initialized self) then
     initialize current_price portfolio_value price_data ;;;
     ret true
   else
     rl <- calculate_range price_data current_price portfolio_value ;;
     let '(new_ranges, new_liquidities) := rl in
     self <- get ;;
     needed <- (if force_update then ret true
                else lift (_should_rebalance self new_ranges new_liquidities)) ;;
     if (needed : bool) then
       modify (fun s =>
                 mk (initialized s) new_ranges new_liquidities
                    (last_index price_data) (rebalance_count s + 1)%Z
                    (total_fees_earned s) (sub s)) ;;;
       ret true
     else ret false)%py.

End BaseStrategy.

End base.

(** *** strategies/classic.py *)

Module classic.

Import triggers.

Record Fields : Type := mkFields {
  width_mode : string;
  width_value : Q;
  placement_mode : string;
  curve : curves.Curve;
  max_positions : Z;
  recenter_threshold : Q;
  trigger_manager : TriggerManager.t
}.

Definition t : Type := base.t Fields.

Definition set_trigger_manager (m : TriggerManager.t) (f : Fields) : Fields :=
  mkFields (width_mode f) (width_value f) (placement_mode f) (curve f)
           (max_positions f) (recenter_threshold f) m.

(** [_setup_triggers]; [time_threshold_hours] becomes a [timedelta] counted
    in seconds. *)
Definition _setup_triggers
  (gap_bps drift_threshold_pct : Q) (time_threshold_hours : Z)
  : TriggerManager.t :=
  let m := TriggerManager.new in
  let m := TriggerManager.add_trigger "gap_from_center"
             (GapFromCenterTrigger base0 100 (Some gap_bps)) m in
  let m := TriggerManager.add_trigger "range_inactive"
             (RangeInactiveTrigger base0) m in
  let m := TriggerManager.add_trigger "percent_drift"
             (PercentDriftTrigger base0 drift_threshold_pct None) m in
  let m := TriggerManager.add_trigger "time_elapsed"
             (ElapsedTimeTrigger base0 (time_threshold_hours * 3600)) m in
  m.

(** [ClassicStrategy(width_mode=..., width_value=..., placement_mode=..., ...)]
    with the optional parameters given explicitly; the curve is the object
    [CurveFactory.create_curve] returned. *)
Definition new
  (width_mode : string) (width_value : Q) (placement_mode : string)
  (curve : curves.Curve) (max_positions : Z)
  (gap_bps drift_threshold_pct : Q) (time_threshold_hours : Z) : t :=
  base.init
    (mkFields width_mode width_value placement_mode curve max_positions
              (5 # 100)
              (_setup_triggers gap_bps drift_threshold_pct time_threshold_hours)).

(** The constructor with every optional parameter at its default:
    uniform curve, one position, [gap_bps=100], 5% drift, 24 hours. *)
Definition new_default
  (width_mode : string) (width_value : Q) (placement_mode : string) : t :=
  new width_mode width_value placement_mode
      (curves.UniformCurve.new curves.default_base) 1 100 5 24.

Definition _calculate_width (self : t) (current_price : Q) : result Q :=
  let f := base.sub self in
  if String.eqb (width_mode f) "percent" then Ok (width_value f)
  else if String.eqb (width_mode f) "multiplier" then
    let base_width := 5 in
    Ok (base_width * width_value f)
  else if String.eqb (width_mode f) "static_ticks" then
    let tick_size := 1 # 10000 in
    let width_in_ticks := width_value f in
    (r <~ truediv (width_in_ticks * tick_size) current_price ;;
     Ok (r * 100))%py
  else Raise ValueError.

(** [price_data["close"].rolling(window=20).mean().iloc[-1]]: the mean of
    the last 20 closes. *)
Definition rolling_mean_20 (price_data : list Bar) : Q :=
  sum (map close (skipn (List.length price_data - 20) price_data)) / 20.

Definition _calculate_center_price
  (self : t) (price_data : list Bar) (current_price : Q) : result Q :=
  let f := base.sub self in
  if String.eqb (placement_mode f) "center" then Ok current_price
  else if String.eqb (placement_mode f) "recenter" then
    match base.current_ranges self with
    | (current_lower, current_upper) :: _ =>
        if Qltb current_price current_lower || Qltb current_upper current_price
        then Ok current_price
        else Ok ((current_lower + current_upper) / 2)
    | [] => Ok current_price
    end
  else if String.eqb (placement_mode f) "dynamic" then
    if Nat.leb 20 (List.length price_data)
    then Ok (rolling_mean_20 price_data)
    else Ok current_price
  else Raise ValueError.

(** [calculate_range] reads the object and does not change it. *)
Definition calculate_range_of
  (self : t) (price_data : list Bar) (current_price portfolio_value : Q)
  : result (list (Q * Q) * list Q) :=
  let f := base.sub self in
  (width_pct <~ _calculate_width self current_price ;;
   center_price <~ _calculate_center_price self price_data current_price ;;
   if (max_positions f =? 1)%Z then
     distribution <~ curves.generate_distribution
                       (curve f) center_price width_pct
                       (portfolio_value * (95 # 100)) ;;
     match distribution with
     | (lower_price, upper_price, liquidity) :: _ =>
         Ok ([(lower_price, upper_price)], [liquidity])
     | [] =>
         let lower_price := center_price * (1 - width_pct / 200) in
         let upper_price := center_price * (1 + width_pct / 200) in
         Ok ([(lower_price, upper_price)],
             [portfolio_value * (95 # 100) * (1 # 1000)])
     end
   else
     distribution <~ curves.generate_distribution
                       (curve f) center_price width_pct
                       (portfolio_value * (95 # 100)) ;;
     Ok (map (fun b : curves.Bin => (curves.bin_lower b, curves.bin_upper b))
             distribution,
         map curves.bin_liquidity distribution))%py.

Definition calculate_range
  (price_data : list Bar) (current_price portfolio_value : Q)
  : M t (list (Q * Q) * list Q) :=
  fun self =>
    (calculate_range_of self price_data current_price portfolio_value, self).

(** The [current_state] dictionary built by [should_rebalance]. *)
Definition current_state_of
  (self : t) (price_data : list Bar) (current_price portfolio_value : Q)
  : State :=
  match base.current_ranges self with
  | (lower, upper) :: _ =>
      mkState current_price ((lower + upper) / 2) lower upper
              portfolio_value (base.last_index price_data)
  | [] =>
      mkState current_price current_price 0 0
              portfolio_value (base.last_index price_data)
  end.

Definition should_rebalance
  (price_data : list Bar) (current_price portfolio_value : Q) : M t bool :=
  fun self =>
    if negb (base.initialized self) then (Ok true, self)
    else
      let current_state :=
        current_state_of self price_data current_price portfolio_value in
      match TriggerManager.should_trigger_any
              current_state (trigger_manager (base.sub self)) with
      | (r, m') =>
          (match r with
           | Ok (should_trigger, _) => Ok should_trigger
           | Raise e => Raise e
           end,
           base.set_sub (set_trigger_manager m' (base.sub self)) self)
      end.

(** [ClassicStrategy.update]: the base update runs only when forced or when
    [should_rebalance] says so. *)
Definition update
  (price_data : list Bar) (current_price portfolio_value : Q)
  (force_update : bool) : M t bool :=
  (go <- (if force_update then ret true
          else should_rebalance price_data current_price portfolio_value) ;;
   if (go : bool) then
     base.update calculate_range price_data current_price portfolio_value
                 force_update
   else ret false)%py.

Definition initialize := base.initialize calculate_range.

(** [ClassicStrategy.reset] *)
Definition reset : M t unit :=
  (base.reset ;;;
   modify (fun s =>
             base.set_sub
               (set_trigger_manager
                  (TriggerManager.reset_all (trigger_manager (base.sub s)))
                  (base.sub s))
               s))%py.

End classic.

(** *** strategies/channel_multiplier.py *)

Module channel_multiplier.

Record Fields : Type := mkFields {
  width_pct : Q
}.

Definition t : Type := base.t Fields.

(** [ChannelMultiplierStrategy(width_pct=...)] *)
Definition new (width_pct : Q) : t := base.init (mkFields width_pct).

Definition calculate_range
  (price_data : list Bar) (current_price portfolio_value : Q)
  : M t (list (Q * Q) * list Q) :=
  (self <- get ;;
   let half_width := width_pct (base.sub self) / 200 in
   let lower_price := current_price * (1 - half_width) in
   let upper_price := current_price * (1 + half_width) in
   let ranges := [(lower_price, upper_price)] in
   let liquidities := [portfolio_value * (95 # 100)] in
   ret (ranges, liquidities))%py.

(** Inherited from [BaseStrategy]. *)
Definition initialize := base.initialize calculate_range.
Definition update := base.update calculate_range.

End channel_multiplier.

End strategies.

(* ================================================================= *)
(** ** steerbt/backtester.py *)

Module backtester.

Import data.
Import portfolio.

(** What [Backtester] calls on its strategy object, whatever its class. *)
Record StrategyClass : Type := mkStrategyClass {
  Self : Type;
  initialize : Q -> Q -> list Bar -> M Self unit;
  update : list Bar -> Q -> Q -> bool -> M Self bool;
  calculate_range : list Bar -> Q -> Q -> M Self (list (Q * Q) * list Q)
}.

Definition ClassicStrategy : StrategyClass :=
  mkStrategyClass strategies.classic.t
    strategies.classic.initialize
    strategies.classic.update
    strategies.classic.calculate_range.

Definition ChannelMultiplierStrategy : StrategyClass :=
  mkStrategyClass strategies.channel_multiplier.t
    strategies.channel_multiplier.initialize
    strategies.channel_multiplier.update
    strategies.channel_multiplier.calculate_range.

Section Backtester.

Variable C : StrategyClass.

Record t : Type := mk {
  initial_cash : Q;
  liq_share : Q;
  strategy : Self C;
  portfolio : Portfolio.t;
  hodl_portfolio : BaselinePortfolio.t;
  single_asset_portfolio : BaselinePortfolio.t
}.

(** [Backtester(config)] with the strategy object already created. *)
Definition new
  (strategy : Self C) (initial_cash : Q) (fee_bps slippage_bps : Z)
  (gas_cost liq_share : Q) : t :=
  mk initial_cash liq_share strategy
     (Portfolio.new initial_cash fee_bps slippage_bps gas_cost)
     (BaselinePortfolio.new initial_cash "hodl_50_50")
     (BaselinePortfolio.new initial_cash "single_asset").

(** Run a method of one attribute object. *)
Definition on_strategy {A} (m : M (Self C) A) : M t A :=
  fun s =>
    let '(r, x) := m (strategy s) in
    (r, mk (initial_cash s) (liq_share s) x (portfolio s)
           (hodl_portfolio s) (single_asset_portfolio s)).

Definition on_portfolio {A} (m : M Portfolio.t A) : M t A :=
  fun s =>
    let '(r, x) := m (portfolio s) in
    (r, mk (initial_cash s) (liq_share s) (strategy s) x
           (hodl_portfolio s) (single_asset_portfolio s)).

Definition on_hodl {A} (m : M BaselinePortfolio.t A) : M t A :=
  fun s =>
    let '(r, x) := m (hodl_portfolio s) in
    (r, mk (initial_cash s) (liq_share s) (strategy s) (portfolio s)
           x (single_asset_portfolio s)).

Definition on_single_asset {A} (m : M BaselinePortfolio.t A) : M t A :=
  fun s =>
    let '(r, x) := m (single_asset_portfolio s) in
    (r, mk (initial_cash s) (liq_share s) (strategy s) (portfolio s)
           (hodl_portfolio s) x).

Definition _update_baseline_portfolios
  (ts : timestamp) (current_price : Q) (bar_index : nat) : M t unit :=
  if Nat.eqb (Nat.modulo bar_index 24) 0
  then on_hodl (BaselinePortfolio.rebalance_to_50_50 current_price)
  else ret tt.

(** The body of the main loop for bar [i]; [history] is
    [price_data.iloc[:i+1]] and [now] the wall clock used to stamp records. *)
Definition step (now : timestamp) (history : list Bar) (i : nat) (row : Bar)
  : M t unit :=
  (let ts := bar_timestamp row in
   let current_price := close row in
   let current_volume := match volume row with Some v => v | None => 0 end in
   let current_quote_volume :=
     match quote_volume row with
     | Some v => v
     | None => current_volume * current_price
     end in
   _update_baseline_portfolios ts current_price i ;;;
   self <- get ;;
   value <- lift (Portfolio.get_total_value (portfolio self) current_price) ;;
   should_rebalance <- on_strategy (update C history current_price value false) ;;
   (if (should_rebalance : bool) then
      self <- get ;;
      value <- lift (Portfolio.get_total_value (portfolio self) current_price) ;;
      rl <- on_strategy (calculate_range C history current_price value) ;;
      let '(ranges, liquidities) := rl in
      on_portfolio
        (Portfolio.rebalance_positions ranges liquidities current_price now) ;;;
      ret tt
    else ret tt) ;;;
   (self <- get ;;
    if Qltb 0 current_quote_volume
    then on_portfolio (Portfolio.add_fees_to_positions row (liq_share self))
    else ret tt) ;;;
   on_portfolio (Portfolio.record_equity_point ts current_price) ;;;
   on_hodl (BaselinePortfolio.record_equity_point ts current_price) ;;;
   on_single_asset (BaselinePortfolio.record_equity_point ts current_price))%py.

(** [for i, (timestamp, row) in enumerate(price_data.iterrows())] *)
Fixpoint main_loop (now : timestamp) (price_data : list Bar) (i : nat)
  (rows : list Bar) : M t unit :=
  match rows with
  | [] => ret tt
  | row :: rows' =>
      bind (step now (firstn (S i) price_data) i row)
           (fun _ => main_loop now price_data (S i) rows')
  end.

(** [Backtester.run] up to the end of the main loop; the report assembled
    afterwards by [_calculate_results] only reads the state. *)
Definition run (now : timestamp) (price_data : list Bar) : M t unit :=
  match price_data with
  | [] => raise ValueError
  | first :: _ =>
      (let initial_price := close first in
       on_hodl (BaselinePortfolio.initialize_position initial_price) ;;;
       on_single_asset (BaselinePortfolio.initialize_position initial_price) ;;;
       self <- get ;;
       on_strategy (initialize C initial_price (initial_cash self) price_data) ;;;
       main_loop now price_data 0 price_data)%py
  end.

(** The parts of the engine that a strategy call and a portfolio operation
    leave alone: the strategy's equity curve and the two baselines. *)
Definition kept (s : t)
  : list EquityPoint * BaselinePortfolio.t * BaselinePortfolio.t :=
  (Portfolio.equity_curve (portfolio s), hodl_portfolio s,
   single_asset_portfolio s).

End Backtester.


(** What the main loop does to the hold-50:50 baseline, taken alone: for
    the bar of index [i], a rebalance when [i] is a multiple of 24, then
    the record of the bar. *)
Fixpoint hodl_baseline_loop (i : nat) (rows : list Bar)
  : M BaselinePortfolio.t unit :=
  match rows with
  | [] => ret tt
  | row :: rows' =>
      ((if Nat.eqb (Nat.modulo i 24) 0
        then BaselinePortfolio.rebalance_to_50_50 (close row)
        else ret tt) ;;;
       BaselinePortfolio.record_equity_point (bar_timestamp row) (close row) ;;;
       hodl_baseline_loop (S i) rows')%py
  end.

End backtester.
(* ================================================================= *)
(** * Properties *)

(** ** Python runtime conventions *)

Lemma Qltb_true (x y : Q) : Qltb x y = true <-> x < y.
Proof.
  unfold Qltb. rewrite negb_true_iff. split; intro H.
  - apply Qnot_le_lt. intro Hle. apply Qle_bool_iff in Hle. congruence.
  - destruct (Qle_bool y x) eqn:E; [|reflexivity].
    apply Qle_bool_iff in E. exfalso. apply (Qlt_not_le _ _ H E).
Qed.

Lemma Qltb_false (x y : Q) : Qltb x y = false <-> y <= x.
Proof.
  unfold Qltb. rewrite negb_false_iff. apply Qle_bool_iff.
Qed.

Lemma truediv_ok (x y : Q) : ~ y == 0 -> truediv x y = Ok (x / y).
Proof.
  intro H. unfold truediv. destruct (Qeq_bool y 0) eqn:E; [|reflexivity].
  apply Qeq_bool_iff in E. contradiction.
Qed.

Lemma truediv_zero (x y : Q) : y == 0 -> truediv x y = Raise ZeroDivisionError.
Proof.
  intro H. unfold truediv. apply Qeq_bool_iff in H. now rewrite H.
Qed.

(** [int] of a non-positive float is non-positive, of a non-negative one
    non-negative. *)
Lemma int_nonpos (x : Q) : x <= 0 -> (int x <= 0)%Z.
Proof.
  destruct x as [n d]. unfold Qle, int. simpl. intro H.
  apply Z.quot_le_upper_bound; lia.
Qed.

Lemma int_nonneg (x : Q) : 0 <= x -> (0 <= int x)%Z.
Proof.
  destruct x as [n d]. unfold Qle, int. simpl. intro H.
  apply Z.quot_pos; lia.
Qed.

Lemma float_pos (z : Z) : (0 < z)%Z -> 0 < float z.
Proof. intro H. unfold float, Qlt. simpl. lia. Qed.

Lemma float_neg (z : Z) : (z < 0)%Z -> float z < 0.
Proof. intro H. unfold float, Qlt. simpl. lia. Qed.

Lemma float_Q96_pos : 0 < float uv3_math.Q96.
Proof. reflexivity. Qed.

Lemma float_Q192_pos : 0 < float uv3_math.Q192.
Proof. reflexivity. Qed.

(** ** uv3_math: the fixed-point conversions *)

Section UV3.

Import uv3_math.

Lemma sort2_same (a : Z) : sort2 a a = (a, a).
Proof. unfold sort2. destruct (a >? a)%Z; reflexivity. Qed.

Lemma sort2_spec (a b : Z) :
  exists lo hi, sort2 a b = (lo, hi) /\ (lo <= hi)%Z /\
                ((lo = a /\ hi = b) \/ (lo = b /\ hi = a)).
Proof.
  unfold sort2. destruct (a >? b)%Z eqn:E.
  - exists b, a. rewrite Z.gtb_lt in E. repeat split; lia.
  - exists a, b. rewrite Z.gtb_ltb, Z.ltb_ge in E. repeat split; lia.
Qed.

(** A negative quantity spread over an ascending, non-degenerate range. *)
Lemma scaled_diff_neg (x lo hi : Z) :
  (x < 0)%Z -> (lo < hi)%Z ->
  float x * (float (hi - lo) / float Q96) < 0.
Proof.
  intros Hx Hd.
  assert (H1 : float x < 0) by now apply float_neg.
  assert (H2 : 0 < float (hi - lo)) by (apply float_pos; lia).
  assert (H3 : 0 < float (hi - lo) / float Q96).
  { apply Qlt_shift_div_l; [apply float_Q96_pos|]. now rewrite Qmult_0_l. }
  setoid_replace 0 with (0 * (float (hi - lo) / float Q96)) by ring.
  apply Qmult_lt_compat_r; assumption.
Qed.

Lemma ratio_pos (a : Z) : (0 < a)%Z -> 0 < float a / float Q96.
Proof.
  intro H. apply Qlt_shift_div_l; [apply float_Q96_pos|].
  rewrite Qmult_0_l. now apply float_pos.
Qed.

End UV3.

Section UV3Claims.

Import uv3_math.

Lemma price_to_sqrt_price_x96_ok (p : Q) :
  0 <= p -> price_to_sqrt_price_x96 p = Ok (Z.sqrt (Qfloor (p * float Q192))).
Proof.
  intro H. unfold price_to_sqrt_price_x96.
  apply Qltb_false in H. now rewrite H.
Qed.

(** The fixed-point square root brackets the price:
    [(s / 2^96)^2 <= p < ((s + 1) / 2^96)^2]. *)
Lemma sqrt_price_brackets (p : Q) :
  0 <= p ->
  let s := Z.sqrt (Qfloor (p * float Q192)) in
  (0 <= s)%Z /\
  inject_Z (s * s) <= p * float Q192 /\
  p * float Q192 < inject_Z ((s + 1) * (s + 1)).
Proof.
  intros Hp s.
  set (T := p * float Q192) in *.
  assert (HT : 0 <= T).
  { unfold T. apply Qmult_le_0_compat; [assumption|]. apply Qlt_le_weak, float_Q192_pos. }
  assert (HN : (0 <= Qfloor T)%Z).
  { change 0%Z with (Qfloor 0). now apply Qfloor_resp_le. }
  pose proof (Z.sqrt_spec (Qfloor T) HN) as [Hlo Hhi]. fold s in Hlo, Hhi.
  split; [apply Z.sqrt_nonneg|]. split.
  - apply Qle_trans with (inject_Z (Qfloor T)); [|apply Qfloor_le].
    rewrite <- Zle_Qle. exact Hlo.
  - apply Qlt_le_trans with (inject_Z (Qfloor T + 1)); [apply Qlt_floor|].
    rewrite <- Zle_Qle. unfold Z.succ in Hhi. lia.
Qed.

Lemma sqrt_price_x96_to_price_eq (s : Z) :
  sqrt_price_x96_to_price s == inject_Z (s * s) / float Q192.
Proof.
  unfold sqrt_price_x96_to_price, float.
  rewrite inject_Z_mult.
  change (inject_Z Q192) with (inject_Z Q96 * inject_Z Q96).
  simpl. field. discriminate.
Qed.

(** C7. For every price [p] in [[1e-6, 1e9]] the conversion to the
    fixed-point square root succeeds and converting back yields a price
    whose relative error against [p] is below [1e-6]. *)
Theorem C7_sqrt_price_round_trip (p : Q) :
  1 # 1000000 <= p -> p <= 1000000000 ->
  exists s,
    price_to_sqrt_price_x96 p = Ok s /\
    Qabs (sqrt_price_x96_to_price s - p) / p < 1 # 1000000.
Proof.
  intros Hlo Hhi.
  assert (Hp : 0 < p) by (eapply Qlt_le_trans; [|exact Hlo]; reflexivity).
  exists (Z.sqrt (Qfloor (p * float Q192))). split.
  { apply price_to_sqrt_price_x96_ok. now apply Qlt_le_weak. }
  destruct (sqrt_price_brackets p (Qlt_le_weak _ _ Hp)) as (Hs0 & Hsq & Hnext).
  set (s := Z.sqrt (Qfloor (p * float Q192))) in *.
  (* the root is large: s >= 2000001 *)
  assert (Hbig : (2000001 <= s)%Z).
  { unfold s. apply Z.sqrt_le_square; [|lia|].
    - change 0%Z with (Qfloor 0). apply Qfloor_resp_le.
      apply Qmult_le_0_compat; [now apply Qlt_le_weak|].
      apply Qlt_le_weak, float_Q192_pos.
    - apply Z.le_trans with (Qfloor ((1 # 1000000) * float Q192)).
      + vm_compute. discriminate.
      + apply Qfloor_resp_le. apply Qmult_le_compat_r; [exact Hlo|].
        apply Qlt_le_weak, float_Q192_pos. }
  rewrite sqrt_price_x96_to_price_eq.
  set (D := float Q192) in *.
  assert (HD : 0 < D) by apply float_Q192_pos.
  set (S2 := inject_Z (s * s)) in *.
  (* the reconstructed price does not exceed p *)
  assert (Hle : S2 / D <= p).
  { apply Qle_shift_div_r; assumption. }
  rewrite Qabs_neg by lra.
  apply Qlt_shift_div_r; [exact Hp|].
  (* p - S2/D < p / 10^6, shown after multiplying by D *)
  assert (Hgap : p * D - S2 < inject_Z (2 * s + 1)).
  { assert (E : inject_Z ((s + 1) * (s + 1)) == S2 + inject_Z (2 * s + 1)).
    { unfold S2. rewrite <- inject_Z_plus. apply inject_Z_injective. ring. }
    rewrite E in Hnext. lra. }
  assert (Hsmall : 1000000 * inject_Z (2 * s + 1) <= S2).
  { unfold S2. change 1000000 with (inject_Z 1000000).
    rewrite <- inject_Z_mult, <- Zle_Qle. nia. }
  assert (Hmain : 1000000 * (p * D - S2) < p * D) by lra.
  assert (E : - (S2 / D - p) == (p * D - S2) / D) by (field; lra).
  rewrite E. apply Qlt_shift_div_r; [exact HD|].
  lra.
Qed.

(** The round trip of C7 at the test-suite price 2000. *)
Lemma C7_sqrt_price_round_trip_witness :
  exists s,
    price_to_sqrt_price_x96 2000 = Ok s /\
    Qabs (sqrt_price_x96_to_price s - 2000) / 2000 < 1 # 1000000.
Proof.
  apply (C7_sqrt_price_round_trip 2000); vm_compute; discriminate.
Defined.

(** C8, as the code has it. With a zero-width range each of the four
    conversion functions returns 0; with a negative liquidity (or amount)
    and positive bounds each of them returns a value that is not positive.
    Neither case aborts. *)
Theorem C8_degenerate_inputs_return (a b x : Z) :
  (a = b ->
   get_amount0_for_liquidity a b x = Ok 0%Z /\
   get_amount1_for_liquidity a b x = 0%Z /\
   get_liquidity_for_amount0 a b x = 0%Z /\
   get_liquidity_for_amount1 a b x = 0%Z)
  /\
  ((x < 0)%Z -> (0 < a)%Z -> (0 < b)%Z ->
   (exists v, get_amount0_for_liquidity a b x = Ok v /\ (v <= 0)%Z) /\
   (get_amount1_for_liquidity a b x <= 0)%Z /\
   (get_liquidity_for_amount0 a b x <= 0)%Z /\
   (get_liquidity_for_amount1 a b x <= 0)%Z).
Proof.
  split.
  - intros ->.
    unfold get_amount0_for_liquidity, get_amount1_for_liquidity,
      get_liquidity_for_amount0, get_liquidity_for_amount1.
    rewrite sort2_same, Z.sub_diag. simpl. repeat split; reflexivity.
  - intros Hx Ha Hb.
    unfold get_amount0_for_liquidity, get_amount1_for_liquidity,
      get_liquidity_for_amount0, get_liquidity_for_amount1.
    destruct (sort2_spec a b) as (lo & hi & -> & Hle & Hcases).
    assert (Hlo : (0 < lo)%Z) by lia.
    assert (Hhi : (0 < hi)%Z) by lia.
    destruct (hi - lo =? 0)%Z eqn:E.
    + split; [exists 0%Z; split; [reflexivity|lia]|lia].
    + apply Z.eqb_neq in E.
      assert (Hx' : float x < 0) by now apply float_neg.
      assert (Hdiff : 0 < float (hi - lo) / float Q96)
        by (apply ratio_pos; lia).
      assert (Hnum : float x * (float (hi - lo) / float Q96) < 0)
        by (apply scaled_diff_neg; lia).
      pose proof (ratio_pos lo Hlo) as Hrlo.
      pose proof (ratio_pos hi Hhi) as Hrhi.
      assert (Hden : 0 < float lo / float Q96 * (float hi / float Q96)).
      { setoid_replace 0 with (0 * (float hi / float Q96)) by ring.
        apply Qmult_lt_compat_r; assumption. }
      split; [|split; [|split]].
      * rewrite truediv_ok by lra. simpl.
        eexists; split; [reflexivity|].
        apply int_nonpos.
        apply Qle_shift_div_r; [exact Hden|]. lra.
      * apply int_nonpos. lra.
      * apply int_nonpos.
        apply Qle_shift_div_r; [exact Hdiff|]. rewrite Qmult_0_l.
        rewrite <- Qmult_assoc. nra.
      * apply int_nonpos.
        apply Qle_shift_div_r; [exact Hdiff|]. lra.
Qed.

(** The hypotheses of C8 hold at a degenerate range and at a negative
    liquidity. *)
Lemma C8_degenerate_inputs_return_witness :
  (get_amount0_for_liquidity Q96 Q96 1000 = Ok 0%Z /\
   get_amount1_for_liquidity Q96 Q96 1000 = 0%Z /\
   get_liquidity_for_amount0 Q96 Q96 1000 = 0%Z /\
   get_liquidity_for_amount1 Q96 Q96 1000 = 0%Z)
  /\
  ((exists v, get_amount0_for_liquidity Q96 (2 * Q96) (-5) = Ok v /\ (v <= 0)%Z) /\
   (get_amount1_for_liquidity Q96 (2 * Q96) (-5) <= 0)%Z /\
   (get_liquidity_for_amount0 Q96 (2 * Q96) (-5) <= 0)%Z /\
   (get_liquidity_for_amount1 Q96 (2 * Q96) (-5) <= 0)%Z).
Proof.
  split.
  - apply (proj1 (C8_degenerate_inputs_return Q96 Q96 1000)). reflexivity.
  - apply (proj2 (C8_degenerate_inputs_return Q96 (2 * Q96) (-5)));
      reflexivity.
Defined.

(** C8 as stated fails: a zero-width range and a negative liquidity both
    come back with a value instead of aborting. *)
Lemma C8_counterexample :
  get_amount0_for_liquidity Q96 Q96 1000 = Ok 0%Z /\
  get_liquidity_for_amount1 Q96 Q96 1000 = 0%Z /\
  get_amount1_for_liquidity Q96 (2 * Q96) (-5) = (-5)%Z.
Proof. repeat split; vm_compute; reflexivity. Qed.

End UV3Claims.

Section UV3Totality.

Import uv3_math.

Lemma get_amount0_for_liquidity_returns (a b liquidity : Z) :
  (0 < a)%Z -> (0 < b)%Z ->
  exists v, get_amount0_for_liquidity a b liquidity = Ok v.
Proof.
  intros Ha Hb. unfold get_amount0_for_liquidity.
  destruct (sort2_spec a b) as (lo & hi & -> & Hle & Hcases).
  destruct (hi - lo =? 0)%Z; [eexists; reflexivity|].
  assert (Hden : 0 < float lo / float Q96 * (float hi / float Q96)).
  { pose proof (ratio_pos lo ltac:(lia)). pose proof (ratio_pos hi ltac:(lia)).
    setoid_replace 0 with (0 * (float hi / float Q96)) by ring.
    apply Qmult_lt_compat_r; assumption. }
  rewrite truediv_ok by lra. eexists; reflexivity.
Qed.

(** With positive fixed-point bounds the split into token amounts always
    returns. *)
Lemma get_amounts_for_liquidity_returns (sp a b liquidity : Z) :
  (0 < a)%Z -> (0 < b)%Z ->
  exists r, get_amounts_for_liquidity sp a b liquidity = Ok r.
Proof.
  intros Ha Hb. unfold get_amounts_for_liquidity.
  destruct (sort2_spec a b) as (lo & hi & -> & Hle & Hcases).
  destruct (sp <=? lo)%Z eqn:E1.
  - destruct (get_amount0_for_liquidity_returns lo hi liquidity) as [v ->];
      try lia. eexists; reflexivity.
  - destruct (sp >=? hi)%Z; [eexists; reflexivity|].
    apply Z.leb_gt in E1.
    destruct (get_amount0_for_liquidity_returns sp hi liquidity) as [v ->];
      try lia. eexists; reflexivity.
Qed.

Lemma sqrt_price_positive (x : Q) :
  1 <= x * float Q192 -> (0 < Z.sqrt (Qfloor (x * float Q192)))%Z.
Proof.
  intro H. apply Z.sqrt_pos.
  apply Z.lt_le_trans with (Qfloor 1); [reflexivity|].
  now apply Qfloor_resp_le.
Qed.

(** A position whose bounds are at least [2^-192], so that their fixed-point
    square roots are positive, has a value at every price that is not
    negative. *)
Lemma calculate_position_value_returns
  (price lower upper liquidity : Q) (fee_tier_bps : Z) :
  0 <= price -> 1 <= lower * float Q192 -> 1 <= upper * float Q192 ->
  exists r, calculate_position_value price lower upper liquidity fee_tier_bps
            = Ok r.
Proof.
  intros Hp Hl Hu.
  assert (Hl0 : 0 <= lower).
  { destruct (Qlt_le_dec lower 0) as [Hneg|]; [|assumption]. exfalso.
    assert (lower * float Q192 < 0).
    { setoid_replace 0 with (0 * float Q192) by ring.
      apply Qmult_lt_compat_r; [apply float_Q192_pos|assumption]. }
    lra. }
  assert (Hu0 : 0 <= upper).
  { destruct (Qlt_le_dec upper 0) as [Hneg|]; [|assumption]. exfalso.
    assert (upper * float Q192 < 0).
    { setoid_replace 0 with (0 * float Q192) by ring.
      apply Qmult_lt_compat_r; [apply float_Q192_pos|assumption]. }
    lra. }
  unfold calculate_position_value.
  rewrite !price_to_sqrt_price_x96_ok by assumption. cbn [rbind].
  destruct (get_amounts_for_liquidity_returns
              (Z.sqrt (Qfloor (price * float Q192)))
              (Z.sqrt (Qfloor (lower * float Q192)))
              (Z.sqrt (Qfloor (upper * float Q192)))
              (int liquidity)) as [[a0 a1] ->];
    try now apply sqrt_price_positive.
  eexists; reflexivity.
Qed.

End UV3Totality.

Section UV3Rounding.

Import uv3_math.

(** [int] of a float that is not negative is its floor. *)
Lemma int_floor_bounds (x : Q) :
  0 <= x -> float (int x) <= x /\ x < float (int x) + 1.
Proof.
  intro Hx.
  assert (E : int x = Qfloor x).
  { destruct x as [n d]. unfold int, Qfloor. cbn [Qnum Qden].
    apply Z.quot_div_nonneg; [|lia]. unfold Qle in Hx. cbn in Hx. lia. }
  rewrite E. unfold float. split; [apply Qfloor_le|].
  pose proof (Qlt_floor x) as H. rewrite inject_Z_plus in H. exact H.
Qed.

(** The round trip of C7 when the square root and the squaring are only
    accurate to a relative error [u] of at most [1e-8] (binary64 rounds to
    about [1.1e-16]): [sq] stands for the float [np.sqrt(p)] and [r] for
    the float [(s / Q96) ** 2]. *)
Lemma sqrt_price_round_trip_under_rounding (u p sq r : Q) :
  0 <= u -> u <= 1 # 100000000 ->
  1 # 1000000 <= p -> p <= 1000000000 ->
  0 <= sq -> (1 - u) ^ 2 * p <= sq ^ 2 -> sq ^ 2 <= (1 + u) ^ 2 * p ->
  let s := int (sq * float Q96) in
  Qabs (r - sqrt_price_x96_to_price s) <= 3 * u * sqrt_price_x96_to_price s ->
  Qabs (r - p) / p < 1 # 1000000.
Proof.
  intros Hu0 Hu1 Hp0 Hp1 Hsq0 Hsqlo Hsqhi s Hr.
  assert (Hp : 0 < p) by lra.
  set (D := float Q96) in *.
  assert (HD : 10000000000000 <= D) by (vm_compute; discriminate).
  set (y := sq * D) in *.
  assert (Hy0 : 0 <= y) by (unfold y; nra).
  destruct (int_floor_bounds y Hy0) as [Hs1 Hs2]. fold s in Hs1, Hs2.
  set (S := float s) in *.
  (* y is large *)
  assert (Hy2 : 4000000000000000000 <= y * y).
  { unfold y.
    assert (H1 : (9 # 10) * p <= sq ^ 2).
    { eapply Qle_trans; [|exact Hsqlo]. nra. }
    assert (H2 : sq * D * (sq * D) == sq ^ 2 * (D * D)) by (simpl; ring).
    rewrite H2.
    assert (H3 : 100000000000000000000000000 <= D * D) by nra.
    assert (H4 : 0 <= sq ^ 2) by (simpl; nra).
    nra. }
  assert (Hy : 2000000000 <= y) by nra.
  (* the truncated root, squared, against y squared *)
  assert (HS0 : 0 <= S) by lra.
  assert (HSup : S * S <= y * y) by nra.
  assert (HSlo : (1 - (1 # 1000000000)) * (y * y) <= S * S) by nra.
  (* back in price units *)
  set (X := sqrt_price_x96_to_price s) in *.
  assert (HX : X * (D * D) == S * S).
  { unfold X, sqrt_price_x96_to_price. fold D. fold S. simpl. field. lra. }
  assert (Hyy : y * y == sq ^ 2 * (D * D)) by (unfold y; simpl; ring).
  assert (HDD : 0 < D * D) by nra.
  assert (HXup : X <= sq ^ 2).
  { apply Qmult_le_r with (D * D); [exact HDD|]. rewrite HX, <- Hyy. exact HSup. }
  assert (HXlo : (1 - (1 # 1000000000)) * sq ^ 2 <= X).
  { apply Qmult_le_r with (D * D); [exact HDD|]. rewrite HX.
    rewrite <- Qmult_assoc, <- Hyy. exact HSlo. }
  assert (HX0 : 0 <= X).
  { eapply Qle_trans; [|exact HXlo]. simpl. nra. }
  (* r against p *)
  apply Qabs_Qle_condition in Hr as [Hr1 Hr2].
  assert (Hup : r - p <= (7 # 100000000) * p).
  { assert (X <= (1 + u) ^ 2 * p) by lra.
    assert ((1 + u) ^ 2 * p <= (1 + 3 * u) * p) by (simpl; nra).
    assert (r <= (1 + 3 * u) * X) by lra.
    nra. }
  assert (Hlo : - ((7 # 100000000) * p) <= r - p).
  { assert ((1 - (1 # 1000000000)) * ((1 - u) ^ 2 * p) <= X) by nra.
    assert ((1 - 2 * u) * p <= (1 - u) ^ 2 * p) by (simpl; nra).
    assert ((1 - 3 * u) * X <= r) by lra.
    nra. }
  apply Qlt_shift_div_r; [exact Hp|].
  apply Qle_lt_trans with ((7 # 100000000) * p); [|lra].
  apply Qabs_Qle_condition. split; assumption.
Qed.

End UV3Rounding.

(** ** portfolio: rebalancing and valuation *)

Section PortfolioFacts.

Import portfolio.
Import Portfolio.

(** Sums of floats. *)
Lemma fold_plus_shift (xs : list Q) (a : Q) :
  fold_left Qplus xs a == a + sum xs.
Proof.
  unfold sum. revert a. induction xs as [|x xs IH]; intro a; cbn [fold_left].
  - ring.
  - rewrite IH. rewrite (IH (0 + x)). ring.
Qed.

Lemma sum_nil : sum [] == 0.
Proof. reflexivity. Qed.

Lemma sum_cons (x : Q) (xs : list Q) : sum (x :: xs) == x + sum xs.
Proof.
  unfold sum at 1. cbn [fold_left]. rewrite fold_plus_shift. ring.
Qed.

Lemma fold_cost_shift (r : Q) (xs : list Q) (a : Q) :
  fold_left (fun t v => t + v * r) xs a == a + sum xs * r.
Proof.
  revert a. induction xs as [|x xs IH]; intro a; cbn [fold_left].
  - rewrite sum_nil. ring.
  - rewrite IH, sum_cons. ring.
Qed.

(** [get_total_value] adds the current values to the cash. *)
Lemma total_value_loop_values (price : Q) (ps : list Position.t) (total : Q) :
  total_value_loop total ps price =
  rbind (rmap (fun position =>
                 (v <~ Position.get_value position price ;;
                  let '(_, _, value) := v in
                  Ok (value + Position.fees_earned position))%py) ps)
        (fun vs => Ok (fold_left Qplus vs total)).
Proof.
  revert total. induction ps as [|p ps IH]; intro total; simpl.
  - reflexivity.
  - destruct (Position.get_value p price) as [[[a0 a1] v]|e]; simpl;
      [|reflexivity].
    rewrite IH.
    destruct (rmap _ ps); reflexivity.
Qed.

Lemma get_total_value_values (self : t) (price : Q) :
  get_total_value self price =
  rbind (current_values self price)
        (fun vs => Ok (fold_left Qplus vs (cash self))).
Proof. apply total_value_loop_values. Qed.

Lemma current_values_cons (price : Q) (p : Position.t)
  (ps : list Position.t) :
  rmap (fun position =>
          (v <~ Position.get_value position price ;;
           let '(_, _, value) := v in
           Ok (value + Position.fees_earned position))%py) (p :: ps)
  = (v <~ Position.get_value p price ;;
     vs <~ rmap (fun position =>
                   (v <~ Position.get_value position price ;;
                    let '(_, _, value) := v in
                    Ok (value + Position.fees_earned position))%py) ps ;;
     Ok (snd v + Position.fees_earned p :: vs))%py.
Proof.
  cbn [rmap]. destruct (Position.get_value p price) as [[[a0 a1] v]|e];
    reflexivity.
Qed.

Lemma liquidate_ok (price : Q) (p : Position.t) (a0 a1 v : Q) (s : t) :
  Position.get_value p price = Ok (a0, a1, v) ->
  liquidate price p s
  = (Ok tt, set_cash (cash s + (v + Position.fees_earned p)) s).
Proof.
  intro H. unfold liquidate, bind, lift, modify. rewrite H. reflexivity.
Qed.

(** The liquidation loop credits every current value to the cash and
    touches nothing else. *)
Lemma liquidation_loop (price : Q) (ps : list Position.t) (vs : list Q) (s : t) :
  rmap (fun position =>
          (v <~ Position.get_value position price ;;
           let '(_, _, value) := v in
           Ok (value + Position.fees_earned position))%py) ps = Ok vs ->
  for_each ps (liquidate price) s
  = (Ok tt, set_cash (fold_left Qplus vs (cash s)) s).
Proof.
  revert vs s. induction ps as [|p ps IH]; intros vs s H.
  - cbn in H. injection H as <-. destruct s; reflexivity.
  - rewrite current_values_cons in H.
    destruct (Position.get_value p price) as [[[a0 a1] v]|e] eqn:Ev;
      cbn [rbind] in H; [|discriminate].
    destruct (rmap _ ps) as [vs'|e] eqn:E; cbn [rbind] in H; [|discriminate].
    injection H as <-.
    cbn [for_each]. unfold bind at 1.
    rewrite (liquidate_ok _ _ _ _ _ _ Ev).
    rewrite (IH vs' _ eq_refl). reflexivity.
Qed.

Lemma open_position_ok (price : Q) (now : data.timestamp) (acc lo hi liq : Q)
  (a0 a1 v : Q) (s : t) :
  uv3_math.calculate_position_value price lo hi liq 500 = Ok (a0, a1, v) ->
  open_position price now acc (lo, hi, liq) s
  = (Ok (acc + v * (float (fee_bps s) / 10000)),
     set_positions (positions s ++ [Position.new lo hi liq now]) s).
Proof.
  intro H. unfold open_position, bind, lift, modify, get, ret.
  unfold Position.get_value, Position.new. cbn. rewrite H. reflexivity.
Qed.

(** The opening loop appends one fresh position per pair and accumulates
    the trading fee on each value. *)
Lemma opening_loop (price : Q) (now : data.timestamp)
  (rls : list ((Q * Q) * Q)) (nvs : list Q) (acc : Q) (s : t) :
  rmap (fun rl : (Q * Q) * Q =>
          let '((lower, upper), liq) := rl in
          (v <~ uv3_math.calculate_position_value price lower upper liq 500 ;;
           let '(_, _, value) := v in
           Ok value)%py) rls = Ok nvs ->
  for_fold rls acc (open_position price now) s
  = (Ok (fold_left (fun t v => t + v * (float (fee_bps s) / 10000)) nvs acc),
     set_positions
       (positions s ++
          map (fun rl : (Q * Q) * Q =>
                 Position.new (fst (fst rl)) (snd (fst rl)) (snd rl) now) rls)
       s).
Proof.
  revert nvs acc s. induction rls as [|[[lo hi] liq] rls IH];
    intros nvs acc s H; cbn [rmap for_fold map] in *.
  - injection H as <-. rewrite app_nil_r. destruct s; reflexivity.
  - destruct (uv3_math.calculate_position_value price lo hi liq 500)
      as [[[a0 a1] v]|e] eqn:Ev; cbn [rbind] in H; [|discriminate].
    destruct (rmap _ rls) as [nvs'|e] eqn:E; cbn [rbind] in H; [|discriminate].
    injection H as <-.
    unfold bind at 1. rewrite (open_position_ok _ _ _ _ _ _ _ _ _ _ Ev).
    rewrite (IH nvs' _ _ eq_refl). cbn [fold_left fst snd].
    unfold set_positions; cbn. rewrite <- app_assoc. reflexivity.
Qed.

(** A rebalance that raises leaves the portfolio as it was. *)
Lemma rebalance_positions_raise
  (ranges : list (Q * Q)) (liqs : list Q) (price : Q) (now : data.timestamp)
  (pf : t) (e : exn) :
  List.length ranges <> List.length liqs \/
  current_values pf price = Raise e \/
  (exists ovs, current_values pf price = Ok ovs /\
               new_values ranges liqs price = Raise e) ->
  exists e', rebalance_positions ranges liqs price now pf = (Raise e', pf).
Proof.
  intros [H|[H|(ovs & H1 & H2)]]; unfold rebalance_positions.
  - apply Nat.eqb_neq in H. rewrite H. eexists; reflexivity.
  - destruct (Nat.eqb _ _); cbn [negb]; [|eexists; reflexivity].
    unfold bind, get, lift. rewrite H. eexists; reflexivity.
  - destruct (Nat.eqb _ _); cbn [negb]; [|eexists; reflexivity].
    unfold bind at 1. unfold get at 1. unfold bind at 1. unfold lift at 1.
    rewrite H1. unfold bind at 1. unfold lift at 1. rewrite H2.
    eexists; reflexivity.
Qed.

(** A rebalance whose valuations succeed: the returned cost and the
    portfolio it leaves. *)
Lemma rebalance_positions_ok
  (ranges : list (Q * Q)) (liqs : list Q) (price : Q) (now : data.timestamp)
  (pf : t) (ovs nvs : list Q) :
  List.length ranges = List.length liqs ->
  current_values pf price = Ok ovs ->
  new_values ranges liqs price = Ok nvs ->
  let fees :=
    fold_left (fun t v => t + v * (float (fee_bps pf) / 10000)) nvs 0 in
  let charged := Qltb 0 (gas_cost pf) in
  let cost := if charged then fees + gas_cost pf else fees in
  let opened :=
    map (fun rl : (Q * Q) * Q =>
           Position.new (fst (fst rl)) (snd (fst rl)) (snd rl) now)
        (zip ranges liqs) in
  rebalance_positions ranges liqs price now pf
  = (Ok cost,
     mk (initial_cash pf)
        (fold_left Qplus ovs (cash pf) - fees)
        (fee_bps pf) (slippage_bps pf) (gas_cost pf)
        opened
        (transaction_history pf ++
           [mkTransaction now "rebalance" cost (List.length opened)])
        (equity_curve pf)
        (total_fees_paid pf + cost)
        (if charged then total_gas_paid pf + gas_cost pf else total_gas_paid pf)
        (total_slippage pf)
        (rebalance_count pf + 1)%Z).
Proof.
  intros Hlen Hcur Hnew fees charged cost opened.
  unfold rebalance_positions.
  apply Nat.eqb_eq in Hlen. rewrite Hlen. cbn [negb].
  unfold bind at 1. unfold get at 1.
  unfold bind at 1. unfold lift at 1. rewrite Hcur.
  unfold bind at 1. unfold lift at 1. rewrite Hnew.
  unfold bind at 1. rewrite (liquidation_loop price _ ovs pf Hcur).
  unfold bind at 1. unfold modify at 1.
  unfold bind at 1.
  rewrite (opening_loop price now _ nvs 0 _ Hnew).
  cbn [set_positions set_cash positions fee_bps cash app].
  fold fees. fold opened.
  unfold bind at 1. unfold modify at 1.
  unfold bind at 1. unfold get at 1.
  subst cost charged.
  unfold bind, modify, ret, get.
  cbn [set_cash set_positions set_total_gas_paid gas_cost].
  destruct (Qltb 0 (gas_cost pf)); reflexivity.
Qed.

End PortfolioFacts.

Section PortfolioClaims.

Import portfolio.
Import Portfolio.

(** The positions a rebalance opens carry no fees yet, so their current
    values are the values computed for the new ranges. *)
Lemma current_values_opened (price : Q) (now : data.timestamp)
  (rls : list ((Q * Q) * Q)) (nvs : list Q) :
  rmap (fun rl : (Q * Q) * Q =>
          let '((lower, upper), liq) := rl in
          (v <~ uv3_math.calculate_position_value price lower upper liq 500 ;;
           let '(_, _, value) := v in
           Ok value)%py) rls = Ok nvs ->
  rmap (fun position =>
          (v <~ Position.get_value position price ;;
           let '(_, _, value) := v in
           Ok (value + Position.fees_earned position))%py)
       (map (fun rl : (Q * Q) * Q =>
               Position.new (fst (fst rl)) (snd (fst rl)) (snd rl) now) rls)
  = Ok (map (fun v => v + 0) nvs).
Proof.
  revert nvs. induction rls as [|[[lo hi] liq] rls IH]; intros nvs H;
    cbn [rmap map] in *.
  - injection H as <-. reflexivity.
  - unfold Position.get_value at 1. cbn [Position.new Position.lower_price
      Position.upper_price Position.liquidity Position.fee_tier_bps
      Position.fees_earned fst snd].
    destruct (uv3_math.calculate_position_value price lo hi liq 500)
      as [[[a0 a1] v]|e]; cbn [rbind] in *; [|discriminate].
    destruct (rmap _ rls) as [nvs'|e] eqn:E; cbn [rbind] in H; [|discriminate].
    injection H as <-. rewrite (IH nvs' eq_refl). reflexivity.
Qed.

Lemma sum_map_plus_0 (xs : list Q) : sum (map (fun v => v + 0) xs) == sum xs.
Proof.
  induction xs as [|x xs IH]; cbn [map].
  - reflexivity.
  - rewrite !sum_cons, IH. ring.
Qed.

(** C1, as the code has it. When no gas is charged, a rebalance either
    raises and leaves the portfolio untouched, or returns a cost and leaves
    the total value equal to the value before, plus the value of the
    positions it opened, minus that cost. *)
Theorem C1_value_after_rebalance
  (pf : t) (ranges : list (Q * Q)) (liqs : list Q) (price : Q)
  (now : data.timestamp) :
  gas_cost pf <= 0 ->
  match rebalance_positions ranges liqs price now pf with
  | (Raise _, pf') => pf' = pf
  | (Ok cost, pf') =>
      exists before after opened,
        get_total_value pf price = Ok before /\
        get_total_value pf' price = Ok after /\
        new_values ranges liqs price = Ok opened /\
        after == before + sum opened - cost
  end.
Proof.
  intro Hgas.
  destruct (Nat.eq_dec (List.length ranges) (List.length liqs)) as [Hlen|Hlen].
  2:{ destruct (rebalance_positions_raise ranges liqs price now pf ValueError
                  (or_introl Hlen)) as [e ->]. reflexivity. }
  destruct (current_values pf price) as [ovs|e] eqn:Hcur.
  2:{ destruct (rebalance_positions_raise ranges liqs price now pf e
                  (or_intror (or_introl Hcur))) as [e' ->]. reflexivity. }
  destruct (new_values ranges liqs price) as [nvs|e] eqn:Hnew.
  2:{ destruct (rebalance_positions_raise ranges liqs price now pf e
                  (or_intror (or_intror (ex_intro _ ovs (conj Hcur Hnew)))))
        as [e' ->]. reflexivity. }
  rewrite (rebalance_positions_ok _ _ _ now _ _ _ Hlen Hcur Hnew).
  apply Qltb_false in Hgas. rewrite Hgas.
  exists (fold_left Qplus ovs (cash pf)).
  eexists. exists nvs.
  split; [|split; [|split; [reflexivity|]]].
  - rewrite get_total_value_values, Hcur. reflexivity.
  - rewrite get_total_value_values. unfold current_values.
    cbn [positions cash].
    unfold new_values in Hnew.
    rewrite (current_values_opened price now _ nvs Hnew). reflexivity.
  - rewrite !fold_plus_shift, sum_map_plus_0. ring.
Qed.

(** C1 at a gas-free portfolio of 10,000 cash opening one position. *)
Lemma C1_value_after_rebalance_witness :
  match rebalance_positions [(1600, 2500)] [float (100 * uv3_math.Q96)] 2500 0%Z
          (Portfolio.new 10000 5 1 0) with
  | (Raise _, pf') => pf' = Portfolio.new 10000 5 1 0
  | (Ok cost, pf') =>
      exists before after opened,
        get_total_value (Portfolio.new 10000 5 1 0) 2500 = Ok before /\
        get_total_value pf' 2500 = Ok after /\
        new_values [(1600, 2500)] [float (100 * uv3_math.Q96)] 2500 = Ok opened /\
        after == before + sum opened - cost
  end.
Proof.
  apply (C1_value_after_rebalance (Portfolio.new 10000 5 1 0)).
  vm_compute. discriminate.
Defined.

(** C1 as stated fails: a portfolio of 10,000 cash that opens one position
    worth 1,000 at 5 bps is charged 0.5 and is valued at 10,999.5
    afterwards, 999.5 above its value before. *)
Lemma C1_counterexample :
  exists cost pf' before after,
    rebalance_positions [(1600, 2500)] [float (100 * uv3_math.Q96)] 2500 0%Z
      (Portfolio.new 10000 5 1 0) = (Ok cost, pf') /\
    get_total_value (Portfolio.new 10000 5 1 0) 2500 = Ok before /\
    get_total_value pf' 2500 = Ok after /\
    before == 10000 /\ cost == 1 # 2 /\ after == 21999 # 2 /\
    ~ Qabs (after - before) <= cost.
Proof.
  do 4 eexists.
  split; [vm_compute; reflexivity|].
  split; [vm_compute; reflexivity|].
  split; [vm_compute; reflexivity|].
  repeat split; try (vm_compute; reflexivity).
  intro H. vm_compute in H. apply H. reflexivity.
Qed.

(** C2 at a portfolio with a gas cost of 2: the call returns 0.5 + 2 as its
    cost, appends one record and counts one rebalance, and takes only the
    0.5 of trading fees out of the cash. *)
Theorem C2_gas_not_debited :
  exists cost pf',
    rebalance_positions [(1600, 2500)] [float (100 * uv3_math.Q96)] 2500 0%Z
      (Portfolio.new 10000 5 1 2) = (Ok cost, pf') /\
    cost == 5 # 2 /\
    cash pf' == 10000 - (1 # 2) /\
    ~ cash pf' == 10000 - cost /\
    List.length (transaction_history pf') = 1%nat /\
    rebalance_count pf' = 1%Z.
Proof.
  do 2 eexists.
  split; [vm_compute; reflexivity|].
  repeat split; try (vm_compute; reflexivity).
  intro H. vm_compute in H. discriminate H.
Qed.

(** What a successful rebalance does, whatever the gas cost: the returned
    cost is the fees plus the gas when that is positive, the cash pays the
    fees, one record is appended and one rebalance counted. *)
Lemma rebalance_positions_accounting
  (pf : t) (ranges : list (Q * Q)) (liqs : list Q) (price : Q)
  (now : data.timestamp) (cost : Q) (pf' : t) :
  rebalance_positions ranges liqs price now pf = (Ok cost, pf') ->
  exists ovs nvs,
    current_values pf price = Ok ovs /\
    new_values ranges liqs price = Ok nvs /\
    let fees := sum nvs * (float (fee_bps pf) / 10000) in
    cost == (if Qltb 0 (gas_cost pf) then fees + gas_cost pf else fees) /\
    cash pf' == cash pf + sum ovs - fees /\
    (exists record, transaction_history pf' = transaction_history pf ++ [record]
                    /\ tx_cost record = cost) /\
    rebalance_count pf' = (rebalance_count pf + 1)%Z.
Proof.
  intro H.
  destruct (Nat.eq_dec (List.length ranges) (List.length liqs)) as [Hlen|Hlen].
  2:{ destruct (rebalance_positions_raise ranges liqs price now pf ValueError
                  (or_introl Hlen)) as [e He]. congruence. }
  destruct (current_values pf price) as [ovs|e] eqn:Hcur.
  2:{ destruct (rebalance_positions_raise ranges liqs price now pf e
                  (or_intror (or_introl Hcur))) as [e' He]. congruence. }
  destruct (new_values ranges liqs price) as [nvs|e] eqn:Hnew.
  2:{ destruct (rebalance_positions_raise ranges liqs price now pf e
                  (or_intror (or_intror (ex_intro _ ovs (conj Hcur Hnew)))))
        as [e' He]. congruence. }
  rewrite (rebalance_positions_ok _ _ _ now _ _ _ Hlen Hcur Hnew) in H.
  injection H as Hc Hp. subst pf'. exists ovs, nvs.
  split; [reflexivity|]. split; [reflexivity|].
  cbn [cash transaction_history rebalance_count].
  assert (Hfees : fold_left (fun t v => t + v * (float (fee_bps pf) / 10000)) nvs 0
                  == sum nvs * (float (fee_bps pf) / 10000)).
  { rewrite fold_cost_shift. ring. }
  split; [|split; [|split]].
  - rewrite <- Hc. destruct (Qltb 0 (gas_cost pf)); rewrite Hfees; reflexivity.
  - rewrite fold_plus_shift, Hfees. reflexivity.
  - eexists; split; [reflexivity|]. cbn. exact Hc.
  - reflexivity.
Qed.

(** C9. With lists of different lengths [rebalance_positions] raises
    [ValueError] and the portfolio (cash, positions, transaction history,
    rebalance count and every other attribute) is exactly as before. *)
Theorem C9_length_mismatch_raises
  (pf : t) (ranges : list (Q * Q)) (liqs : list Q) (price : Q)
  (now : data.timestamp) :
  List.length ranges <> List.length liqs ->
  rebalance_positions ranges liqs price now pf = (Raise ValueError, pf).
Proof.
  intro H. unfold rebalance_positions.
  apply Nat.eqb_neq in H. rewrite H. reflexivity.
Qed.

Lemma C9_length_mismatch_raises_witness :
  rebalance_positions [(1600, 2500); (1900, 2100)] [1000] 2000 0%Z
    (Portfolio.new 10000 5 1 0)
  = (Raise ValueError, Portfolio.new 10000 5 1 0).
Proof.
  apply C9_length_mismatch_raises. cbn. discriminate.
Defined.

End PortfolioClaims.

Section BaselineClaims.

Import portfolio.
Import BaselinePortfolio.

(** C10 at a freshly constructed HODL baseline, which still holds its
    10,000 of cash: [rebalance_to_50_50] at price 2000 splits the whole
    value into the two assets and keeps the cash, so the value doubles. *)
Theorem C10_fresh_baseline_doubles :
  exists self',
    rebalance_to_50_50 2000 (BaselinePortfolio.new 10000 "hodl_50_50")
    = (Ok tt, self') /\
    get_value (BaselinePortfolio.new 10000 "hodl_50_50") 2000 == 10000 /\
    get_value self' 2000 == 20000 /\
    amount0 self' * 2000 == amount1 self'.
Proof.
  eexists. split; [vm_compute; reflexivity|].
  repeat split; vm_compute; reflexivity.
Qed.

(** Once the cash has been converted ([initialize_position] leaves it at
    zero) the rebalance preserves the value and splits it evenly. *)
Lemma rebalance_to_50_50_without_cash (self : t) (p : Q) :
  0 < p -> strategy self = "hodl_50_50"%string -> cash self == 0 ->
  exists self',
    rebalance_to_50_50 p self = (Ok tt, self') /\
    get_value self' p == get_value self p /\
    amount0 self' * p == amount1 self' /\
    cash self' = cash self.
Proof.
  intros Hp Hs Hc. unfold rebalance_to_50_50, bind, get, lift, put.
  rewrite Hs. cbn [String.eqb Ascii.eqb Bool.eqb negb].
  rewrite truediv_ok by lra.
  eexists. split; [reflexivity|].
  unfold get_value. cbn [amount0 amount1 cash].
  repeat split.
  - rewrite Hc. field. lra.
  - field. lra.
Qed.

(** A single-asset baseline is never rebalanced. *)
Lemma rebalance_to_50_50_single_asset (self : t) (p : Q) :
  strategy self = "single_asset"%string ->
  rebalance_to_50_50 p self = (Ok tt, self).
Proof.
  intro Hs. unfold rebalance_to_50_50, bind, get. rewrite Hs. reflexivity.
Qed.

End BaselineClaims.

Section PortfolioTotality.

Import portfolio.
Import Portfolio.

Lemma rmap_returns {X Y} (f : X -> result Y) (xs : list X) :
  (forall x, In x xs -> exists y, f x = Ok y) ->
  exists ys, rmap f xs = Ok ys.
Proof.
  induction xs as [|x xs IH]; intro H; cbn [rmap].
  - eexists; reflexivity.
  - destruct (H x (or_introl eq_refl)) as [y ->].
    destruct IH as [ys ->]; [intros; apply H; now right|].
    eexists; reflexivity.
Qed.

(** A rebalance returns a cost whenever the two lists have the same length,
    the price is not negative and every bound, of the positions held and of
    the ranges requested, is at least [2^-192]. *)
Lemma rebalance_positions_returns
  (pf : t) (ranges : list (Q * Q)) (liqs : list Q) (price : Q)
  (now : data.timestamp) :
  List.length ranges = List.length liqs ->
  0 <= price ->
  (forall p, In p (positions pf) ->
             1 <= Position.lower_price p * float uv3_math.Q192 /\
             1 <= Position.upper_price p * float uv3_math.Q192) ->
  (forall r, In r ranges ->
             1 <= fst r * float uv3_math.Q192 /\
             1 <= snd r * float uv3_math.Q192) ->
  exists cost pf', rebalance_positions ranges liqs price now pf = (Ok cost, pf').
Proof.
  intros Hlen Hp Hold Hnew.
  destruct (rmap_returns
              (fun position =>
                 (v <~ Position.get_value position price ;;
                  let '(_, _, value) := v in
                  Ok (value + Position.fees_earned position))%py)
              (positions pf)) as [ovs Hcur].
  { intros p Hin. destruct (Hold p Hin) as [Hl Hu]. unfold Position.get_value.
    destruct (calculate_position_value_returns
                price (Position.lower_price p) (Position.upper_price p)
                (Position.liquidity p) (Position.fee_tier_bps p) Hp Hl Hu)
      as [[[a0 a1] v] ->].
    eexists; reflexivity. }
  destruct (rmap_returns
              (fun rl : (Q * Q) * Q =>
                 let '((lower, upper), liq) := rl in
                 (v <~ uv3_math.calculate_position_value
                         price lower upper liq 500 ;;
                  let '(_, _, value) := v in
                  Ok value)%py)
              (zip ranges liqs)) as [nvs Hnv].
  { intros [[lo hi] liq] Hin. apply in_combine_l in Hin.
    destruct (Hnew _ Hin) as [Hl Hu]. cbn [fst snd] in Hl, Hu.
    destruct (calculate_position_value_returns
                price lo hi liq 500 Hp Hl Hu) as [[[a0 a1] v] ->].
    eexists; reflexivity. }
  rewrite (rebalance_positions_ok _ _ _ now _ _ _ Hlen Hcur Hnv).
  do 2 eexists; reflexivity.
Qed.

End PortfolioTotality.

(** ** curves: the price grid and the bins *)

Section CurveFacts.

Import curves.

Lemma rmap_seq_ok {Y} (f : nat -> result Y) (g : nat -> Y) (start n : nat) :
  (forall i, (start <= i < start + n)%nat -> f i = Ok (g i)) ->
  rmap f (seq start n) = Ok (map g (seq start n)).
Proof.
  revert start. induction n as [|n IH]; intros start H; cbn [seq rmap map].
  - reflexivity.
  - rewrite H by lia. cbn [rbind]. rewrite IH; [reflexivity|].
    intros i Hi. apply H. lia.
Qed.

Lemma rmap_range_ok {Y} (f : Z -> result Y) (g : Z -> Y) (n : Z) :
  (forall i, (0 <= i < n)%Z -> f i = Ok (g i)) ->
  rmap f (range n) = Ok (map g (range n)).
Proof.
  intro H. unfold range.
  assert (G : forall start k,
             (forall i, (start <= i < start + k)%nat ->
                        f (Z.of_nat i) = Ok (g (Z.of_nat i))) ->
             rmap f (map Z.of_nat (seq start k))
             = Ok (map g (map Z.of_nat (seq start k)))).
  { intros start k. revert start.
    induction k as [|k IH]; intros start Hk; cbn [seq rmap map].
    - reflexivity.
    - rewrite Hk by lia. cbn [rbind]. rewrite IH; [reflexivity|].
      intros i Hi. apply Hk. lia. }
  apply G. intros i Hi. apply H. lia.
Qed.

Lemma range_length (n : Z) : List.length (range n) = Z.to_nat n.
Proof. unfold range. now rewrite length_map, length_seq. Qed.

Lemma range_nth_error (n : Z) (i : nat) :
  (i < Z.to_nat n)%nat -> nth_error (range n) i = Some (Z.of_nat i).
Proof.
  intro H. unfold range.
  rewrite nth_error_map, nth_error_seq.
  destruct (Nat.ltb_spec i (Z.to_nat n)); [reflexivity|lia].
Qed.

Lemma setitem_length {X} (xs : list X) (i : nat) (x : X) :
  List.length (setitem xs i x) = List.length xs.
Proof.
  revert i. induction xs as [|y xs IH]; intros [|i]; cbn; auto.
Qed.

Lemma setitem_nth_error_same {X} (xs : list X) (i : nat) (x : X) :
  (i < List.length xs)%nat -> nth_error (setitem xs i x) i = Some x.
Proof.
  revert i. induction xs as [|y xs IH]; intros [|i] H; cbn in *;
    try lia; auto. apply IH. lia.
Qed.

Lemma setitem_nth_error_other {X} (xs : list X) (i j : nat) (x : X) :
  i <> j -> nth_error (setitem xs i x) j = nth_error xs j.
Proof.
  revert i j. induction xs as [|y xs IH]; intros [|i] [|j] H; cbn;
    try reflexivity; try congruence. apply IH. congruence.
Qed.

(** The grid of [n + 1] prices that [np.linspace] lays over [[a, b]]. *)
Lemma linspace_length (a b : Q) (n : Z) :
  (1 <= n)%Z -> List.length (linspace a b (n + 1)) = S (Z.to_nat n).
Proof.
  intro Hn. unfold linspace.
  assert (E : (1 <? n + 1)%Z = true) by (apply Z.ltb_lt; lia).
  rewrite E, setitem_length, length_map, range_length. lia.
Qed.

Lemma linspace_inner (a b : Q) (n : Z) (i : nat) :
  (1 <= n)%Z -> (i < Z.to_nat n)%nat ->
  nth_error (linspace a b (n + 1)) i
  = Some (float (Z.of_nat i) * ((b - a) / float n) + a).
Proof.
  intros Hn Hi. unfold linspace.
  assert (E : (1 <? n + 1)%Z = true) by (apply Z.ltb_lt; lia).
  rewrite E. replace (n + 1 - 1)%Z with n by lia.
  rewrite setitem_nth_error_other by lia.
  rewrite nth_error_map, range_nth_error by lia. reflexivity.
Qed.

Lemma linspace_last (a b : Q) (n : Z) :
  (1 <= n)%Z -> nth_error (linspace a b (n + 1)) (Z.to_nat n) = Some b.
Proof.
  intro Hn. unfold linspace.
  assert (E : (1 <? n + 1)%Z = true) by (apply Z.ltb_lt; lia).
  rewrite E. replace (n + 1 - 1)%Z with n by lia.
  apply setitem_nth_error_same.
  rewrite length_map, range_length. lia.
Qed.

(** Every grid point, the last one included, sits at
    [a + i * (b - a) / n]. *)
Lemma linspace_point (a b : Q) (n : Z) (i : nat) :
  (1 <= n)%Z -> (i <= Z.to_nat n)%nat ->
  exists p, nth_error (linspace a b (n + 1)) i = Some p /\
            p == a + float (Z.of_nat i) * ((b - a) / float n).
Proof.
  intros Hn Hi.
  destruct (Nat.eq_dec i (Z.to_nat n)) as [->|Hne].
  - exists b. split; [now apply linspace_last|].
    rewrite Z2Nat.id by lia.
    assert (0 < float n) by (apply float_pos; lia).
    field. lra.
  - eexists. split; [apply linspace_inner; lia|]. ring.
Qed.

Lemma getitem_ok {X} (xs : list X) (i : nat) (x : X) :
  nth_error xs i = Some x -> getitem xs i = Ok x.
Proof. intro H. unfold getitem. now rewrite H. Qed.

(** [create_bins] pairs consecutive prices with the liquidity of the same
    index. *)
Lemma create_bins_ok (prices liquidities : list Q) (n : nat) :
  List.length prices = S n -> List.length liquidities = n ->
  create_bins prices liquidities
  = Ok (map (fun i => (nth i prices 0, nth (S i) prices 0, nth i liquidities 0))
            (seq 0 n)).
Proof.
  intros Hp Hl. unfold create_bins. rewrite Hp.
  replace (S n - 1)%nat with n by lia.
  apply rmap_seq_ok. intros i Hi.
  rewrite (getitem_ok prices i (nth i prices 0))
    by (apply nth_error_nth'; lia).
  rewrite (getitem_ok prices (S i) (nth (S i) prices 0))
    by (apply nth_error_nth'; lia).
  rewrite (getitem_ok liquidities i (nth i liquidities 0))
    by (apply nth_error_nth'; lia).
  reflexivity.
Qed.

Lemma grid_bin_nth (prices liquidities : list Q) (n i : nat) :
  (i < n)%nat ->
  nth_error
    (map (fun i => (nth i prices 0, nth (S i) prices 0, nth i liquidities 0))
         (seq 0 n)) i
  = Some (nth i prices 0, nth (S i) prices 0, nth i liquidities 0).
Proof.
  intro H. rewrite nth_error_map, nth_error_seq.
  destruct (Nat.ltb_spec i n); [reflexivity|lia].
Qed.

Lemma linspace_nth_point (a b : Q) (n : Z) (i : nat) :
  (1 <= n)%Z -> (i <= Z.to_nat n)%nat ->
  nth i (linspace a b (n + 1)) 0
  == a + float (Z.of_nat i) * ((b - a) / float n).
Proof.
  intros Hn Hi. destruct (linspace_point a b n i Hn Hi) as (p & Hp & E).
  rewrite (nth_error_nth _ _ 0 Hp). exact E.
Qed.

Lemma linspace_nth_last (a b : Q) (n : Z) :
  (1 <= n)%Z -> nth (Z.to_nat n) (linspace a b (n + 1)) 0 = b.
Proof.
  intro Hn. exact (nth_error_nth _ _ 0 (linspace_last a b n Hn)).
Qed.

Lemma linspace_nth_mono (a b : Q) (n : Z) (i j : nat) :
  (1 <= n)%Z -> a < b -> (i <= j)%nat -> (j <= Z.to_nat n)%nat ->
  nth i (linspace a b (n + 1)) 0 <= nth j (linspace a b (n + 1)) 0.
Proof.
  intros Hn Hab Hij Hj.
  rewrite !linspace_nth_point by lia.
  assert (Hstep : 0 < (b - a) / float n).
  { apply Qlt_shift_div_l; [apply float_pos; lia|]. lra. }
  assert (Hf : float (Z.of_nat i) <= float (Z.of_nat j)).
  { unfold float. rewrite <- Zle_Qle. lia. }
  apply Qplus_le_r. apply Qmult_le_compat_r; [exact Hf|]. lra.
Qed.

Lemma linspace_nth_step (a b : Q) (n : Z) (i : nat) :
  (1 <= n)%Z -> a < b -> (i < Z.to_nat n)%nat ->
  nth i (linspace a b (n + 1)) 0 < nth (S i) (linspace a b (n + 1)) 0.
Proof.
  intros Hn Hab Hi.
  rewrite !linspace_nth_point by lia.
  assert (Hstep : 0 < (b - a) / float n).
  { apply Qlt_shift_div_l; [apply float_pos; lia|]. lra. }
  assert (Hf : float (Z.of_nat (S i)) == float (Z.of_nat i) + 1).
  { unfold float. rewrite Nat2Z.inj_succ. unfold Z.succ.
    rewrite inject_Z_plus. reflexivity. }
  rewrite Hf. lra.
Qed.

(** The bins laid over the grid of [n] steps from [a] to [b] are
    contiguous, do not overlap and cover [[a, b]]. *)
Lemma grid_bins_shape (a b : Q) (n : Z) (liquidities : list Q) :
  (1 <= n)%Z -> a < b ->
  let prices := linspace a b (n + 1) in
  let bins :=
    map (fun i => (nth i prices 0, nth (S i) prices 0, nth i liquidities 0))
        (seq 0 (Z.to_nat n)) in
  Z.of_nat (List.length bins) = n /\
  contiguous bins /\ non_overlapping bins /\ covers bins a b.
Proof.
  intros Hn Hab prices bins.
  assert (Hlen : List.length bins = Z.to_nat n).
  { unfold bins. now rewrite length_map, length_seq. }
  assert (Hnth : forall i bi, nth_error bins i = Some bi ->
                   (i < Z.to_nat n)%nat /\
                   bi = (nth i prices 0, nth (S i) prices 0, nth i liquidities 0)).
  { intros i bi H.
    assert (Hi : (i < Z.to_nat n)%nat).
    { rewrite <- Hlen. apply nth_error_Some. congruence. }
    split; [exact Hi|]. unfold bins in H. rewrite grid_bin_nth in H by exact Hi.
    congruence. }
  split; [rewrite Hlen; lia|]. split; [|split].
  - intros i b1 b2 H1 H2.
    apply Hnth in H1 as [_ ->]. apply Hnth in H2 as [_ ->]. reflexivity.
  - split.
    + intros bi Hin. apply In_nth_error in Hin as [i Hi].
      apply Hnth in Hi as [Hi ->]. unfold bin_lower, bin_upper. cbn [fst snd].
      now apply linspace_nth_step.
    + intros i j bi bj Hij Hi Hj.
      apply Hnth in Hi as [Hi ->]. apply Hnth in Hj as [Hj ->].
      unfold bin_lower, bin_upper. cbn [fst snd].
      apply linspace_nth_mono; try assumption; lia.
  - exists (nth 0 prices 0, nth 1 prices 0, nth 0 liquidities 0).
    exists (nth (Z.to_nat n - 1) prices 0, nth (S (Z.to_nat n - 1)) prices 0,
            nth (Z.to_nat n - 1) liquidities 0).
    split; [unfold bins; apply grid_bin_nth; lia|].
    split.
    { unfold bins. rewrite length_map, length_seq.
      apply grid_bin_nth. lia. }
    unfold bin_lower, bin_upper. cbn [fst snd]. split.
    + unfold prices. rewrite linspace_nth_point by lia.
      change (float (Z.of_nat 0)) with 0.
      assert (0 < float n) by (apply float_pos; lia).
      field. lra.
    + replace (S (Z.to_nat n - 1)) with (Z.to_nat n) by lia.
      unfold prices. rewrite linspace_nth_last by lia. reflexivity.
Qed.

End CurveFacts.

Section CurveClaims.

Import curves.

Lemma nth_error_lt {X} (xs : list X) (i : nat) (x : X) :
  nth_error xs i = Some x -> (i < List.length xs)%nat.
Proof. intro H. apply nth_error_Some. rewrite H. discriminate. Qed.

Lemma bin_count_ge (m : Z) (self : CurveBase) (width : Q) :
  (m <= bin_count_of m self width)%Z.
Proof. unfold bin_count_of. lia. Qed.

Lemma covers_proper (bins : list Bin) (a b a' b' : Q) :
  a == a' -> b == b' -> covers bins a b -> covers bins a' b'.
Proof.
  intros Ha Hb (first & last & H1 & H2 & H3 & H4).
  exists first, last. repeat split; try assumption.
  - now rewrite <- Ha.
  - now rewrite <- Hb.
Qed.

Lemma band_ordered (center width : Q) :
  0 < center -> 0 < width ->
  center - center * width / 100 / 2 < center + center * width / 100 / 2.
Proof.
  intros Hc Hw.
  assert (0 < center * width) by (apply Qmult_lt_0_compat; assumption).
  assert (E : center * width / 100 / 2 == center * width * (1 # 200))
    by (field).
  rewrite E. lra.
Qed.

Lemma share_positive (T frac : Q) (n : Z) :
  0 < T -> 0 < frac -> (1 <= n)%Z -> 0 < T / float n * frac.
Proof.
  intros HT Hf Hn.
  apply Qmult_lt_0_compat; [|assumption].
  apply Qlt_shift_div_l; [apply float_pos; lia|]. lra.
Qed.

(** A weighted variant whose per-bin rule returns a floored liquidity, run
    without mirroring or inversion. *)
Lemma weighted_distribution_shape
  (self : CurveBase) (m : Z) (f : Z -> list Q -> Z -> result Q)
  (center width T frac : Q) :
  mirror self = false -> invert self = false -> (2 <= m)%Z ->
  0 < center -> 0 < width -> 0 < T -> 0 < frac ->
  let n := bin_count_of m self width in
  let prices :=
    linspace (center - center * width / 100 / 2)
             (center + center * width / 100 / 2) (n + 1) in
  (forall i, (0 <= i < n)%Z ->
             exists x, f n prices i = Ok (Qmax x (T / float n * frac))) ->
  exists bins,
    weighted_distribution self m f center width = Ok bins /\
    Z.of_nat (List.length bins) = n /\
    contiguous bins /\ non_overlapping bins /\
    covers bins (center * (1 - width / 200)) (center * (1 + width / 200)) /\
    (forall b, In b bins -> T / float n * frac <= bin_liquidity b).
Proof.
  intros Hmir Hinv Hm Hc Hw HT Hfrac n prices Hf.
  assert (Hn : (2 <= n)%Z) by (pose proof (bin_count_ge m self width); lia).
  set (g := fun i => match f n prices i with Ok v => v | Raise _ => 0 end).
  assert (Hfg : forall i, (0 <= i < n)%Z -> f n prices i = Ok (g i)).
  { intros i Hi. destruct (Hf i Hi) as [x Hx]. unfold g. now rewrite Hx. }
  assert (Hgpos : forall i, (0 <= i < n)%Z -> T / float n * frac <= g i).
  { intros i Hi. destruct (Hf i Hi) as [x Hx]. unfold g. rewrite Hx.
    apply Q.le_max_r. }
  unfold weighted_distribution. fold n. fold prices.
  rewrite (rmap_range_ok _ g n Hfg). cbn [rbind].
  unfold _apply_transforms. rewrite Hmir, Hinv. cbn [rbind fst snd].
  rewrite (create_bins_ok prices (map g (range n)) (Z.to_nat n)).
  2:{ unfold prices. apply linspace_length. lia. }
  2:{ now rewrite length_map, range_length. }
  eexists. split; [reflexivity|].
  pose proof (grid_bins_shape _ _ n (map g (range n)) ltac:(lia)
                (band_ordered center width Hc Hw)) as (H1 & H2 & H3 & H4).
  fold prices in H1, H2, H3, H4.
  split; [exact H1|]. split; [exact H2|]. split; [exact H3|]. split.
  - eapply covers_proper; [| |exact H4]; field.
  - intros b Hin. apply In_nth_error in Hin as [i Hi].
    assert (Hlt : (i < Z.to_nat n)%nat).
    { apply nth_error_lt in Hi. now rewrite length_map, length_seq in Hi. }
    rewrite grid_bin_nth in Hi by exact Hlt. injection Hi as <-.
    unfold bin_liquidity. cbn [snd].
    assert (E : nth_error (map g (range n)) i = Some (g (Z.of_nat i))).
    { rewrite nth_error_map, range_nth_error by exact Hlt. reflexivity. }
    rewrite (nth_error_nth _ _ 0 E). apply Hgpos. lia.
Qed.

(** The uniform variant: the same grid, the budget split evenly. *)
Lemma uniform_distribution_shape (self : CurveBase) (center width T : Q) :
  0 < center -> 0 < width -> 0 < T ->
  let n := bin_count_of 2 self width in
  exists bins,
    UniformCurve._generate_distribution_impl self center width T = Ok bins /\
    Z.of_nat (List.length bins) = n /\
    contiguous bins /\ non_overlapping bins /\
    covers bins (center * (1 - width / 200)) (center * (1 + width / 200)) /\
    (forall b, In b bins -> T / float n * 1 <= bin_liquidity b) /\
    sum (map bin_liquidity bins) == T.
Proof.
  intros Hc Hw HT n.
  assert (Hn : (2 <= n)%Z) by apply bin_count_ge.
  unfold UniformCurve._generate_distribution_impl. fold n.
  set (prices := linspace (center - center * width / 100 / 2)
                          (center + center * width / 100 / 2) (n + 1)).
  assert (Hlen : List.length prices = S (Z.to_nat n))
    by (apply linspace_length; lia).
  rewrite Hlen. replace (S (Z.to_nat n) - 1)%nat with (Z.to_nat n) by lia.
  rewrite (rmap_seq_ok _
             (fun i => (nth i prices 0, nth (S i) prices 0,
                        nth i (repeat (T / float n) (Z.to_nat n)) 0))).
  2:{ intros i Hi.
      rewrite (getitem_ok prices i (nth i prices 0))
        by (apply nth_error_nth'; lia).
      rewrite (getitem_ok prices (S i) (nth (S i) prices 0))
        by (apply nth_error_nth'; lia).
      cbn [rbind]. rewrite nth_repeat_lt by lia. reflexivity. }
  eexists. split; [reflexivity|].
  pose proof (grid_bins_shape _ _ n (repeat (T / float n) (Z.to_nat n))
                ltac:(lia) (band_ordered center width Hc Hw))
    as (H1 & H2 & H3 & H4).
  fold prices in H1, H2, H3, H4.
  assert (Hpos : 0 < T / float n).
  { apply Qlt_shift_div_l; [apply float_pos; lia|]. lra. }
  split; [exact H1|]. split; [exact H2|]. split; [exact H3|]. split; [|split].
  - eapply covers_proper; [| |exact H4]; field.
  - intros b Hin. apply In_nth_error in Hin as [i Hi].
    assert (Hlt : (i < Z.to_nat n)%nat).
    { apply nth_error_lt in Hi. now rewrite length_map, length_seq in Hi. }
    rewrite grid_bin_nth in Hi by exact Hlt. injection Hi as <-.
    unfold bin_liquidity. cbn [snd]. rewrite nth_repeat_lt by lia. lra.
  - rewrite map_map. unfold bin_liquidity. cbn [snd].
    assert (G : forall k start, (start + k <= Z.to_nat n)%nat ->
                  sum (map (fun i => nth i (repeat (T / float n) (Z.to_nat n)) 0)
                           (seq start k))
                  == float (Z.of_nat k) * (T / float n)).
    { induction k as [|k IH]; intros start Hk; cbn [seq map].
      - rewrite sum_nil. change (float (Z.of_nat 0)) with 0. ring.
      - rewrite sum_cons, IH by lia. rewrite nth_repeat_lt by lia.
        unfold float. rewrite Nat2Z.inj_succ. unfold Z.succ.
        rewrite inject_Z_plus. ring. }
    rewrite G by lia. rewrite Z2Nat.id by lia.
    assert (0 < float n) by (apply float_pos; lia).
    field. lra.
Qed.

Ltac shape_done :=
  repeat match goal with
         | |- _ /\ _ => split
         end;
  first [assumption | lia | reflexivity].

Lemma scaled_budget_positive (usd scale : Q) : 0 < Qmax (usd * scale) 100.
Proof.
  apply Qlt_le_trans with 100; [reflexivity|apply Q.le_max_r].
Qed.

Lemma uniform_sum (b0 : CurveBase) (center width usd : Q) (bins : list Bin) :
  0 < center -> 0 < width ->
  generate_distribution (UniformCurve.new b0) center width usd = Ok bins ->
  sum (map bin_liquidity bins) == Qmax (usd * liquidity_scale b0) 100.
Proof.
  intros Hc Hw H.
  destruct (uniform_distribution_shape b0 center width
              (Qmax (usd * liquidity_scale b0) 100) Hc Hw
              (scaled_budget_positive _ _))
    as (bins' & E & _ & _ & _ & _ & _ & Hsum).
  unfold generate_distribution in H.
  cbn [base _generate_distribution_impl UniformCurve.new] in H.
  rewrite E in H. injection H as <-. exact Hsum.
Qed.

(** C3, as the code has it. Every curve variant whose weights are finite
    numbers (a logarithmic base that is positive and not 1, a bid-ask peak
    width that is not 0), run without mirroring or inversion, returns
    [max(min_bins, min(max_bins, int(width_pct / 2)))]
    bins that are contiguous, do not overlap and cover exactly
    [[center * (1 - width/200), center * (1 + width/200)]]; with
    [T = max(total_liquidity_usd * scale, 100)] every bin's liquidity is at
    least the variant's floor fraction of an even share of [T], hence
    positive, and the uniform variant's liquidities sum to [T]. *)
Theorem C3_distribution_shape
  (c : Curve) (m : Z) (frac : Q) (center width usd : Q) :
  variant c m frac -> finite_weights c ->
  mirror (base c) = false -> invert (base c) = false ->
  0 < center -> 0 < width ->
  let n := Z.max m (Z.min (max_bins (base c)) (int (width / 2))) in
  let T := Qmax (usd * liquidity_scale (base c)) 100 in
  exists bins,
    generate_distribution c center width usd = Ok bins /\
    Z.of_nat (List.length bins) = n /\
    contiguous bins /\ non_overlapping bins /\
    covers bins (center * (1 - width / 200)) (center * (1 + width / 200)) /\
    (forall b, In b bins ->
               T / float n * frac <= bin_liquidity b /\ 0 < bin_liquidity b) /\
    (forall b0, c = UniformCurve.new b0 ->
                sum (map bin_liquidity bins) == T).
Proof.
  intros Hv _ Hmir Hinv Hc Hw n T.
  assert (HT : 0 < T) by apply scaled_budget_positive.
  assert (Hn : (1 <= n)%Z /\ 0 < frac).
  { subst n. destruct Hv; split; try reflexivity; lia. }
  destruct Hn as [Hn Hfrac].
  assert (Hshape :
    exists bins,
      generate_distribution c center width usd = Ok bins /\
      Z.of_nat (List.length bins) = n /\
      contiguous bins /\ non_overlapping bins /\
      covers bins (center * (1 - width / 200)) (center * (1 + width / 200)) /\
      (forall b, In b bins -> T / float n * frac <= bin_liquidity b)).
  { subst n T. unfold generate_distribution.
    destruct Hv as [b slope|np_exp b std_dev Hstd|np_exp b k|np_log b log_base
                   |np_exp b sep w|b];
      cbn [base _generate_distribution_impl LinearCurve.new GaussianCurve.new
           SigmoidCurve.new LogarithmicCurve.new BidAskCurve.new
           UniformCurve.new] in *.
    - apply weighted_distribution_shape; try assumption; try reflexivity.
      intros i Hi. eexists. reflexivity.
    - apply weighted_distribution_shape; try assumption; try reflexivity.
      + lia.
      + intros i Hi. cbv zeta. rewrite truediv_ok by exact Hstd.
        eexists. reflexivity.
    - apply weighted_distribution_shape; try assumption; try reflexivity.
      + lia.
      + intros i Hi. eexists. reflexivity.
    - apply weighted_distribution_shape; try assumption; try reflexivity.
      + lia.
      + intros i Hi. eexists. reflexivity.
    - apply weighted_distribution_shape; try assumption; try reflexivity.
      + lia.
      + intros i Hi. cbv zeta.
        pose proof (bin_count_ge 5 b width) as Hge.
        erewrite getitem_ok.
        2:{ apply (nth_error_nth' _ 0). rewrite linspace_length by lia. lia. }
        eexists. reflexivity.
    - destruct (uniform_distribution_shape b center width
                  (Qmax (usd * liquidity_scale b) 100) Hc Hw HT)
        as (bins & H1 & H2 & H3 & H4 & H5 & H6 & _).
      exists bins. shape_done. }
  destruct Hshape as (bins & H1 & H2 & H3 & H4 & H5 & H6).
  exists bins.
  split; [exact H1|]. split; [exact H2|]. split; [exact H3|].
  split; [exact H4|]. split; [exact H5|]. split.
  - intros b Hin. pose proof (H6 b Hin) as Hle. split; [exact Hle|].
    eapply Qlt_le_trans; [|exact Hle].
    now apply share_positive.
  - intros b0 E. subst c. cbn [base UniformCurve.new] in *.
    now apply (uniform_sum b0 center width usd).
Qed.

(** C3 at the default uniform curve around 2000 with a width of 10%. *)
Lemma C3_distribution_shape_witness :
  exists bins,
    generate_distribution (UniformCurve.new default_base) 2000 10 9500
    = Ok bins /\
    Z.of_nat (List.length bins) = 5%Z /\
    contiguous bins /\ non_overlapping bins /\
    covers bins (2000 * (1 - 10 / 200)) (2000 * (1 + 10 / 200)) /\
    (forall b, In b bins ->
               Qmax (9500 * (1 # 1000)) 100 / float 5 * 1 <= bin_liquidity b /\
               0 < bin_liquidity b) /\
    (forall b0, UniformCurve.new default_base = UniformCurve.new b0 ->
                sum (map bin_liquidity bins) == Qmax (9500 * (1 # 1000)) 100).
Proof.
  apply (C3_distribution_shape (UniformCurve.new default_base) 2 1 2000 10 9500).
  - apply variant_uniform.
  - apply finite_uniform.
  - reflexivity.
  - reflexivity.
  - reflexivity.
  - reflexivity.
Defined.

(** C3 as stated fails on the sum: for a budget of 9,500 USD at the default
    scale of 0.001 the uniform curve hands out 100 units of liquidity, more
    than ten times the scaled budget of 9.5. *)
Lemma C3_counterexample :
  exists bins,
    generate_distribution (UniformCurve.new default_base) 2000 10 9500
    = Ok bins /\
    sum (map bin_liquidity bins) == 100 /\
    9500 * liquidity_scale default_base == 19 # 2 /\
    10 * (9500 * liquidity_scale default_base) < sum (map bin_liquidity bins).
Proof.
  eexists. split; [vm_compute; reflexivity|].
  repeat split; vm_compute; reflexivity.
Qed.

End CurveClaims.

(** ** triggers: the gap trigger and the manager *)

Section TriggerClaims.

Import triggers.
Import TriggerManager.

Lemma Qdiv_by_zero (x c : Q) : c == 0 -> x / c == 0.
Proof.
  intro H. unfold Qdiv. rewrite H. unfold Qinv. cbn. ring.
Qed.

(** The gap trigger in basis-point mode, with a positive threshold, fires
    exactly when the deviation from the centre reaches [gap_bps]; with a
    centre of zero the division raises and the formula reads 0. *)
Lemma gap_from_center_fires (b : TriggerBase) (ticks : Z) (bps : Q) (st : State) :
  0 < bps ->
  (fst (should_trigger (GapFromCenterTrigger b ticks (Some bps)) st) = Ok true
   <-> bps <= Qabs (current_price st - position_center st)
              / position_center st * 10000).
Proof.
  intro Hbps.
  cbn [should_trigger fst]. unfold gap_from_center_should_trigger, truediv.
  destruct (Qeq_bool (position_center st) 0) eqn:E; cbn [rbind].
  - apply Qeq_bool_iff in E. split; [discriminate|].
    intro H. rewrite (Qdiv_by_zero _ _ E) in H. lra.
  - split; intro H.
    + injection H as H. now apply Qle_bool_iff.
    + apply Qle_bool_iff in H. now rewrite H.
Qed.

(** Keys of a dictionary are unique. *)
Lemma unique_key {V} (items : list (string * V)) (k : string) (a b : V) :
  NoDup (map fst items) -> In (k, a) items -> In (k, b) items -> a = b.
Proof.
  induction items as [|[k' v] items IH]; intros Hnd Ha Hb; [contradiction|].
  cbn [map fst] in Hnd. inversion Hnd as [|? ? Hnot Hnd']; subst.
  destruct Ha as [Ha|Ha], Hb as [Hb|Hb].
  - congruence.
  - injection Ha as -> ->. exfalso. apply Hnot.
    change k with (fst (k, b)). now apply in_map.
  - injection Hb as -> ->. exfalso. apply Hnot.
    change k with (fst (k, a)). now apply in_map.
  - now apply IH.
Qed.

(** The names the manager reports are those it started with and those of
    the triggers that fired. *)
Lemma should_trigger_loop_names
  (items : t) (st : State) (acc names : list string) (items' : t) :
  should_trigger_loop items st acc = (Ok names, items') ->
  forall name,
    In name names <->
    In name acc \/
    exists trigger, In (name, trigger) items /\
                    fst (should_trigger trigger st) = Ok true.
Proof.
  revert acc names items'.
  induction items as [|[n tr] rest IH]; intros acc names items' H name;
    cbn [should_trigger_loop] in H.
  - injection H as <- <-. split; [auto|]. intros [H|(tr & [] & _)]. exact H.
  - destruct (should_trigger tr st) as [[fired|e] tr'] eqn:Etr;
      [|discriminate].
    destruct (should_trigger_loop rest st
                (if fired then acc ++ [n] else acc)) as [r rest'] eqn:Erest.
    injection H as -> <-.
    rewrite (IH _ _ _ Erest name). split.
    + intros [Hin|(tr0 & Hin & Hf)].
      * destruct fired.
        -- apply in_app_or in Hin as [Hin|[<-|[]]]; [now left|].
           right. exists tr. split; [now left|]. now rewrite Etr.
        -- now left.
      * right. exists tr0. split; [now right|exact Hf].
    + intros [Hin|(tr0 & [Heq|Hin] & Hf)].
      * left. destruct fired; [apply in_or_app|]; auto.
      * injection Heq as -> ->. rewrite Etr in Hf. cbn in Hf.
        injection Hf as ->. left. apply in_or_app. right. now left.
      * right. exists tr0. auto.
Qed.

Lemma should_trigger_any_names
  (self : t) (st : State) (fired : bool) (names : list string) (self' : t) :
  should_trigger_any st self = (Ok (fired, names), self') ->
  forall name,
    In name names <->
    exists trigger, In (name, trigger) self /\
                    fst (should_trigger trigger st) = Ok true.
Proof.
  unfold should_trigger_any. intros H name.
  destruct (should_trigger_loop self st []) as [[ns|e] s'] eqn:E;
    [|discriminate].
  injection H as _ <- _.
  rewrite (should_trigger_loop_names _ _ _ _ _ E name).
  split; [intros [[]|H]; exact H|auto].
Qed.

(** C5. A [GapFromCenterTrigger] with [gap_bps=100] fires if and only if
    [|current_price - position_center| / position_center * 10000 >= 100];
    and in any two managers that hold such a trigger under the same name,
    whatever their other triggers and whatever state those are in, a call
    of [should_trigger_any] that returns reports that name in both or in
    neither, according to the same condition. *)
Theorem C5_gap_trigger_decision (st : State) :
  let deviation_bps :=
    Qabs (current_price st - position_center st) / position_center st * 10000 in
  (forall b ticks,
     fst (should_trigger (GapFromCenterTrigger b ticks (Some 100)) st) = Ok true
     <-> 100 <= deviation_bps)
  /\
  (forall (name : string) (m1 m2 : t) b1 ticks1 b2 ticks2 r1 r2 m1' m2',
     NoDup (map fst m1) -> NoDup (map fst m2) ->
     In (name, GapFromCenterTrigger b1 ticks1 (Some 100)) m1 ->
     In (name, GapFromCenterTrigger b2 ticks2 (Some 100)) m2 ->
     should_trigger_any st m1 = (Ok r1, m1') ->
     should_trigger_any st m2 = (Ok r2, m2') ->
     (In name (snd r1) <-> In name (snd r2)) /\
     (In name (snd r1) <-> 100 <= deviation_bps)).
Proof.
  intro deviation_bps.
  assert (Hgap : forall b ticks,
             fst (should_trigger (GapFromCenterTrigger b ticks (Some 100)) st)
             = Ok true <-> 100 <= deviation_bps).
  { intros b ticks. apply gap_from_center_fires. reflexivity. }
  split; [exact Hgap|].
  intros name m1 m2 b1 ticks1 b2 ticks2 [f1 ns1] [f2 ns2] m1' m2'
         Hnd1 Hnd2 Hin1 Hin2 Hrun1 Hrun2. cbn [snd].
  assert (H1 : In name ns1 <-> 100 <= deviation_bps).
  { rewrite (should_trigger_any_names _ _ _ _ _ Hrun1 name). split.
    - intros (tr & Hin & Hf).
      rewrite <- (unique_key _ _ _ _ Hnd1 Hin1 Hin) in Hf.
      now apply Hgap in Hf.
    - intro H. eexists. split; [exact Hin1|]. now apply Hgap. }
  assert (H2 : In name ns2 <-> 100 <= deviation_bps).
  { rewrite (should_trigger_any_names _ _ _ _ _ Hrun2 name). split.
    - intros (tr & Hin & Hf).
      rewrite <- (unique_key _ _ _ _ Hnd2 Hin2 Hin) in Hf.
      now apply Hgap in Hf.
    - intro H. eexists. split; [exact Hin2|]. now apply Hgap. }
  split; [|exact H1]. rewrite H1, H2. reflexivity.
Qed.

(** C5 at a price 150 bps above the centre, with the four triggers of a
    Classic strategy: once freshly built, once with the other triggers
    carrying state from earlier bars and an extra trigger added. *)
Lemma C5_gap_trigger_decision_witness :
  exists r1 r2 m1' m2',
    should_trigger_any (mkState 2030 2000 1900 2100 10000 (Some 3600%Z))
      (strategies.classic._setup_triggers 100 5 24) = (Ok r1, m1') /\
    should_trigger_any (mkState 2030 2000 1900 2100 10000 (Some 3600%Z))
      [("one_way"%string, OneWayExitTrigger base0 "up" 2 1 (Some 2010));
       ("gap_from_center"%string,
        GapFromCenterTrigger (mkBase (Some 0%Z) 7) 100 (Some 100));
       ("range_inactive"%string, RangeInactiveTrigger base0);
       ("percent_drift"%string, PercentDriftTrigger base0 5 (Some 9000));
       ("time_elapsed"%string,
        ElapsedTimeTrigger (mkBase (Some 0%Z) 3) 1800)]
    = (Ok r2, m2') /\
    (In "gap_from_center"%string (snd r1)
     <-> In "gap_from_center"%string (snd r2)) /\
    (In "gap_from_center"%string (snd r1)
     <-> 100 <= Qabs (2030 - 2000) / 2000 * 10000).
Proof.
  do 4 eexists.
  split; [vm_compute; reflexivity|].
  split; [vm_compute; reflexivity|].
  eapply (proj2 (C5_gap_trigger_decision
                   (mkState 2030 2000 1900 2100 10000 (Some 3600%Z)))
            "gap_from_center"%string
            (strategies.classic._setup_triggers 100 5 24)
            [("one_way"%string, OneWayExitTrigger base0 "up" 2 1 (Some 2010));
             ("gap_from_center"%string,
              GapFromCenterTrigger (mkBase (Some 0%Z) 7) 100 (Some 100));
             ("range_inactive"%string, RangeInactiveTrigger base0);
             ("percent_drift"%string, PercentDriftTrigger base0 5 (Some 9000));
             ("time_elapsed"%string,
              ElapsedTimeTrigger (mkBase (Some 0%Z) 3) 1800)]).
  - cbn. repeat constructor; cbn; intuition discriminate.
  - cbn. repeat constructor; cbn; intuition discriminate.
  - cbn. left. reflexivity.
  - cbn. right. left. reflexivity.
  - vm_compute. reflexivity.
  - vm_compute. reflexivity.
Defined.

End TriggerClaims.

(** ** strategies and the engine *)

Section StrategyClaims.

Import strategies.

(** The first [update] of any strategy that inherits [BaseStrategy.update]:
    if [calculate_range] returns, the strategy becomes initialised with the
    ranges it computed and a rebalance is signalled. *)
Lemma base_update_first_call {Sub : Type}
  (calculate_range :
     list data.Bar -> Q -> Q -> M (base.t Sub) (list (Q * Q) * list Q))
  (self self' : base.t Sub) (price_data : list data.Bar)
  (current_price portfolio_value : Q) (force_update : bool)
  (ranges : list (Q * Q)) (liquidities : list Q) :
  base.initialized self = false ->
  calculate_range price_data current_price portfolio_value self
  = (Ok (ranges, liquidities), self') ->
  base.update calculate_range price_data current_price portfolio_value
              force_update self
  = (Ok true,
     base.mk true ranges liquidities (base.last_update self')
             (base.rebalance_count self') (base.total_fees_earned self')
             (base.sub self')).
Proof.
  intros Hinit Hcalc.
  unfold base.update, base.initialize, bind, get, modify, ret.
  cbv beta iota. rewrite Hinit. cbv beta iota delta [negb].
  rewrite Hinit, Hcalc. reflexivity.
Qed.

(** The same for the Classic strategy, whose [update] first consults
    [should_rebalance]. *)
Lemma classic_update_first_call
  (self : classic.t) (price_data : list data.Bar)
  (current_price portfolio_value : Q) (force_update : bool)
  (ranges : list (Q * Q)) (liquidities : list Q) :
  base.initialized self = false ->
  classic.calculate_range_of self price_data current_price portfolio_value
  = Ok (ranges, liquidities) ->
  classic.update price_data current_price portfolio_value force_update self
  = (Ok true,
     base.mk true ranges liquidities (base.last_update self)
             (base.rebalance_count self) (base.total_fees_earned self)
             (base.sub self)).
Proof.
  intros Hinit Hcalc.
  assert (Hbase :
    base.update classic.calculate_range price_data current_price
                portfolio_value force_update self
    = (Ok true,
       base.mk true ranges liquidities (base.last_update self)
               (base.rebalance_count self) (base.total_fees_earned self)
               (base.sub self))).
  { apply base_update_first_call; [exact Hinit|].
    unfold classic.calculate_range. now rewrite Hcalc. }
  unfold classic.update.
  destruct force_update.
  - unfold bind at 1, ret at 1. exact Hbase.
  - unfold bind at 1. unfold classic.should_rebalance. rewrite Hinit.
    cbn [negb]. exact Hbase.
Qed.

(** C4 on the code. The Classic strategy with its defaults, a width of 10%
    and centre placement, asked for a range at 2000, returns the first of
    the five bins of its uniform curve, (1900, 1940), not (1900, 2100).
    After the first update at 2000, an update at 2150 signals a rebalance
    and the new range is (2042.5, 2085.5), whose centre is 2064. *)
Theorem C4_classic_returns_first_bin :
  (exists lower upper liquidity,
     classic.calculate_range_of
       (classic.new_default "percent" 10 "center") [] 2000 10000
     = Ok ([(lower, upper)], [liquidity]) /\
     lower == 1900 /\ upper == 1940 /\ ~ upper == 2100)
  /\
  (let first_update :=
     classic.update
       [data.mkBar 0%Z 2000 2000 2000 2000 (Some 1) (Some 2000)]
       2000 10000 false (classic.new_default "percent" 10 "center") in
   let second_update :=
     classic.update
       [data.mkBar 0%Z 2000 2000 2000 2000 (Some 1) (Some 2000);
        data.mkBar 3600%Z 2150 2150 2150 2150 (Some 1) (Some 2150)]
       2150 10000 false (snd first_update) in
   fst first_update = Ok true /\
   fst second_update = Ok true /\
   exists lower upper,
     base.current_ranges (snd second_update) = [(lower, upper)] /\
     lower == 4085 # 2 /\ upper == 4171 # 2 /\
     (lower + upper) / 2 == 2064 /\ ~ (lower + upper) / 2 == 2150).
Proof.
  split.
  - do 3 eexists. split; [vm_compute; reflexivity|].
    repeat split; try (vm_compute; reflexivity).
    intro H. vm_compute in H. discriminate H.
  - cbv zeta.
    split; [vm_compute; reflexivity|].
    split; [vm_compute; reflexivity|].
    do 2 eexists. split; [vm_compute; reflexivity|].
    repeat split; try (vm_compute; reflexivity).
    intro H. vm_compute in H. discriminate H.
Qed.

End StrategyClaims.

Section EngineClaims.

Import strategies.
Import backtester.

(** C6 on the code. [Backtester.run] initialises the strategy before the
    loop, so the update of bar 0 finds it initialised and signals nothing:
    over three bars within 1% of the first price neither a
    channel-multiplier strategy nor a Classic strategy ever rebalances and
    the portfolio never holds a position. *)
Theorem C6_engine_opens_no_initial_position :
  let bars :=
    [data.mkBar 0%Z 2000 2000 2000 2000 (Some 1) (Some 2000);
     data.mkBar 3600%Z 2010 2010 2010 2010 (Some 1) (Some 2010);
     data.mkBar 7200%Z 1995 1995 1995 1995 (Some 1) (Some 1995)] in
  let channel :=
    run ChannelMultiplierStrategy 0%Z bars
      (new ChannelMultiplierStrategy (channel_multiplier.new 10)
           10000 5 1 0 (2 # 1000)) in
  let classic :=
    run ClassicStrategy 0%Z bars
      (new ClassicStrategy (classic.new_default "percent" 10 "center")
           10000 5 1 0 (2 # 1000)) in
  (fst channel = Ok tt /\
   base.initialized (strategy _ (snd channel)) = true /\
   base.rebalance_count (strategy _ (snd channel)) = 0%Z /\
   portfolio.Portfolio.positions (portfolio _ (snd channel)) = [] /\
   portfolio.Portfolio.rebalance_count (portfolio _ (snd channel)) = 0%Z /\
   List.length (portfolio.Portfolio.equity_curve (portfolio _ (snd channel)))
   = 3%nat)
  /\
  (fst classic = Ok tt /\
   base.initialized (strategy _ (snd classic)) = true /\
   base.rebalance_count (strategy _ (snd classic)) = 0%Z /\
   portfolio.Portfolio.positions (portfolio _ (snd classic)) = [] /\
   portfolio.Portfolio.rebalance_count (portfolio _ (snd classic)) = 0%Z /\
   List.length (portfolio.Portfolio.equity_curve (portfolio _ (snd classic)))
   = 3%nat).
Proof.
  cbv zeta. repeat split; vm_compute; reflexivity.
Qed.

End EngineClaims.

(* ================================================================= *)
(** * Further properties, module by module *)

(** ** steerbt/uv3_math.py: the conversions between liquidity and amounts *)

Section UV3Order.

Import uv3_math.

Lemma sort2_comm (a b : Z) : sort2 a b = sort2 b a.
Proof.
  unfold sort2.
  destruct (a >? b)%Z eqn:E1; destruct (b >? a)%Z eqn:E2; try reflexivity.
  - apply Z.gtb_lt in E1, E2. lia.
  - assert (a = b) by (rewrite Z.gtb_ltb in E1, E2; apply Z.ltb_ge in E1, E2; lia).
    subst. reflexivity.
Qed.

(** The two bounds of a range may be given in either order: every conversion
    function, and the valuation built on them, returns the same result when
    the lower and the upper bound are exchanged. *)
Theorem bounds_order_is_irrelevant (a b x p : Z) (price lower upper liq : Q) (fee : Z) :
  get_amount0_for_liquidity a b x = get_amount0_for_liquidity b a x /\
  get_amount1_for_liquidity a b x = get_amount1_for_liquidity b a x /\
  get_liquidity_for_amount0 a b x = get_liquidity_for_amount0 b a x /\
  get_liquidity_for_amount1 a b x = get_liquidity_for_amount1 b a x /\
  get_amounts_for_liquidity p a b x = get_amounts_for_liquidity p b a x /\
  calculate_position_value price lower upper liq fee
  = calculate_position_value price upper lower liq fee.
Proof.
  assert (Hamounts : forall p a b x,
             get_amounts_for_liquidity p a b x = get_amounts_for_liquidity p b a x).
  { intros. unfold get_amounts_for_liquidity. rewrite (sort2_comm a0 b0).
    reflexivity. }
  repeat split.
  - unfold get_amount0_for_liquidity. rewrite (sort2_comm a b). reflexivity.
  - unfold get_amount1_for_liquidity. rewrite (sort2_comm a b). reflexivity.
  - unfold get_liquidity_for_amount0. rewrite (sort2_comm a b). reflexivity.
  - unfold get_liquidity_for_amount1. rewrite (sort2_comm a b). reflexivity.
  - apply Hamounts.
  - unfold calculate_position_value.
    destruct (price_to_sqrt_price_x96 price) as [sp|e]; cbn [rbind];
      [|reflexivity].
    unfold price_to_sqrt_price_x96.
    destruct (Qltb lower 0); destruct (Qltb upper 0); cbn [rbind];
      try reflexivity.
    rewrite Hamounts. reflexivity.
Qed.

End UV3Order.

Section UV3RoundTrip.

Import uv3_math.

Lemma float_nonneg (z : Z) : (0 <= z)%Z -> 0 <= float z.
Proof.
  intro H. unfold float. change (inject_Z 0 <= inject_Z z).
  rewrite <- Zle_Qle. exact H.
Qed.

Lemma float_le (x y : Z) : float x <= float y -> (x <= y)%Z.
Proof. unfold float. rewrite <- Zle_Qle. exact (fun H => H). Qed.

(** Truncating [L * c] and dividing the result by [c] again never gives back
    more than [L], and loses less than [1 + 1/c]. *)
Lemma truncated_round_trip (L : Z) (c x y : Q) :
  0 < c -> (0 <= L)%Z ->
  x == float L * c -> y == float (int x) / c ->
  (0 <= int y <= L)%Z /\ float L - float (int y) < 1 + 1 / c.
Proof.
  intros Hc HL Hx Hy.
  assert (HLq : 0 <= float L) by (apply float_nonneg, HL).
  assert (Hx0 : 0 <= x).
  { rewrite Hx. apply Qmult_le_0_compat; [exact HLq | apply Qlt_le_weak, Hc]. }
  destruct (int_floor_bounds x Hx0) as [Hxl Hxu].
  assert (Ha0 : 0 <= float (int x)) by (apply float_nonneg, int_nonneg, Hx0).
  assert (Hy0 : 0 <= y).
  { rewrite Hy. apply Qle_shift_div_l; [exact Hc|]. rewrite Qmult_0_l. exact Ha0. }
  destruct (int_floor_bounds y Hy0) as [Hyl Hyu].
  assert (HyL : y <= float L).
  { rewrite Hy. apply Qle_shift_div_r; [exact Hc|]. rewrite <- Hx. exact Hxl. }
  assert (HLy : float L - 1 / c < y).
  { rewrite Hy. apply Qlt_shift_div_l; [exact Hc|].
    assert (E : (float L - 1 / c) * c == float L * c - 1).
    { field. intro Hz. rewrite Hz in Hc. apply (Qlt_irrefl 0 Hc). }
    rewrite E, <- Hx. lra. }
  split.
  - split; [apply int_nonneg, Hy0|].
    apply float_le. lra.
  - lra.
Qed.

(** The same round trip when the two quotients are only accurate to a
    relative error [u] of at most [2^-45] (binary64 rounds to about
    [2^-53] at each operation): [x] stands for the double computed for
    the amount and [y] for the double computed from its truncation.  For a
    liquidity of at most [2^40] the rounding moves neither bound by a
    whole unit. *)
Lemma liquidity_round_trip_under_rounding (L : Z) (u c x y : Q) :
  0 <= u -> u <= 1 # 35184372088832 ->
  0 < c -> (0 <= L)%Z -> (L <= 1099511627776)%Z ->
  0 <= x -> Qabs (x - float L * c) <= u * (float L * c) ->
  0 <= y -> Qabs (y - float (int x) / c) <= u * (float (int x) / c) ->
  (0 <= int y <= L)%Z /\ float L - float (int y) < 2 + 1 / c.
Proof.
  intros Hu0 Hu1 Hc HL0 HL1 Hx0 Hx Hy0 Hy.
  assert (HLq : 0 <= float L) by (apply float_nonneg, HL0).
  assert (HLq1 : float L <= 1099511627776).
  { change 1099511627776 with (float 1099511627776).
    unfold float. rewrite <- Zle_Qle. exact HL1. }
  destruct (int_floor_bounds x Hx0) as [Hxl Hxu].
  destruct (int_floor_bounds y Hy0) as [Hyl Hyu].
  assert (Ha0 : 0 <= float (int x)) by (apply float_nonneg, int_nonneg, Hx0).
  set (A := float (int x)) in *.
  set (B := float (int y)) in *.
  set (q := A / c) in *.
  set (Lc := float L * c) in *.
  assert (Hq : q * c == A) by (unfold q; field; lra).
  assert (HLc0 : 0 <= Lc).
  { unfold Lc. apply Qmult_le_0_compat; lra. }
  assert (Hq0 : 0 <= q).
  { unfold q. apply Qle_shift_div_l; [exact Hc|]. lra. }
  apply Qabs_Qle_condition in Hx. destruct Hx as [Hx1 Hx2].
  apply Qabs_Qle_condition in Hy. destruct Hy as [Hy1 Hy2].
  assert (HuLc : 0 <= u * Lc) by (apply Qmult_le_0_compat; assumption).
  assert (Huq : 0 <= u * q) by (apply Qmult_le_0_compat; assumption).
  (* q is between L (1 - u) - 1/c and L (1 + u) *)
  set (ic := 1 / c) in *.
  assert (Hic : ic * c == 1) by (unfold ic; field; lra).
  assert (Hic0 : 0 < ic).
  { unfold ic. apply Qlt_shift_div_l; [exact Hc|]. lra. }
  assert (HqA : q == A * ic) by (unfold q, ic; field; lra).
  assert (HL : float L == Lc * ic) by (unfold Lc, ic; field; lra).
  assert (HuL : u * float L <= 1 # 32).
  { apply Qle_trans with ((1 # 35184372088832) * 1099511627776);
      [|vm_compute; discriminate].
    apply Qle_trans with (u * 1099511627776).
    - rewrite !(Qmult_comm u). apply Qmult_le_compat_r; assumption.
    - apply Qmult_le_compat_r; [exact Hu1 | discriminate]. }
  assert (HuL0 : 0 <= u * float L) by (apply Qmult_le_0_compat; assumption).
  assert (Hqhi : q <= float L + u * float L).
  { rewrite HqA.
    setoid_replace (float L + u * float L) with ((Lc + u * Lc) * ic)
      by (rewrite HL; ring).
    apply Qmult_le_compat_r; [lra | apply Qlt_le_weak, Hic0]. }
  assert (Hqlo : float L - u * float L - ic < q).
  { rewrite HqA.
    setoid_replace (float L - u * float L - ic) with ((Lc - u * Lc - 1) * ic)
      by (rewrite HL; ring).
    apply Qmult_lt_compat_r; [exact Hic0 | lra]. }
  assert (Huq1 : u * q <= 1 # 16).
  { apply Qle_trans with (u * (float L + u * float L)).
    - rewrite (Qmult_comm u q), (Qmult_comm u (float L + u * float L)).
      apply Qmult_le_compat_r; assumption.
    - assert (Huu : u * (u * float L) <= 1 # 32).
      { apply Qle_trans with (1 * (u * float L)); [|lra].
        apply Qmult_le_compat_r; [lra | exact HuL0]. }
      rewrite Qmult_plus_distr_r. lra. }
  split.
  - split; [apply int_nonneg, Hy0|].
    assert (HB : B < float L + 1) by lra.
    assert (HB' : float (int y) < float (L + 1)).
    { unfold float at 2. rewrite inject_Z_plus. exact HB. }
    unfold float in HB'. rewrite <- Zlt_Qlt in HB'. lia.
  - assert (Huq2 : u * q <= u * float L + (1 # 32)).
    { apply Qle_trans with (u * (float L + u * float L)).
      - rewrite (Qmult_comm u q), (Qmult_comm u (float L + u * float L)).
        apply Qmult_le_compat_r; assumption.
      - assert (Huu : u * (u * float L) <= 1 # 32).
        { apply Qle_trans with (1 * (u * float L)); [|lra].
          apply Qmult_le_compat_r; [lra | exact HuL0]. }
        rewrite Qmult_plus_distr_r. lra. }
    lra.
Qed.

(** Liquidity to amount and back.  For an ascending range of positive sqrt
    prices and a liquidity [L] between 0 and [2^40], converting [L] to an
    amount of either token and that amount back to a liquidity returns a
    value in [0 .. L], short of [L] by less than two units plus the
    reciprocal of the conversion factor.  Exact arithmetic loses less than
    one unit plus that reciprocal; the second unit and the bound on [L]
    are the room the rounding of doubles needs
    ([liquidity_round_trip_under_rounding]). *)
Theorem liquidity_amount_round_trip (a b L : Z) :
  (0 < a)%Z -> (a < b)%Z -> (0 <= L)%Z -> (L <= 2 ^ 40)%Z ->
  (exists amount0,
     get_amount0_for_liquidity a b L = Ok amount0 /\
     (0 <= get_liquidity_for_amount0 a b amount0 <= L)%Z /\
     float L - float (get_liquidity_for_amount0 a b amount0)
     < 2 + 1 / (float (b - a) / float Q96
                / (float a / float Q96 * (float b / float Q96))))
  /\
  ((0 <= get_liquidity_for_amount1 a b (get_amount1_for_liquidity a b L) <= L)%Z /\
   float L
   - float (get_liquidity_for_amount1 a b (get_amount1_for_liquidity a b L))
   < 2 + 1 / (float (b - a) / float Q96)).
Proof.
  intros Ha Hab HL HLmax.
  assert (Hb : (0 < b)%Z) by lia.
  pose proof (ratio_pos a Ha) as Hra.
  pose proof (ratio_pos b Hb) as Hrb.
  assert (Hd : 0 < float (b - a) / float Q96) by (apply ratio_pos; lia).
  assert (Hden : 0 < float a / float Q96 * (float b / float Q96)).
  { setoid_replace 0 with (0 * (float b / float Q96)) by ring.
    apply Qmult_lt_compat_r; assumption. }
  assert (Hnz : forall z, (0 < z)%Z -> ~ float z == 0).
  { intros z Hz E. pose proof (float_pos z Hz) as Hp. rewrite E in Hp.
    apply (Qlt_irrefl 0 Hp). }
  assert (Hfa : ~ float a == 0) by (apply Hnz; lia).
  assert (Hfb : ~ float b == 0) by (apply Hnz; lia).
  assert (Hfd : ~ float (b - a) == 0) by (apply Hnz; lia).
  assert (HfQ : ~ float Q96 == 0) by (apply Hnz; reflexivity).
  assert (Hsort : sort2 a b = (a, b)).
  { unfold sort2. destruct (a >? b)%Z eqn:E; [|reflexivity].
    apply Z.gtb_lt in E. lia. }
  assert (Hdiff : (b - a =? 0)%Z = false) by (apply Z.eqb_neq; lia).
  split.
  - unfold get_amount0_for_liquidity, get_liquidity_for_amount0.
    rewrite Hsort, Hdiff.
    rewrite truediv_ok by lra. cbn [rbind].
    eexists. split; [reflexivity|].
    destruct (truncated_round_trip L
                (float (b - a) / float Q96
                 / (float a / float Q96 * (float b / float Q96)))
                (float L * (float (b - a) / float Q96)
                 / (float a / float Q96 * (float b / float Q96)))
                (float (int (float L * (float (b - a) / float Q96)
                             / (float a / float Q96 * (float b / float Q96))))
                 * (float a / float Q96) * (float b / float Q96)
                 / (float (b - a) / float Q96)))
      as [Hbounds Hloss]; try assumption.
    + apply Qlt_shift_div_l; [exact Hden|]. rewrite Qmult_0_l. exact Hd.
    + field. repeat split; assumption.
    + field. repeat split; assumption.
    + split; [exact Hbounds | lra].
  - unfold get_amount1_for_liquidity, get_liquidity_for_amount1.
    rewrite Hsort, Hdiff.
    destruct (truncated_round_trip L (float (b - a) / float Q96)
                (float L * (float (b - a) / float Q96))
                (float (int (float L * (float (b - a) / float Q96)))
                 / (float (b - a) / float Q96)))
      as [Hbounds Hloss]; try assumption; try reflexivity.
    split; [exact Hbounds | lra].
Qed.

(** The round trip at a range of sqrt prices 1 to 2 and liquidity 1000. *)
Lemma liquidity_amount_round_trip_witness :
  (exists amount0,
     get_amount0_for_liquidity Q96 (2 * Q96) 1000 = Ok amount0 /\
     (0 <= get_liquidity_for_amount0 Q96 (2 * Q96) amount0 <= 1000)%Z /\
     float 1000 - float (get_liquidity_for_amount0 Q96 (2 * Q96) amount0)
     < 2 + 1 / (float (2 * Q96 - Q96) / float Q96
                / (float Q96 / float Q96 * (float (2 * Q96) / float Q96))))
  /\
  ((0 <= get_liquidity_for_amount1 Q96 (2 * Q96)
           (get_amount1_for_liquidity Q96 (2 * Q96) 1000) <= 1000)%Z /\
   float 1000
   - float (get_liquidity_for_amount1 Q96 (2 * Q96)
              (get_amount1_for_liquidity Q96 (2 * Q96) 1000))
   < 2 + 1 / (float (2 * Q96 - Q96) / float Q96)).
Proof.
  apply (liquidity_amount_round_trip Q96 (2 * Q96) 1000);
    [reflexivity | reflexivity | lia | lia].
Defined.

End UV3RoundTrip.

Section UV3Valuation.

Import uv3_math.

Lemma sqrt_price_mono (p q : Q) :
  p <= q ->
  (Z.sqrt (Qfloor (p * float Q192)) <= Z.sqrt (Qfloor (q * float Q192)))%Z.
Proof.
  intro H. apply Z.sqrt_le_mono, Qfloor_resp_le.
  apply Qmult_le_compat_r; [exact H|].
  apply Qlt_le_weak, float_Q192_pos.
Qed.

Lemma sort2_ascending (a b : Z) : (a <= b)%Z -> sort2 a b = (a, b).
Proof.
  intro H. unfold sort2. destruct (a >? b)%Z eqn:E; [|reflexivity].
  apply Z.gtb_lt in E. lia.
Qed.

Lemma get_amount0_for_liquidity_nonneg (a b L : Z) :
  (0 < a)%Z -> (a <= b)%Z -> (0 <= L)%Z ->
  exists v, get_amount0_for_liquidity a b L = Ok v /\ (0 <= v)%Z.
Proof.
  intros Ha Hab HL. unfold get_amount0_for_liquidity.
  rewrite (sort2_ascending a b Hab).
  destruct (b - a =? 0)%Z eqn:E.
  - exists 0%Z. split; [reflexivity|lia].
  - apply Z.eqb_neq in E.
    pose proof (ratio_pos a Ha) as Hra.
    assert (Hrb : 0 < float b / float Q96) by (apply ratio_pos; lia).
    assert (Hd : 0 < float (b - a) / float Q96) by (apply ratio_pos; lia).
    assert (Hden : 0 < float a / float Q96 * (float b / float Q96)).
    { setoid_replace 0 with (0 * (float b / float Q96)) by ring.
      apply Qmult_lt_compat_r; assumption. }
    rewrite truediv_ok by lra. cbn [rbind].
    eexists. split; [reflexivity|].
    apply int_nonneg. apply Qle_shift_div_l; [exact Hden|].
    rewrite Qmult_0_l. apply Qmult_le_0_compat; [apply float_nonneg, HL | lra].
Qed.

Lemma get_amount1_for_liquidity_nonneg (a b L : Z) :
  (a <= b)%Z -> (0 <= L)%Z -> (0 <= get_amount1_for_liquidity a b L)%Z.
Proof.
  intros Hab HL. unfold get_amount1_for_liquidity.
  rewrite (sort2_ascending a b Hab).
  destruct (b - a =? 0)%Z eqn:E; [lia|].
  apply Z.eqb_neq in E.
  assert (Hd : 0 < float (b - a) / float Q96) by (apply ratio_pos; lia).
  apply int_nonneg, Qmult_le_0_compat; [apply float_nonneg, HL | lra].
Qed.

Lemma amount_decimal_nonneg (z : Z) : (0 <= z)%Z -> 0 <= float z / float Q96.
Proof.
  intro H. apply Qle_shift_div_l; [apply float_Q96_pos|].
  rewrite Qmult_0_l. apply float_nonneg, H.
Qed.

(** A position with a non-negative liquidity is never worth less than
    nothing: for a non-negative price and an ascending range whose lower
    bound has a non-zero sqrt price, the valuation returns two non-negative
    amounts and their non-negative value.  At or below the lower bound the
    position holds no token1, at or above the upper bound no token0. *)
Theorem position_value_is_nonnegative
  (price lower upper liquidity : Q) (fee_tier_bps : Z) :
  0 <= price -> 1 <= lower * float Q192 -> lower <= upper -> 0 <= liquidity ->
  exists amount0 amount1 value,
    calculate_position_value price lower upper liquidity fee_tier_bps
    = Ok (amount0, amount1, value) /\
    0 <= amount0 /\ 0 <= amount1 /\
    value == amount0 * price + amount1 /\ 0 <= value /\
    (price <= lower -> amount1 == 0) /\
    (upper <= price -> amount0 == 0).
Proof.
  intros Hp Hlo Hlu HL.
  assert (Hlower : 0 <= lower).
  { pose proof float_Q192_pos as HQ.
    destruct (Qlt_le_dec lower 0) as [Hneg|Hpos]; [|exact Hpos].
    exfalso. assert (lower * float Q192 <= 0); [|lra].
    setoid_replace 0 with (0 * float Q192) by ring.
    apply Qmult_le_compat_r; lra. }
  assert (Hupper : 0 <= upper) by lra.
  unfold calculate_position_value.
  rewrite (price_to_sqrt_price_x96_ok price Hp),
          (price_to_sqrt_price_x96_ok lower Hlower),
          (price_to_sqrt_price_x96_ok upper Hupper).
  cbn [rbind].
  set (sp := Z.sqrt (Qfloor (price * float Q192))).
  set (sl := Z.sqrt (Qfloor (lower * float Q192))).
  set (su := Z.sqrt (Qfloor (upper * float Q192))).
  assert (Hsl : (0 < sl)%Z) by (apply sqrt_price_positive, Hlo).
  assert (Hslu : (sl <= su)%Z) by (apply sqrt_price_mono, Hlu).
  assert (HLz : (0 <= int liquidity)%Z) by (apply int_nonneg, HL).
  assert (Hbelow : price <= lower -> (sp <= sl)%Z)
    by (intro H; apply sqrt_price_mono, H).
  assert (Habove : upper <= price -> (su <= sp)%Z)
    by (intro H; apply sqrt_price_mono, H).
  clearbody sp sl su.
  unfold get_amounts_for_liquidity. rewrite (sort2_ascending sl su Hslu).
  assert (Hval : forall a0 a1 : Z,
             (0 <= a0)%Z -> (0 <= a1)%Z ->
             0 <= float a0 / float Q96 * price + float a1 / float Q96).
  { intros a0 a1 H0 H1.
    pose proof (amount_decimal_nonneg a0 H0).
    pose proof (amount_decimal_nonneg a1 H1).
    assert (0 <= float a0 / float Q96 * price)
      by (apply Qmult_le_0_compat; assumption).
    lra. }
  destruct (sp <=? sl)%Z eqn:E1.
  - apply Z.leb_le in E1.
    destruct (get_amount0_for_liquidity_nonneg sl su (int liquidity))
      as [a0 [Ha0 Ha0p]]; try assumption.
    rewrite Ha0. cbn [rbind].
    do 3 eexists. split; [reflexivity|].
    split; [apply amount_decimal_nonneg, Ha0p|].
    split; [apply amount_decimal_nonneg; lia|].
    split; [reflexivity|].
    split; [apply Hval; [exact Ha0p | lia]|].
    split.
    + intros _. unfold Qdiv. apply Qmult_0_l.
    + intro Hup. apply Habove in Hup.
      assert (sl = su) by lia. subst su.
      unfold get_amount0_for_liquidity in Ha0.
      rewrite sort2_same, Z.sub_diag in Ha0. simpl in Ha0.
      injection Ha0 as <-. unfold Qdiv. apply Qmult_0_l.
  - apply Z.leb_gt in E1.
    destruct (sp >=? su)%Z eqn:E2.
    + apply Z.geb_le in E2.
      do 3 eexists. split; [reflexivity|].
      pose proof (get_amount1_for_liquidity_nonneg sl su (int liquidity)
                    Hslu HLz) as Ha1.
      split; [apply amount_decimal_nonneg; lia|].
      split; [apply amount_decimal_nonneg, Ha1|].
      split; [reflexivity|].
      split; [apply Hval; [lia | exact Ha1]|].
      split.
      * intro Hlow. apply Hbelow in Hlow. lia.
      * intros _. unfold Qdiv. apply Qmult_0_l.
    + rewrite Z.geb_leb in E2. apply Z.leb_gt in E2.
      destruct (get_amount0_for_liquidity_nonneg sp su (int liquidity))
        as [a0 [Ha0 Ha0p]]; try assumption; try lia.
      rewrite Ha0. cbn [rbind].
      do 3 eexists. split; [reflexivity|].
      assert (Ha1 : (0 <= get_amount1_for_liquidity sl sp (int liquidity))%Z)
        by (apply get_amount1_for_liquidity_nonneg; [lia | exact HLz]).
      split; [apply amount_decimal_nonneg, Ha0p|].
      split; [apply amount_decimal_nonneg, Ha1|].
      split; [reflexivity|].
      split; [apply Hval; assumption|].
      split.
      * intro Hlow. apply Hbelow in Hlow. lia.
      * intro Hup. apply Habove in Hup. lia.
Qed.

(** The valuation of the range 1600..2500 with liquidity [100 * 2^96] at
    its upper bound. *)
Lemma position_value_is_nonnegative_witness :
  exists amount0 amount1 value,
    calculate_position_value 2500 1600 2500 (float (100 * Q96)) 500
    = Ok (amount0, amount1, value) /\
    0 <= amount0 /\ 0 <= amount1 /\
    value == amount0 * 2500 + amount1 /\ 0 <= value /\
    (2500 <= 1600 -> amount1 == 0) /\
    (2500 <= 2500 -> amount0 == 0).
Proof.
  apply (position_value_is_nonnegative 2500 1600 2500 (float (100 * Q96)) 500);
    vm_compute; congruence.
Defined.

(** [calculate_impermanent_loss] compares the value of the initial amounts
    at the initial price with their value at the current price: the
    rebalanced value it builds is the initial value again.  It raises
    [ZeroDivisionError] when the current price or the held value is zero,
    and otherwise returns
    [initial_amount0 * (initial_price - current_price) / held_value], which
    is zero when the price has not moved. *)
Theorem impermanent_loss_closed_form
  (initial_price current_price initial_amount0 initial_amount1 : Q) :
  let held_value := initial_amount0 * current_price + initial_amount1 in
  (current_price == 0 \/ held_value == 0 ->
   calculate_impermanent_loss initial_price current_price
     initial_amount0 initial_amount1 = Raise ZeroDivisionError)
  /\
  (~ current_price == 0 -> ~ held_value == 0 ->
   exists il,
     calculate_impermanent_loss initial_price current_price
       initial_amount0 initial_amount1 = Ok il /\
     il == initial_amount0 * (initial_price - current_price) / held_value /\
     (initial_price == current_price -> il == 0)).
Proof.
  intro held_value. unfold calculate_impermanent_loss.
  fold held_value. split.
  - intros [Hp|Hh].
    + rewrite truediv_zero; [reflexivity|]. rewrite Hp. ring.
    + destruct (Qeq_dec current_price 0) as [Hp|Hp].
      * rewrite truediv_zero; [reflexivity|]. rewrite Hp. ring.
      * rewrite truediv_ok.
        2:{ intro E. apply Hp.
            setoid_replace current_price with ((2 * current_price) / 2) by field.
            rewrite E. reflexivity. }
        cbn [rbind]. rewrite truediv_zero; [reflexivity | exact Hh].
  - intros Hp Hh.
    rewrite truediv_ok.
    2:{ intro E. apply Hp.
        setoid_replace current_price with ((2 * current_price) / 2) by field.
        rewrite E. reflexivity. }
    cbn [rbind]. rewrite truediv_ok by exact Hh. cbn [rbind].
    eexists. split; [reflexivity|].
    assert (Hform :
      ((initial_amount0 * initial_price + initial_amount1)
         / (2 * current_price) * current_price
       + (initial_amount0 * initial_price + initial_amount1) / 2
       - held_value) / held_value
      == initial_amount0 * (initial_price - current_price) / held_value).
    { unfold held_value in *. field. split; assumption. }
    split; [exact Hform|].
    intro Heq. rewrite Hform, Heq.
    setoid_replace (current_price - current_price) with 0 by ring.
    rewrite Qmult_0_r. unfold Qdiv. apply Qmult_0_l.
Qed.

(** One unit of token0 and 2000 of token1, priced at 2000 and then 2200. *)
Lemma impermanent_loss_closed_form_witness :
  exists il,
    calculate_impermanent_loss 2000 2200 1 2000 = Ok il /\
    il == 1 * (2000 - 2200) / (1 * 2200 + 2000) /\
    (2000 == 2200 -> il == 0).
Proof.
  apply (proj2 (impermanent_loss_closed_form 2000 2200 1 2000));
    vm_compute; congruence.
Defined.

End UV3Valuation.

(** ** steerbt/portfolio.py: fees, weights and the equity frame *)

Section PortfolioFees.

Import data.
Import portfolio.
Import Portfolio.

Lemma setitem_app {X} (done rest : list X) (old x : X) :
  setitem (done ++ old :: rest) (List.length done) x = done ++ x :: rest.
Proof.
  induction done as [|d done IH]; cbn [setitem List.length app].
  - reflexivity.
  - rewrite IH. reflexivity.
Qed.

Lemma set_positions_same (s : t) : set_positions (positions s) s = s.
Proof. destruct s. reflexivity. Qed.

Lemma set_positions_twice (xs ys : list Position.t) (s : t) :
  set_positions xs (set_positions ys s) = set_positions xs s.
Proof. reflexivity. Qed.

(** The fee loop, started at index [length done] with [done] already
    visited: every remaining position in range has its fees raised. *)
Lemma fee_loop (bar : Bar) (share qv : Q) :
  quote_volume bar = Some qv ->
  let credited := fun p =>
    if Position.is_in_range p (close bar)
    then Position.add_fees p
           (qv * share * (float (Position.fee_tier_bps p) / 10000))
    else p in
  let body := fun (i : nat) (position : Position.t) =>
    if Position.is_in_range position (close bar) then
      match quote_volume bar with
      | None => raise KeyError
      | Some qv =>
          let fees := qv * share
                      * (float (Position.fee_tier_bps position) / 10000) in
          (modify (fun s =>
                     set_positions
                       (setitem (positions s) i
                                (Position.add_fees position fees)) s) ;;;
           ret (S i))%py
      end
    else ret (S i) in
  forall (rest done : list Position.t) (s : t),
    positions s = done ++ rest ->
    for_fold rest (List.length done) body s
    = (Ok (List.length done + List.length rest)%nat,
       set_positions (done ++ map credited rest) s).
Proof.
  intros Hqv credited body rest.
  induction rest as [|p rest IH]; intros done s Hs.
  - cbn [for_fold map List.length]. unfold ret.
    rewrite Nat.add_0_r, <- Hs, set_positions_same. reflexivity.
  - cbn [for_fold]. unfold bind at 1.
    assert (Hstep :
      body (List.length done) p s
      = (Ok (S (List.length done)),
         set_positions (done ++ credited p :: rest) s)).
    { unfold body, credited. rewrite Hqv.
      destruct (Position.is_in_range p (close bar)).
      - unfold bind, modify, ret. rewrite Hs, setitem_app. reflexivity.
      - unfold ret. rewrite <- Hs, set_positions_same. reflexivity. }
    rewrite Hstep.
    replace (S (List.length done)) with (List.length (done ++ [credited p]))
      by (rewrite length_app; simpl; lia).
    rewrite (IH (done ++ [credited p])
                (set_positions (done ++ credited p :: rest) s)).
    + rewrite set_positions_twice, <- app_assoc. cbn [map app].
      rewrite length_app. cbn [List.length]. f_equal. f_equal. lia.
    + cbn [positions set_positions]. rewrite <- app_assoc. reflexivity.
Qed.

Lemma get_value_add_fees (p : Position.t) (fees price : Q) :
  Position.get_value (Position.add_fees p fees) price
  = Position.get_value p price.
Proof. reflexivity. Qed.

Lemma total_value_loop_credited
  (price : Q) (credit : Position.t -> Q) (credited : Position.t -> Position.t) :
  (forall p, Position.get_value (credited p) price = Position.get_value p price) ->
  (forall p, Position.fees_earned (credited p)
             == Position.fees_earned p + credit p) ->
  forall (ps : list Position.t) (total total' before : Q),
    total_value_loop total ps price = Ok before ->
    exists after,
      total_value_loop total' (map credited ps) price = Ok after /\
      after - total' == before - total + sum (map credit ps).
Proof.
  intros Hval Hfees ps.
  induction ps as [|p ps IH]; intros total total' before H;
    cbn [total_value_loop map] in *.
  - injection H as <-. eexists. split; [reflexivity|]. rewrite sum_nil. ring.
  - rewrite Hval.
    destruct (Position.get_value p price) as [[[a0 a1] v]|e]; cbn [rbind] in *;
      [|discriminate].
    destruct (IH _ (total' + (v + Position.fees_earned (credited p))) _ H)
      as [after [Hafter Heq]].
    exists after. split; [exact Hafter|].
    rewrite sum_cons. rewrite Hfees in Heq. lra.
Qed.

(** [add_fees_to_positions] on a bar that has a quote volume: every
    position whose range contains the close has its [fees_earned] raised by
    [calculate_fees_earned(quote_volume, liquidity_share, fee_tier_bps)];
    positions out of range and every other attribute of the portfolio are
    left as they were.  The portfolio's total value, at any price, rises by
    the sum of the fees credited. *)
Theorem add_fees_to_positions_credits_in_range
  (bar : Bar) (liquidity_share qv : Q) (pf : t) (price before : Q) :
  quote_volume bar = Some qv ->
  let credit := fun p =>
    if Position.is_in_range p (close bar)
    then uv3_math.calculate_fees_earned
           qv liquidity_share (Position.fee_tier_bps p)
    else 0 in
  let credited := fun p =>
    if Position.is_in_range p (close bar)
    then Position.add_fees p (credit p) else p in
  add_fees_to_positions bar liquidity_share pf
  = (Ok tt, set_positions (map credited (positions pf)) pf)
  /\
  (get_total_value pf price = Ok before ->
   exists after,
     get_total_value (set_positions (map credited (positions pf)) pf) price
     = Ok after /\
     after == before + sum (map credit (positions pf))).
Proof.
  intros Hqv credit credited. split.
  - unfold add_fees_to_positions. unfold bind at 1. unfold get at 1.
    unfold bind at 1.
    pose proof (fee_loop bar liquidity_share qv Hqv (positions pf) [] pf
                  eq_refl) as Hloop.
    cbn [List.length app Nat.add] in Hloop. rewrite Hloop.
    unfold ret. f_equal. f_equal. apply map_ext. intro p.
    unfold credited, credit, uv3_math.calculate_fees_earned.
    destruct (Position.is_in_range p (close bar)); reflexivity.
  - intro Hbefore. unfold get_total_value in *.
    cbn [positions cash set_positions].
    destruct (total_value_loop_credited price credit credited) with
      (ps := positions pf) (total := cash pf) (total' := cash pf)
      (before := before) as [after [Hafter Heq]].
    + intro p. unfold credited.
      destruct (Position.is_in_range p (close bar)); reflexivity.
    + intro p. unfold credited, credit.
      destruct (Position.is_in_range p (close bar));
        cbn [Position.add_fees Position.fees_earned]; ring.
    + exact Hbefore.
    + exists after. split; [exact Hafter|]. lra.
Qed.

(** A portfolio holding the range 1600..2500 and one bar closing inside
    it. *)
Lemma add_fees_to_positions_credits_in_range_witness :
  let bar := mkBar 0%Z 2000 2000 2000 2000 (Some 1) (Some 2000) in
  let pf := set_positions
              [Position.new 1600 2500 (float (100 * uv3_math.Q96)) 0%Z]
              (Portfolio.new 10000 5 1 0) in
  let credit := fun p =>
    if Position.is_in_range p (close bar)
    then uv3_math.calculate_fees_earned 2000 (2 # 1000) (Position.fee_tier_bps p)
    else 0 in
  let credited := fun p =>
    if Position.is_in_range p (close bar)
    then Position.add_fees p (credit p) else p in
  add_fees_to_positions bar (2 # 1000) pf
  = (Ok tt, set_positions (map credited (positions pf)) pf).
Proof.
  intros bar pf credit credited.
  apply (proj1 (add_fees_to_positions_credits_in_range
                  bar (2 # 1000) 2000 pf 2500 0 eq_refl)).
Defined.

End PortfolioFees.

Section PortfolioFeesMissingColumn.

Import data.
Import portfolio.
Import Portfolio.

(** [add_fees_to_positions] on a bar without a quote volume: the lookup of
    the missing column is only reached for a position whose range contains
    the close, so the call raises [KeyError] exactly when there is such a
    position; either way the portfolio is left unchanged. *)
Theorem add_fees_to_positions_without_quote_volume
  (bar : Bar) (liquidity_share : Q) (pf : t) :
  quote_volume bar = None ->
  add_fees_to_positions bar liquidity_share pf
  = (if existsb (fun p => Position.is_in_range p (close bar)) (positions pf)
     then Raise KeyError else Ok tt,
     pf).
Proof.
  intro Hqv. unfold add_fees_to_positions.
  unfold bind at 1. unfold get at 1. unfold bind at 1.
  rewrite Hqv.
  generalize 0%nat as i. generalize (positions pf) as ps.
  induction ps as [|p ps IH]; intro i; cbn [for_fold existsb].
  - reflexivity.
  - unfold bind at 1.
    destruct (Position.is_in_range p (close bar)); cbn [orb].
    + reflexivity.
    + unfold ret at 1. apply IH.
Qed.

(** A bar that has a volume but no quote volume, and a position in range. *)
Lemma add_fees_to_positions_without_quote_volume_witness :
  let bar := mkBar 0%Z 2000 2000 2000 2000 (Some 1) None in
  let pf := set_positions
              [Position.new 1600 2500 (float (100 * uv3_math.Q96)) 0%Z]
              (Portfolio.new 10000 5 1 0) in
  add_fees_to_positions bar (2 # 1000) pf = (Raise KeyError, pf).
Proof.
  intros bar pf.
  apply (add_fees_to_positions_without_quote_volume bar (2 # 1000) pf eq_refl).
Defined.

End PortfolioFeesMissingColumn.

Section PortfolioWeights.

Import portfolio.
Import Portfolio.

Lemma rmap_length {X Y} (f : X -> result Y) (xs : list X) (ys : list Y) :
  rmap f xs = Ok ys -> List.length ys = List.length xs.
Proof.
  revert ys. induction xs as [|x xs IH]; intros ys H; cbn [rmap] in H.
  - injection H as <-. reflexivity.
  - destruct (f x) as [y|e]; cbn [rbind] in H; [|discriminate].
    destruct (rmap f xs) as [ys'|e]; cbn [rbind] in H; [|discriminate].
    injection H as <-. cbn [List.length]. rewrite (IH ys' eq_refl). reflexivity.
Qed.

Lemma map_fst_combine {X Y} (xs : list X) (ys : list Y) :
  List.length xs = List.length ys -> map fst (combine xs ys) = xs.
Proof.
  revert ys. induction xs as [|x xs IH]; intros [|y ys] H;
    cbn [combine map List.length] in *; try discriminate; [reflexivity|].
  cbn [fst]. rewrite IH by lia. reflexivity.
Qed.

Lemma map_snd_combine {X Y} (xs : list X) (ys : list Y) :
  List.length xs = List.length ys -> map snd (combine xs ys) = ys.
Proof.
  revert ys. induction xs as [|x xs IH]; intros [|y ys] H;
    cbn [combine map List.length] in *; try discriminate; [reflexivity|].
  cbn [snd]. rewrite IH by lia. reflexivity.
Qed.

(** The weight loop over the positions numbered from [k]. *)
Lemma weights_loop (price total : Q) (ps : list Position.t) :
  forall (k : nat) (vs : list Q),
    rmap (fun position =>
            (v <~ Position.get_value position price ;;
             let '(_, _, value) := v in
             Ok (value + Position.fees_earned position))%py) ps = Ok vs ->
    rmap (fun ip : nat * Position.t =>
            let '(i, position) := ip in
            (v <~ Position.get_value position price ;;
             let '(_, _, position_value) := v in
             let position_total :=
               position_value + Position.fees_earned position in
             Ok (i, if Qltb 0 total then position_total / total else 0))%py)
         (combine (seq k (List.length ps)) ps)
    = Ok (combine (seq k (List.length ps))
                  (map (fun v => if Qltb 0 total then v / total else 0) vs)).
Proof.
  induction ps as [|p ps IH]; intros k vs H;
    cbn [rmap List.length seq combine] in *.
  - injection H as <-. reflexivity.
  - destruct (Position.get_value p price) as [[[a0 a1] v]|e];
      cbn [rbind] in *; [|discriminate].
    destruct (rmap _ ps) as [vs'|e] eqn:E; cbn [rbind] in H; [|discriminate].
    injection H as <-.
    rewrite (IH (S k) vs' eq_refl). reflexivity.
Qed.

Lemma sum_scaled (xs : list Q) (c : Q) :
  sum (map (fun v => v / c) xs) == sum xs / c.
Proof.
  induction xs as [|x xs IH]; cbn [map].
  - rewrite !sum_nil. unfold Qdiv. ring.
  - rewrite !sum_cons, IH. unfold Qdiv. ring.
Qed.

(** [get_position_weights] returns one weight per position, keyed by the
    position's index.  When the total value is positive the weights add up
    to the share of the portfolio that is not cash; when it is not, every
    weight is 0. *)
Theorem position_weights_sum (pf : t) (price total : Q) :
  get_total_value pf price = Ok total ->
  exists weights,
    get_position_weights pf price = Ok weights /\
    map fst weights = seq 0 (List.length (positions pf)) /\
    (0 < total -> sum (map snd weights) == 1 - cash pf / total) /\
    (total <= 0 -> forall w, In w weights -> snd w = 0).
Proof.
  intro Htotal.
  pose proof Htotal as Hvalues. rewrite get_total_value_values in Hvalues.
  destruct (current_values pf price) as [vs|e] eqn:Evs; cbn [rbind] in Hvalues;
    [|discriminate].
  injection Hvalues as Htot.
  unfold get_position_weights. rewrite Htotal. cbn [rbind].
  unfold enumerate, current_values in *.
  pose proof (weights_loop price total (positions pf) 0 vs Evs) as Hloop.
  cbv zeta in Hloop |- *. rewrite Hloop.
  eexists. split; [reflexivity|].
  pose proof (rmap_length _ _ _ Evs) as Hlen.
  split; [|split].
  - rewrite map_fst_combine; [reflexivity|].
    rewrite length_seq, length_map. symmetry. exact Hlen.
  - intro Hpos.
    rewrite map_snd_combine
      by (rewrite length_seq, length_map; symmetry; exact Hlen).
    apply Qltb_true in Hpos as Hb. rewrite Hb.
    rewrite sum_scaled.
    assert (Hsum : total == cash pf + sum vs)
      by (rewrite <- Htot; apply fold_plus_shift).
    assert (Hnz : ~ total == 0) by lra.
    setoid_replace (sum vs) with (total - cash pf) by lra.
    field. exact Hnz.
  - intros Hle w Hw.
    apply Qltb_false in Hle. rewrite Hle in Hw.
    destruct w as [i x]. apply in_combine_r in Hw. apply in_map_iff in Hw.
    destruct Hw as [v [Hv _]]. symmetry. exact Hv.
Qed.

(** A portfolio of 9000 in cash and one position, valued at the upper
    bound of its range. *)
Lemma position_weights_sum_witness :
  let pf := set_positions
              [Position.new 1600 2500 (float (100 * uv3_math.Q96)) 0%Z]
              (Portfolio.new 9000 5 1 0) in
  let total := match get_total_value pf 2500 with
               | Ok v => v
               | Raise _ => 0
               end in
  total == 10000 /\
  exists weights,
    get_position_weights pf 2500 = Ok weights /\
    map fst weights = seq 0 (List.length (positions pf)) /\
    (0 < total -> sum (map snd weights) == 1 - cash pf / total) /\
    (total <= 0 -> forall w, In w weights -> snd w = 0).
Proof.
  intros pf total. split; [vm_compute; reflexivity|].
  apply (position_weights_sum pf 2500 total).
  vm_compute. reflexivity.
Defined.

End PortfolioWeights.

(** ** steerbt/portfolio.py: the baseline portfolios *)

Section BaselineAllocation.

Import portfolio.
Import BaselinePortfolio.

Lemma initialize_position_hodl (self : t) (p : Q) :
  strategy self = "hodl_50_50"%string -> ~ p == 0 ->
  initialize_position p self
  = (Ok tt, mk (initial_cash self) 0 (strategy self) (cash self / 2 / p)
               (cash self / 2) (equity_curve self)).
Proof.
  intros Hs Hp. unfold initialize_position.
  unfold bind at 1. unfold get at 1. rewrite Hs. cbn [String.eqb Ascii.eqb Bool.eqb].
  unfold bind, lift. rewrite truediv_ok by exact Hp. reflexivity.
Qed.

Lemma initialize_position_single (self : t) (p : Q) :
  strategy self = "single_asset"%string -> ~ p == 0 ->
  initialize_position p self
  = (Ok tt, mk (initial_cash self) 0 (strategy self) (cash self / p) 0
               (equity_curve self)).
Proof.
  intros Hs Hp. unfold initialize_position.
  unfold bind at 1. unfold get at 1. rewrite Hs. cbn [String.eqb Ascii.eqb Bool.eqb].
  unfold bind, lift. rewrite truediv_ok by exact Hp. reflexivity.
Qed.

(** [initialize_position] turns the cash of a baseline portfolio into
    holdings at the given price, for a price that is not zero.  The cash
    becomes 0 and the holdings are worth, at that price, exactly the cash
    there was: split half and half by value for [hodl_50_50], all in
    token0 for [single_asset].  Amounts held before the call are
    overwritten, so a second call, finding no cash, leaves a portfolio
    worth nothing at any price.  With any other strategy name the call
    does nothing. *)
Theorem initialize_position_allocates_cash (self : t) (p : Q) :
  (strategy self = "hodl_50_50"%string \/ strategy self = "single_asset"%string ->
   ~ p == 0 ->
   exists self',
     initialize_position p self = (Ok tt, self') /\
     cash self' = 0 /\
     get_value self' p == cash self /\
     (strategy self = "hodl_50_50"%string -> amount0 self' * p == amount1 self') /\
     (strategy self = "single_asset"%string -> amount1 self' = 0) /\
     exists self'',
       initialize_position p self' = (Ok tt, self'') /\
       forall q, get_value self'' q == 0)
  /\
  (strategy self <> "hodl_50_50"%string ->
   strategy self <> "single_asset"%string ->
   initialize_position p self = (Ok tt, self)).
Proof.
  split.
  - intros [Hs|Hs] Hp.
    + rewrite (initialize_position_hodl self p Hs Hp).
      eexists. split; [reflexivity|].
      split; [reflexivity|].
      split; [unfold get_value; cbn [amount0 amount1 cash]; field; exact Hp|].
      split; [intros _; cbn [amount0 amount1]; field; exact Hp|].
      split; [intro H; rewrite Hs in H; discriminate|].
      rewrite initialize_position_hodl by (cbn [strategy]; assumption).
      eexists. split; [reflexivity|].
      intro q. unfold get_value. cbn [amount0 amount1 cash]. field. exact Hp.
    + rewrite (initialize_position_single self p Hs Hp).
      eexists. split; [reflexivity|].
      split; [reflexivity|].
      split; [unfold get_value; cbn [amount0 amount1 cash]; field; exact Hp|].
      split; [intro H; rewrite Hs in H; discriminate|].
      split; [reflexivity|].
      rewrite initialize_position_single by (cbn [strategy]; assumption).
      eexists. split; [reflexivity|].
      intro q. unfold get_value. cbn [amount0 amount1 cash]. field. exact Hp.
  - intros H1 H2. unfold initialize_position.
    unfold bind at 1. unfold get at 1.
    apply String.eqb_neq in H1, H2. rewrite H1, H2. reflexivity.
Qed.

(** A fresh 50:50 baseline of 10000 initialised at price 2000. *)
Lemma initialize_position_allocates_cash_witness :
  exists self',
    initialize_position 2000 (new 10000 "hodl_50_50") = (Ok tt, self') /\
    cash self' = 0 /\
    get_value self' 2000 == cash (new 10000 "hodl_50_50") /\
    (strategy (new 10000 "hodl_50_50") = "hodl_50_50"%string ->
     amount0 self' * 2000 == amount1 self') /\
    (strategy (new 10000 "hodl_50_50") = "single_asset"%string ->
     amount1 self' = 0) /\
    exists self'',
      initialize_position 2000 self' = (Ok tt, self'') /\
      forall q, get_value self'' q == 0.
Proof.
  apply (proj1 (initialize_position_allocates_cash
                  (new 10000 "hodl_50_50") 2000)).
  - left. reflexivity.
  - vm_compute. congruence.
Defined.

(** Once initialised, the 50:50 baseline holds no cash, so rebalancing it
    at a later positive price keeps its value at that price and leaves the
    two holdings equal in value. *)
Theorem hodl_rebalance_after_initialize (initial_cash initial_price price : Q) :
  ~ initial_price == 0 -> 0 < price ->
  exists initialized rebalanced,
    initialize_position initial_price (new initial_cash "hodl_50_50")
    = (Ok tt, initialized) /\
    rebalance_to_50_50 price initialized = (Ok tt, rebalanced) /\
    get_value rebalanced price == get_value initialized price /\
    amount0 rebalanced * price == amount1 rebalanced /\
    cash rebalanced = 0.
Proof.
  intros Hp0 Hp.
  rewrite initialize_position_hodl by (try reflexivity; exact Hp0).
  match goal with
  | |- exists _ _, (_, ?s) = _ /\ _ =>
      destruct (rebalance_to_50_50_without_cash s price Hp)
        as [s' [Hr [Hv [Hsplit Hcash]]]];
      [reflexivity | reflexivity |];
      exists s, s'
  end.
  split; [reflexivity|]. split; [exact Hr|].
  split; [exact Hv|]. split; [exact Hsplit|]. rewrite Hcash. reflexivity.
Qed.

(** A baseline of 10000 opened at 2000 and rebalanced at 2500. *)
Lemma hodl_rebalance_after_initialize_witness :
  exists initialized rebalanced,
    initialize_position 2000 (new 10000 "hodl_50_50") = (Ok tt, initialized) /\
    rebalance_to_50_50 2500 initialized = (Ok tt, rebalanced) /\
    get_value rebalanced 2500 == get_value initialized 2500 /\
    amount0 rebalanced * 2500 == amount1 rebalanced /\
    cash rebalanced = 0.
Proof.
  apply (hodl_rebalance_after_initialize 10000 2000 2500);
    vm_compute; congruence.
Defined.

End BaselineAllocation.

(** ** steerbt/portfolio.py: the equity frame *)

Section EquityFrame.

Import portfolio.
Import Portfolio.

(** The running maximum paired with each point, when the maximum so far is
    [m]: it is at least [m] and at least the point's value, and it is the
    point's value when that value is at least [m] and at least every
    earlier value. *)
Lemma running_max_spec (pts : list EquityPoint) :
  forall (m : Q) (i : nat) (pt : EquityPoint) (r : Q),
    nth_error (zip pts (expanding_max_from m (map ep_total_value pts))) i
    = Some (pt, r) ->
    nth_error pts i = Some pt /\
    ep_total_value pt <= r /\ m <= r /\
    (m <= ep_total_value pt ->
     (forall j pt', (j < i)%nat -> nth_error pts j = Some pt' ->
                    ep_total_value pt' <= ep_total_value pt) ->
     r == ep_total_value pt).
Proof.
  unfold zip.
  induction pts as [|p pts IH]; intros m i pt r H;
    cbn [map expanding_max_from combine] in H.
  - destruct i; discriminate.
  - destruct i as [|i]; cbn [nth_error] in *.
    + injection H as <- <-.
      split; [reflexivity|].
      split; [apply Q.le_max_r|].
      split; [apply Q.le_max_l|].
      intros Hm _. apply Q.max_r. exact Hm.
    + destruct (IH _ _ _ _ H) as [Hpt [Hv [Hm Hhigh]]].
      split; [exact Hpt|].
      split; [exact Hv|].
      split.
      * apply Qle_trans with (Qmax m (ep_total_value p)); [apply Q.le_max_l|exact Hm].
      * intros Hmv Hearlier. apply Hhigh.
        -- apply Q.max_lub; [exact Hmv|].
           apply (Hearlier 0%nat p); [lia | reflexivity].
        -- intros j pt' Hj Hpt'. apply (Hearlier (S j) pt'); [lia | exact Hpt'].
Qed.

Lemma expanding_max_from_length (xs : list Q) :
  forall m, List.length (expanding_max_from m xs) = List.length xs.
Proof.
  induction xs as [|x xs IH]; intro m; cbn [expanding_max_from List.length].
  - reflexivity.
  - rewrite IH. reflexivity.
Qed.

Lemma expanding_max_length (xs : list Q) :
  List.length (expanding_max xs) = List.length xs.
Proof.
  destruct xs as [|x xs]; cbn [expanding_max List.length];
    [reflexivity | rewrite expanding_max_from_length; reflexivity].
Qed.

(** The same for the whole series. *)
Lemma expanding_max_spec (pts : list EquityPoint) (i : nat)
  (pt : EquityPoint) (r : Q) :
  nth_error (zip pts (expanding_max (map ep_total_value pts))) i = Some (pt, r) ->
  nth_error pts i = Some pt /\
  ep_total_value pt <= r /\
  ((forall j pt', (j < i)%nat -> nth_error pts j = Some pt' ->
                  ep_total_value pt' <= ep_total_value pt) ->
   r == ep_total_value pt).
Proof.
  destruct pts as [|p pts]; cbn [map expanding_max zip combine].
  - destruct i; discriminate.
  - destruct i as [|i]; cbn [nth_error].
    + intro H. injection H as <- <-.
      split; [reflexivity|]. split; [apply Qle_refl|]. intros _. reflexivity.
    + intro H. destruct (running_max_spec pts _ _ _ _ H) as [Hpt [Hv [Hm Hhigh]]].
      split; [exact Hpt|]. split; [exact Hv|].
      intro Hearlier. apply Hhigh.
      * apply (Hearlier 0%nat p); [lia | reflexivity].
      * intros j pt' Hj Hpt'. apply (Hearlier (S j) pt'); [lia | exact Hpt'].
Qed.

(** The frame built by [get_equity_dataframe] has one row per recorded
    point, in order; an empty curve gives an empty frame.  When every
    recorded total value is positive, the drawdown column is never
    positive, stays above -100, and is zero on every row whose value is at
    least as high as all the values before it (the first row among
    them). *)
Theorem equity_dataframe_drawdown (pf : t) :
  (forall pt, In pt (equity_curve pf) -> 0 < ep_total_value pt) ->
  let df := get_equity_dataframe pf in
  map row_point df = equity_curve pf /\
  (forall row, In row df -> -(100) < row_drawdown row /\ row_drawdown row <= 0) /\
  (forall i row,
     nth_error df i = Some row ->
     (forall j pt, (j < i)%nat -> nth_error (equity_curve pf) j = Some pt ->
                   ep_total_value pt <= ep_total_value (row_point row)) ->
     row_drawdown row == 0).
Proof.
  intros Hpos df. unfold df, get_equity_dataframe.
  set (pts := equity_curve pf) in *.
  set (running := expanding_max (map ep_total_value pts)).
  assert (Hlen : List.length pts = List.length running).
  { unfold running. rewrite expanding_max_length, length_map. reflexivity. }
  assert (Hrow : forall i row,
             nth_error
               (map (fun pm : EquityPoint * Q =>
                       let '(point, running_max) := pm in
                       mkEquityRow point
                         ((ep_total_value point / initial_cash pf - 1) * 100)
                         ((ep_total_value point / running_max - 1) * 100))
                    (zip pts running)) i = Some row ->
             exists pt r,
               nth_error (zip pts running) i = Some (pt, r) /\
               row_point row = pt /\
               row_drawdown row = (ep_total_value pt / r - 1) * 100).
  { intros i row H. rewrite nth_error_map in H.
    destruct (nth_error (zip pts running) i) as [[pt r]|]; [|discriminate].
    injection H as <-. exists pt, r. repeat split. }
  split; [|split].
  - rewrite map_map.
    rewrite <- (map_fst_combine pts running Hlen) at 2.
    apply map_ext. intros [pt r]. reflexivity.
  - intros row Hin. apply In_nth_error in Hin. destruct Hin as [i Hi].
    destruct (Hrow i row Hi) as [pt [r [Hz [_ ->]]]].
    destruct (expanding_max_spec pts i pt r Hz) as [Hpt [Hv _]].
    assert (Hvp : 0 < ep_total_value pt)
      by (apply Hpos; eapply nth_error_In; exact Hpt).
    assert (Hr : 0 < r) by lra.
    assert (Hq : 0 < ep_total_value pt / r)
      by (apply Qlt_shift_div_l; [exact Hr | lra]).
    assert (Hq1 : ep_total_value pt / r <= 1)
      by (apply Qle_shift_div_r; [exact Hr | lra]).
    split; lra.
  - intros i row Hi Hhigh.
    destruct (Hrow i row Hi) as [pt [r [Hz [Hp ->]]]].
    destruct (expanding_max_spec pts i pt r Hz) as [Hpt [Hv Heq]].
    rewrite Hp in Hhigh. specialize (Heq Hhigh).
    assert (Hvp : 0 < ep_total_value pt)
      by (apply Hpos; eapply nth_error_In; exact Hpt).
    rewrite Heq. field. lra.
Qed.

(** An equity curve of three points worth 100, 80 and 120. *)
Lemma equity_dataframe_drawdown_witness :
  let pf := set_equity_curve
              [mkEquityPoint 0%Z 2000 100 100 0 0 0;
               mkEquityPoint 3600%Z 1900 80 80 0 0 0;
               mkEquityPoint 7200%Z 2100 120 120 0 0 0]
              (Portfolio.new 100 5 1 0) in
  let df := get_equity_dataframe pf in
  map row_point df = equity_curve pf /\
  (forall row, In row df -> -(100) < row_drawdown row /\ row_drawdown row <= 0) /\
  (forall i row,
     nth_error df i = Some row ->
     (forall j pt, (j < i)%nat -> nth_error (equity_curve pf) j = Some pt ->
                   ep_total_value pt <= ep_total_value (row_point row)) ->
     row_drawdown row == 0).
Proof.
  intro pf. apply (equity_dataframe_drawdown pf).
  intros pt [<-|[<-|[<-|[]]]]; reflexivity.
Defined.

End EquityFrame.

(** ** steerbt/triggers.py: the stateful triggers *)

Section OneWayExit.

Import triggers.

(** An armed trigger whose count is [c]: after [i + 1] further calls the
    count is between 0 and [c + i + 1], the call returns whether it has
    reached [consecutive_bars], and the count is [c + i + 1] when every
    move so far counted for the direction. *)
Lemma one_way_exit_armed (b : TriggerBase) (direction : string) (k : Z) :
  forall (states : list State) (c : Z) (last : Q),
    (0 <= c)%Z ->
    let results :=
      fst (calls (OneWayExitTrigger b direction k c (Some last)) states) in
    let prices := last :: map current_price states in
    List.length results = List.length states /\
    forall i r,
      nth_error results i = Some r ->
      exists c',
        r = Ok (k <=? c')%Z /\ (0 <= c' <= c + Z.of_nat i + 1)%Z /\
        ((forall j p q, (j <= i)%nat ->
                        nth_error prices j = Some p ->
                        nth_error prices (S j) = Some q ->
                        (String.eqb direction "up" && Qltb p q)
                        || (String.eqb direction "down" && Qltb q p)
                        = true) ->
         c' = (c + Z.of_nat i + 1)%Z) /\
        (direction <> "up"%string -> direction <> "down"%string -> c' = 0%Z).
Proof.
  induction states as [|st states IH]; intros c last Hc results prices.
  - split; [reflexivity|]. intros i r H. destruct i; discriminate.
  - unfold results. cbn [calls should_trigger].
    set (c1 := if String.eqb direction "up" && Qltb last (current_price st)
               then (c + 1)%Z
               else if String.eqb direction "down"
                       && Qltb (current_price st) last
               then (c + 1)%Z else 0%Z).
    assert (Hc1 : (0 <= c1 <= c + 1)%Z).
    { unfold c1.
      destruct (String.eqb direction "up" && Qltb last (current_price st));
        [lia|].
      destruct (String.eqb direction "down" && Qltb (current_price st) last);
        lia. }
    assert (Hconf :
      (String.eqb direction "up" && Qltb last (current_price st))
      || (String.eqb direction "down" && Qltb (current_price st) last)
      = true -> c1 = (c + 1)%Z).
    { unfold c1. intro H.
      destruct (String.eqb direction "up" && Qltb last (current_price st));
        [reflexivity|].
      cbn [orb] in H. rewrite H. reflexivity. }
    assert (Hother : direction <> "up"%string -> direction <> "down"%string ->
                     c1 = 0%Z).
    { intros H1 H2. unfold c1.
      apply String.eqb_neq in H1, H2. rewrite H1, H2. reflexivity. }
    clearbody c1.
    destruct (IH c1 (current_price st) (proj1 Hc1)) as [Hlen Hres].
    destruct (calls (OneWayExitTrigger b direction k c1
                       (Some (current_price st))) states)
      as [rs final] eqn:E.
    cbn [fst] in *. split; [cbn [List.length]; rewrite Hlen; reflexivity|].
    intros i r Hi. destruct i as [|i]; cbn [nth_error] in Hi.
    + injection Hi as <-. exists c1.
      split; [reflexivity|]. split; [lia|]. split; [|exact Hother].
      intro Hall. rewrite Hconf; [lia|].
      apply (Hall 0%nat last (current_price st)); [lia | reflexivity | reflexivity].
    + destruct (Hres i r Hi) as [c' [Hr [Hb [Hrun Hoth]]]].
      exists c'. split; [exact Hr|]. split; [lia|]. split; [|exact Hoth].
      intro Hall.
      assert (c1 = (c + 1)%Z) as ->.
      { apply Hconf.
        apply (Hall 0%nat last (current_price st)); [lia | reflexivity | reflexivity]. }
      rewrite Hrun; [lia|].
      intros j p q Hj Hp Hq. apply (Hall (S j) p q); [lia | exact Hp | exact Hq].
Qed.

(** [OneWayExitTrigger], called once per bar from a fresh object with
    [consecutive_bars >= 1].  One value is returned per call.  The first
    [consecutive_bars] calls never fire, whatever the prices.  On strictly
    falling prices with direction ["down"], or strictly rising prices with
    direction ["up"], the call number [i] (counted from 0) fires exactly
    when [consecutive_bars <= i]; the count is not reset by a firing.  With
    any other direction string the trigger never fires. *)
Theorem one_way_exit_counts_consecutive_moves
  (b : TriggerBase) (direction : string) (k : Z) (states : list State) :
  (1 <= k)%Z ->
  let prices := map current_price states in
  let results := fst (calls (OneWayExitTrigger b direction k 0 None) states) in
  List.length results = List.length states /\
  (forall i r, nth_error results i = Some r -> (Z.of_nat i < k)%Z ->
               r = Ok false) /\
  ((direction = "down"%string /\
    forall i p q, nth_error prices i = Some p ->
                  nth_error prices (S i) = Some q -> q < p) \/
   (direction = "up"%string /\
    forall i p q, nth_error prices i = Some p ->
                  nth_error prices (S i) = Some q -> p < q) ->
   forall i r, nth_error results i = Some r -> r = Ok (k <=? Z.of_nat i)%Z) /\
  (direction <> "up"%string -> direction <> "down"%string ->
   forall i r, nth_error results i = Some r -> r = Ok false).
Proof.
  intros Hk prices results.
  destruct states as [|st states].
  - split; [reflexivity|].
    split; [intros i r H; destruct i; discriminate|].
    split; [intros _ i r H; destruct i; discriminate|].
    intros _ _ i r H; destruct i; discriminate.
  - unfold results, prices. cbn [calls should_trigger map].
    destruct (one_way_exit_armed b direction k states 0 (current_price st))
      as [Hlen Hres]; [lia|].
    destruct (calls (OneWayExitTrigger b direction k 0
                       (Some (current_price st))) states)
      as [rs final] eqn:E.
    cbn [fst] in *.
    split; [cbn [List.length]; rewrite Hlen; reflexivity|].
    split; [|split].
    + intros i r Hi Hik. destruct i as [|i]; cbn [nth_error] in Hi.
      * injection Hi as <-. reflexivity.
      * destruct (Hres i r Hi) as [c' [-> [Hb _]]].
        f_equal. apply Z.leb_gt. lia.
    + intros Hmono i r Hi. destruct i as [|i]; cbn [nth_error] in Hi.
      * injection Hi as <-. f_equal. symmetry. apply Z.leb_gt. lia.
      * destruct (Hres i r Hi) as [c' [-> [_ [Hrun _]]]].
        rewrite Hrun; [f_equal; f_equal; lia|].
        intros j p q _ Hp Hq.
        destruct Hmono as [[-> Hfall]|[-> Hrise]].
        -- cbn [String.eqb Ascii.eqb Bool.eqb andb orb].
           apply Qltb_true. apply (Hfall j p q Hp Hq).
        -- cbn [String.eqb Ascii.eqb Bool.eqb andb orb].
           apply orb_true_iff. left. apply Qltb_true.
           apply (Hrise j p q Hp Hq).
    + intros H1 H2 i r Hi. destruct i as [|i]; cbn [nth_error] in Hi.
      * injection Hi as <-. reflexivity.
      * destruct (Hres i r Hi) as [c' [-> [_ [_ Hoth]]]].
        rewrite (Hoth H1 H2). f_equal. apply Z.leb_gt. lia.
Qed.

(** Five falling prices and a trigger that needs three moves down. *)
Lemma one_way_exit_counts_consecutive_moves_witness :
  let states :=
    map (fun p => mkState p 2000 1900 2100 10000 None)
        [2000; 1990; 1980; 1970; 1960] in
  let prices := map current_price states in
  let results := fst (calls (OneWayExitTrigger base0 "down" 3 0 None) states) in
  List.length results = List.length states /\
  (forall i r, nth_error results i = Some r -> (Z.of_nat i < 3)%Z ->
               r = Ok false) /\
  (("down"%string = "down"%string /\
    forall i p q, nth_error prices i = Some p ->
                  nth_error prices (S i) = Some q -> q < p) \/
   ("down"%string = "up"%string /\
    forall i p q, nth_error prices i = Some p ->
                  nth_error prices (S i) = Some q -> p < q) ->
   forall i r, nth_error results i = Some r -> r = Ok (3 <=? Z.of_nat i)%Z) /\
  ("down"%string <> "up"%string -> "down"%string <> "down"%string ->
   forall i r, nth_error results i = Some r -> r = Ok false).
Proof.
  intro states.
  apply (one_way_exit_counts_consecutive_moves base0 "down" 3 states). lia.
Defined.

End OneWayExit.

Section VolatilityWindow.

Import triggers.

Lemma lastn_length {X} (n : nat) (xs : list X) :
  List.length (lastn n xs) = Nat.min (List.length xs) n.
Proof. unfold lastn. rewrite length_skipn. lia. Qed.

Lemma lastn_snoc {X} (n : nat) (xs : list X) (x : X) :
  (1 <= n)%nat -> lastn n (lastn n xs ++ [x]) = lastn n (xs ++ [x]).
Proof.
  intro Hn. unfold lastn. rewrite !length_app, length_skipn. cbn [List.length].
  destruct (Nat.le_gt_cases (List.length xs) n) as [Hle|Hgt].
  - replace (List.length xs - n)%nat with 0%nat by lia.
    cbn [skipn]. rewrite Nat.sub_0_r. reflexivity.
  - replace (List.length xs - (List.length xs - n) + 1 - n)%nat with 1%nat by lia.
    replace (List.length xs + 1 - n)%nat with (S (List.length xs - n)) by lia.
    rewrite (skipn_app (S (List.length xs - n)) xs [x]).
    replace (S (List.length xs - n) - List.length xs)%nat with 0%nat by lia.
    cbn [skipn].
    rewrite <- (firstn_skipn (List.length xs - n) xs) at 3.
    set (m := (List.length xs - n)%nat).
    assert (Hm : (m < List.length xs)%nat) by (unfold m; lia).
    clearbody m.
    clear Hgt Hn. revert m Hm.
    induction xs as [|y ys IH]; intros m Hm; cbn [List.length] in Hm; [lia|].
    destruct m as [|m].
    + cbn [skipn firstn app]. reflexivity.
    + cbn [skipn firstn app].
      destruct ys as [|z zs].
      * cbn [List.length] in Hm. lia.
      * rewrite <- (IH m) by (cbn [List.length] in *; lia).
        cbn [skipn]. destruct m; reflexivity.
Qed.

(** One call: the history becomes the last [n] of the history extended by
    the current price. *)
Lemma volatility_step (b : TriggerBase) (vol : list Q -> Q) (thr : Q)
  (n : Z) (history : list Q) (st : State) :
  (1 <= n)%Z -> (Z.of_nat (List.length history) <= n)%Z ->
  let window := lastn (Z.to_nat n) (history ++ [current_price st]) in
  should_trigger (VolatilityTrigger b vol thr n history) st
  = (Ok (if (Z.of_nat (List.length window) <? n)%Z then false
         else Qle_bool thr (vol window)),
     VolatilityTrigger b vol thr n window).
Proof.
  intros Hn Hlen window. cbn [should_trigger].
  assert (Hw : (if (n <? Z.of_nat (List.length (history ++ [current_price st])))%Z
                then tl (history ++ [current_price st])
                else history ++ [current_price st]) = window).
  { unfold window, lastn. rewrite length_app. cbn [List.length].
    destruct (n <? Z.of_nat (List.length history + 1))%Z eqn:E.
    - apply Z.ltb_lt in E.
      replace (List.length history + 1 - Z.to_nat n)%nat with 1%nat by lia.
      destruct (history ++ [current_price st]); reflexivity.
    - apply Z.ltb_ge in E.
      replace (List.length history + 1 - Z.to_nat n)%nat with 0%nat by lia.
      reflexivity. }
  rewrite Hw.
  destruct (Z.of_nat (List.length window) <? n)%Z; reflexivity.
Qed.

Lemma volatility_calls (b : TriggerBase) (vol : list Q -> Q) (thr : Q) (n : Z) :
  (1 <= n)%Z ->
  forall (states : list State) (seen : list Q),
    let test := fun window =>
      if (Z.of_nat (List.length window) <? n)%Z then false
      else Qle_bool thr (vol window) in
    let prices := map current_price states in
    let outcome :=
      calls (VolatilityTrigger b vol thr n (lastn (Z.to_nat n) seen)) states in
    snd outcome
    = VolatilityTrigger b vol thr n (lastn (Z.to_nat n) (seen ++ prices)) /\
    List.length (fst outcome) = List.length states /\
    forall i r,
      nth_error (fst outcome) i = Some r ->
      r = Ok (test (lastn (Z.to_nat n) (seen ++ firstn (S i) prices))).
Proof.
  intros Hn states.
  induction states as [|st states IH]; intros seen test prices outcome.
  - unfold outcome, prices. cbn [calls map fst snd]. rewrite app_nil_r.
    split; [reflexivity|]. split; [reflexivity|].
    intros i r H. destruct i; discriminate.
  - unfold outcome, prices. cbn [calls map].
    rewrite volatility_step; [|exact Hn|].
    2:{ rewrite lastn_length. lia. }
    rewrite lastn_snoc by lia.
    destruct (IH (seen ++ [current_price st])) as [Hfinal [Hlen Hres]].
    destruct (calls (VolatilityTrigger b vol thr n
                       (lastn (Z.to_nat n) (seen ++ [current_price st])))
                    states) as [rs final] eqn:E.
    cbn [fst snd] in *.
    split; [rewrite Hfinal, <- app_assoc; reflexivity|].
    split; [cbn [List.length]; rewrite Hlen; reflexivity|].
    intros i r Hi. destruct i as [|i]; cbn [nth_error] in Hi.
    + injection Hi as <-. cbn [firstn]. reflexivity.
    + rewrite (Hres i r Hi), <- app_assoc. reflexivity.
Qed.

(** [VolatilityTrigger] keeps a sliding window.  Called once per bar from
    an empty history with [lookback_periods >= 1], it holds after every
    call the last [lookback_periods] prices seen (all of them while there
    are fewer); a call returns False while the window is shorter than
    [lookback_periods], and afterwards compares the volatility of the
    window with the threshold. *)
Theorem volatility_trigger_sliding_window
  (b : TriggerBase) (vol : list Q -> Q) (thr : Q) (n : Z) (states : list State) :
  (1 <= n)%Z ->
  let prices := map current_price states in
  let window := fun i : nat =>
    skipn (S i - Z.to_nat n) (firstn (S i) prices) in
  let outcome := calls (VolatilityTrigger b vol thr n []) states in
  snd outcome
  = VolatilityTrigger b vol thr n
      (skipn (List.length prices - Z.to_nat n) prices) /\
  List.length (fst outcome) = List.length states /\
  forall i r,
    nth_error (fst outcome) i = Some r ->
    List.length (window i) = Nat.min (S i) (Z.to_nat n) /\
    r = Ok (if (Z.of_nat (S i) <? n)%Z then false
            else Qle_bool thr (vol (window i))).
Proof.
  intros Hn prices window outcome.
  destruct (volatility_calls b vol thr n Hn states []) as [Hfinal [Hlen Hres]].
  change (lastn (Z.to_nat n) []) with (@nil Q) in *.
  fold outcome in Hfinal, Hlen, Hres. cbn [app] in *.
  split; [exact Hfinal|]. split; [exact Hlen|].
  intros i r Hi.
  assert (Hi' : (i < List.length states)%nat).
  { rewrite <- Hlen. apply nth_error_Some. rewrite Hi. discriminate. }
  assert (Hfirst : List.length (firstn (S i) prices) = S i).
  { rewrite length_firstn. unfold prices. rewrite length_map. lia. }
  assert (Hw : lastn (Z.to_nat n) (firstn (S i) (map current_price states))
               = window i).
  { unfold lastn, window. fold prices. rewrite Hfirst. reflexivity. }
  split.
  - rewrite <- Hw, lastn_length. fold prices. rewrite Hfirst. reflexivity.
  - rewrite (Hres i r Hi), Hw.
    assert (Hwl : List.length (window i) = Nat.min (S i) (Z.to_nat n)).
    { rewrite <- Hw, lastn_length. fold prices. rewrite Hfirst. reflexivity. }
    rewrite Hwl.
    destruct (Z.of_nat (S i) <? n)%Z eqn:E.
    + apply Z.ltb_lt in E.
      replace (Z.of_nat (Nat.min (S i) (Z.to_nat n)) <? n)%Z with true;
        [reflexivity|].
      symmetry. apply Z.ltb_lt. lia.
    + apply Z.ltb_ge in E.
      replace (Z.of_nat (Nat.min (S i) (Z.to_nat n)) <? n)%Z with false;
        [reflexivity|].
      symmetry. apply Z.ltb_ge. lia.
Qed.

(** Four prices through a trigger that looks back three bars. *)
Lemma volatility_trigger_sliding_window_witness :
  let states :=
    map (fun p => mkState p 2000 1900 2100 10000 None) [2000; 2010; 1990; 2020] in
  snd (calls (VolatilityTrigger base0 (fun _ => 1) (1 # 2) 3 []) states)
  = VolatilityTrigger base0 (fun _ => 1) (1 # 2) 3 [2010; 1990; 2020].
Proof.
  intro states.
  apply (proj1 (volatility_trigger_sliding_window
                  base0 (fun _ => 1) (1 # 2) 3 states ltac:(lia))).
Defined.

End VolatilityWindow.

Section CompositeAndReset.

Import triggers.

(** [CompositeTrigger.should_trigger] in terms of [trigger_results]. *)
Lemma composite_should_trigger
  (b : TriggerBase) (children : list Trigger) (op : string) (st : State) :
  should_trigger (CompositeTrigger b children op) st
  = match trigger_results st children with
    | (Raise e, children') => (Raise e, CompositeTrigger b children' op)
    | (Ok results, children') =>
        (Ok (if String.eqb op "AND"
             then forallb (fun r => r) results
             else existsb (fun r => r) results),
         CompositeTrigger b children' op)
    end.
Proof.
  cbn [should_trigger].
  match goal with
  | |- context [?f children] =>
      lazymatch f with
      | (fix all_results l {struct l} := _) =>
          assert (E : forall l, f l = trigger_results st l)
      end
  end.
  { intro l. induction l as [|t ts IH]; [reflexivity|].
    cbn [trigger_results]. rewrite <- IH. reflexivity. }
  rewrite E. reflexivity.
Qed.

Lemma trigger_results_ok (st : State) (children : list Trigger) :
  (forall t, In t children -> exists r, fst (should_trigger t st) = Ok r) ->
  trigger_results st children
  = (Ok (map (fun t => match fst (should_trigger t st) with
                       | Ok r => r
                       | Raise _ => false
                       end) children),
     map (fun t => snd (should_trigger t st)) children).
Proof.
  induction children as [|t ts IH]; intro Hok; cbn [trigger_results map].
  - reflexivity.
  - destruct (Hok t (or_introl eq_refl)) as [r Hr].
    destruct (should_trigger t st) as [r0 t'] eqn:E. cbn [fst snd] in *.
    subst r0. rewrite IH by (intros u Hu; apply Hok; right; exact Hu).
    reflexivity.
Qed.

Lemma trigger_results_raise (st : State) (pre : list Trigger) (t : Trigger)
  (post : list Trigger) (e : exn) :
  (forall u, In u pre -> exists r, fst (should_trigger u st) = Ok r) ->
  fst (should_trigger t st) = Raise e ->
  trigger_results st (pre ++ t :: post)
  = (Raise e,
     map (fun u => snd (should_trigger u st)) pre
       ++ snd (should_trigger t st) :: post).
Proof.
  intros Hpre Ht.
  induction pre as [|u pre IH]; cbn [trigger_results map app].
  - destruct (should_trigger t st) as [r0 t']. cbn [fst snd] in *.
    subst r0. reflexivity.
  - destruct (Hpre u (or_introl eq_refl)) as [r Hr].
    destruct (should_trigger u st) as [r0 u'] eqn:E. cbn [fst snd] in *.
    subst r0. rewrite IH by (intros v Hv; apply Hpre; right; exact Hv).
    reflexivity.
Qed.

(** [CompositeTrigger.should_trigger] calls every child, whatever the
    earlier children returned, and so updates every stateful child; it
    returns [all] of the children's values for the operator ["AND"] and
    [any] of them otherwise, hence True for ["AND"] with no children and
    False for ["OR"] with none.  When a child raises, the children before
    it have been called and the children after it have not. *)
Theorem composite_trigger_calls_every_child
  (b : TriggerBase) (children : list Trigger) (op : string) (st : State) :
  let fires := fun t =>
    match fst (should_trigger t st) with
    | Ok r => r
    | Raise _ => false
    end in
  ((forall t, In t children -> exists r, fst (should_trigger t st) = Ok r) ->
   should_trigger (CompositeTrigger b children op) st
   = (Ok (if String.eqb op "AND"
          then forallb fires children else existsb fires children),
      CompositeTrigger b (map (fun t => snd (should_trigger t st)) children) op))
  /\
  (forall pre t post e,
     children = pre ++ t :: post ->
     (forall u, In u pre -> exists r, fst (should_trigger u st) = Ok r) ->
     fst (should_trigger t st) = Raise e ->
     should_trigger (CompositeTrigger b children op) st
     = (Raise e,
        CompositeTrigger b
          (map (fun u => snd (should_trigger u st)) pre
             ++ snd (should_trigger t st) :: post) op)).
Proof.
  intro fires. split.
  - intro Hok. rewrite composite_should_trigger, trigger_results_ok by exact Hok.
    f_equal. f_equal.
    destruct (String.eqb op "AND").
    + induction children as [|t ts IH]; cbn [map forallb]; [reflexivity|].
      rewrite IH by (intros u Hu; apply Hok; right; exact Hu). reflexivity.
    + induction children as [|t ts IH]; cbn [map existsb]; [reflexivity|].
      rewrite IH by (intros u Hu; apply Hok; right; exact Hu). reflexivity.
  - intros pre t post e -> Hpre Ht.
    rewrite composite_should_trigger,
            (trigger_results_raise st pre t post e Hpre Ht).
    reflexivity.
Qed.

(** An ["OR"] of a range trigger and a fresh drift trigger, with the price
    inside the range: the drift trigger records its reference value. *)
Lemma composite_trigger_calls_every_child_witness :
  should_trigger
    (CompositeTrigger base0
       [RangeInactiveTrigger base0; PercentDriftTrigger base0 5 None] "OR")
    (mkState 2000 2000 1900 2100 10000 None)
  = (Ok false,
     CompositeTrigger base0
       [RangeInactiveTrigger base0; PercentDriftTrigger base0 5 (Some 10000)]
       "OR").
Proof.
  apply (proj1 (composite_trigger_calls_every_child base0
                  [RangeInactiveTrigger base0; PercentDriftTrigger base0 5 None]
                  "OR" (mkState 2000 2000 1900 2100 10000 None))).
  intros t [<-|[<-|[]]]; eexists; reflexivity.
Defined.







End CompositeAndReset.

(** ** steerbt/triggers.py: the trigger manager *)

Section ManagerStats.

Import triggers.
Import TriggerManager.

Lemma base_of_with_base (b : TriggerBase) (t : Trigger) :
  base_of (with_base b t) = b.
Proof. destruct t; reflexivity. Qed.

(** No trigger class touches its own [trigger_count]. *)
Lemma should_trigger_keeps_count (st : State) (t : Trigger) :
  trigger_count (base_of (snd (should_trigger t st)))
  = trigger_count (base_of t).
Proof.
  destruct t as [b x y|b|b x y|b d k c l|b d|b v x n h|b children op].
  - reflexivity.
  - reflexivity.
  - cbn [should_trigger]. destruct y as [last|]; [|reflexivity].
    destruct (truediv (Qabs (position_value st - last)) last) as [q|e];
      [|reflexivity].
    destruct (Qle_bool x (q * 100)); reflexivity.
  - cbn [should_trigger]. destruct l; reflexivity.
  - cbn [should_trigger]. destruct (last_triggered b); [|reflexivity].
    destruct (current_timestamp st); reflexivity.
  - cbn [should_trigger]. destruct (Z.of_nat _ <? n)%Z; reflexivity.
  - rewrite composite_should_trigger.
    destruct (trigger_results st children) as [[rs|e] cs']; reflexivity.
Qed.

Lemma should_trigger_loop_stats (st : State) :
  let fires := fun item : string * Trigger =>
    match fst (should_trigger (snd item) st) with
    | Ok r => r
    | Raise _ => false
    end in
  forall (items : t) (acc names : list string) (items' : t),
    should_trigger_loop items st acc = (Ok names, items') ->
    names = acc ++ map fst (filter fires items) /\
    get_trigger_stats items'
    = map (fun item =>
             (fst item,
              mkStats
                (trigger_count (base_of (snd item))
                 + (if fires item then 1 else 0))
                (if fires item then current_timestamp st
                 else last_triggered
                        (base_of (snd (should_trigger (snd item) st))))))
          items.
Proof.
  intro fires.
  induction items as [|[name trigger] rest IH]; intros acc names items' H;
    cbn [should_trigger_loop] in H.
  - injection H as <- <-. cbn [filter map]. rewrite app_nil_r.
    split; reflexivity.
  - pose proof (should_trigger_keeps_count st trigger) as Hcount.
    destruct (should_trigger trigger st) as [[fired|e] trigger'] eqn:E;
      cbn [fst snd] in *; [|discriminate].
    assert (Hf : fires (name, trigger) = fired)
      by (unfold fires; cbn [snd]; rewrite E; reflexivity).
    destruct (should_trigger_loop rest st
                (if fired then acc ++ [name] else acc)) as [r rest'] eqn:El.
    injection H as -> <-.
    destruct (IH _ _ _ El) as [Hnames Hstats].
    cbn [filter map]. rewrite Hf. split.
    + rewrite Hnames.
      destruct fired; cbn [map fst]; [rewrite <- app_assoc|]; reflexivity.
    + unfold get_trigger_stats in *. cbn [map fst snd]. rewrite Hstats.
      f_equal. rewrite E. cbn [snd].
      destruct fired.
      * rewrite base_of_with_base. cbn [trigger_count last_triggered].
        rewrite Hcount. reflexivity.
      * rewrite Hcount, Z.add_0_r. reflexivity.
Qed.

Lemma names_nonempty {X} (f : string * X -> bool) (items : list (string * X)) :
  Nat.ltb 0 (List.length (map fst (filter f items))) = existsb f items.
Proof.
  induction items as [|x xs IH]; cbn [filter existsb]; [reflexivity|].
  destruct (f x); cbn [map List.length orb]; [reflexivity | exact IH].
Qed.

(** What [should_trigger_any] leaves in the statistics.  When no trigger
    raises, the names returned are those of the triggers that fired, in
    registration order, and the flag says whether there is one; every
    registered trigger keeps its place, a trigger that fired has its
    [trigger_count] raised by one and its [last_triggered] set to the
    timestamp of the state, and the count of a trigger that did not fire is
    unchanged. *)
Theorem should_trigger_any_updates_stats
  (st : State) (self : t) (fired : bool) (names : list string) (self' : t) :
  should_trigger_any st self = (Ok (fired, names), self') ->
  let fires := fun item : string * Trigger =>
    match fst (should_trigger (snd item) st) with
    | Ok r => r
    | Raise _ => false
    end in
  names = map fst (filter fires self) /\
  fired = existsb fires self /\
  get_trigger_stats self'
  = map (fun item =>
           (fst item,
            mkStats
              (trigger_count (base_of (snd item))
               + (if fires item then 1 else 0))
              (if fires item then current_timestamp st
               else last_triggered
                      (base_of (snd (should_trigger (snd item) st))))))
        self.
Proof.
  intros H fires. unfold should_trigger_any in H.
  destruct (should_trigger_loop self st []) as [[ns|e] s'] eqn:E;
    [|discriminate].
  injection H as <- <- <-.
  destruct (should_trigger_loop_stats st self [] ns s' E) as [Hnames Hstats].
  cbn [app] in Hnames. fold fires in Hnames, Hstats.
  split; [exact Hnames|]. split; [|exact Hstats].
  rewrite Hnames. apply names_nonempty.
Qed.

(** The triggers of a default Classic strategy, with the price 3% above the
    centre of the range. *)
Lemma should_trigger_any_updates_stats_witness :
  let st := mkState 2060 2000 1900 2100 10000 (Some 3600%Z) in
  let outcome :=
    should_trigger_any st (strategies.classic._setup_triggers 100 5 24) in
  fst outcome = Ok (true, ["gap_from_center"%string]) /\
  get_trigger_stats (snd outcome)
  = [("gap_from_center"%string, mkStats 1 (Some 3600%Z));
     ("range_inactive"%string, mkStats 0 None);
     ("percent_drift"%string, mkStats 0 None);
     ("time_elapsed"%string, mkStats 0 (Some 3600%Z))].
Proof.
  intros st outcome.
  assert (H : should_trigger_any st (strategies.classic._setup_triggers 100 5 24)
              = (Ok (true, ["gap_from_center"%string]), snd outcome))
    by (vm_compute; reflexivity).
  split; [unfold outcome; rewrite H; reflexivity|].
  rewrite (proj2 (proj2 (should_trigger_any_updates_stats _ _ _ _ _ H))).
  vm_compute. reflexivity.
Defined.

Lemma dict_get_stats (name : string) (self : t) :
  dict_get name (get_trigger_stats self)
  = option_map (fun trigger =>
                  mkStats (trigger_count (base_of trigger))
                          (last_triggered (base_of trigger)))
               (dict_get name self).
Proof.
  induction self as [|[n tr] rest IH]; cbn [get_trigger_stats map dict_get fst snd];
    [reflexivity|].
  destruct (String.eqb n name); [reflexivity | exact IH].
Qed.

Lemma dict_get_add_same {V} (name : string) (v : V) (d : list (string * V)) :
  forall add,
    (forall d, add d = match d with
                       | [] => [(name, v)]
                       | (n, x) :: rest =>
                           if String.eqb n name then (n, v) :: rest
                           else (n, x) :: add rest
                       end) ->
    dict_get name (add d) = Some v.
Proof.
  intros add Hadd. induction d as [|[n x] rest IH]; rewrite Hadd.
  - cbn [dict_get]. rewrite String.eqb_refl. reflexivity.
  - destruct (String.eqb n name) eqn:E; cbn [dict_get]; rewrite E;
      [reflexivity | exact IH].
Qed.

Lemma add_trigger_eq (name : string) (trigger : Trigger) (d : t) :
  add_trigger name trigger d
  = match d with
    | [] => [(name, trigger)]
    | (n, x) :: rest =>
        if String.eqb n name then (n, trigger) :: rest
        else (n, x) :: add_trigger name trigger rest
    end.
Proof. destruct d as [|[n x] rest]; reflexivity. Qed.

Lemma dict_get_add_other (name other : string) (trigger : Trigger) (d : t) :
  other <> name ->
  dict_get other (add_trigger name trigger d) = dict_get other d.
Proof.
  intro Hne. induction d as [|[n x] rest IH]; cbn [add_trigger dict_get].
  - apply String.eqb_neq in Hne. rewrite String.eqb_sym, Hne. reflexivity.
  - destruct (String.eqb n name) eqn:E; cbn [dict_get].
    + apply String.eqb_eq in E. subst n.
      apply String.eqb_neq in Hne. rewrite String.eqb_sym, Hne. reflexivity.
    + rewrite IH. reflexivity.
Qed.

Lemma add_trigger_keys (name : string) (trigger : Trigger) (d : t) :
  map fst (add_trigger name trigger d)
  = if contains name d then map fst d else map fst d ++ [name].
Proof.
  unfold contains.
  induction d as [|[n x] rest IH]; cbn [add_trigger map existsb fst app];
    [reflexivity|].
  destruct (String.eqb n name) eqn:E; cbn [orb map fst]; [reflexivity|].
  rewrite IH. destruct (existsb _ rest); reflexivity.
Qed.

Lemma contains_in (name : string) (d : t) :
  contains name d = true <-> In name (map fst d).
Proof.
  unfold contains. rewrite existsb_exists, in_map_iff. split.
  - intros [item [Hin He]]. apply String.eqb_eq in He. exists item. tauto.
  - intros [item [He Hin]]. exists item. split; [exact Hin|].
    apply String.eqb_eq. exact He.
Qed.

Lemma filter_absent (name : string) (d : t) :
  contains name d = false ->
  filter (fun item => negb (String.eqb (fst item) name)) d = d.
Proof.
  unfold contains. induction d as [|[n x] rest IH]; cbn [existsb filter fst];
    [reflexivity|].
  intro H. apply orb_false_iff in H. destruct H as [H1 H2].
  rewrite H1. cbn [negb]. rewrite (IH H2). reflexivity.
Qed.

(** The registry behaves as a dictionary keyed by name.  After
    [add_trigger] the statistics list the added trigger under its name and
    every other entry as before; an existing name keeps its place and a new
    one goes last, so names stay unique.  [remove_trigger] drops the named
    entry and no other, and does nothing, without raising, for a name that
    is not registered; removing a name just added to a manager that did not
    have it gives the manager back. *)
Theorem trigger_registry_add_remove
  (name : string) (trigger : Trigger) (self : t) :
  let stats_of := fun trigger =>
    mkStats (trigger_count (base_of trigger)) (last_triggered (base_of trigger)) in
  dict_get name (get_trigger_stats (add_trigger name trigger self))
  = Some (stats_of trigger) /\
  (forall other, other <> name ->
     dict_get other (get_trigger_stats (add_trigger name trigger self))
     = dict_get other (get_trigger_stats self)) /\
  (NoDup (map fst self) -> NoDup (map fst (add_trigger name trigger self))) /\
  dict_get name (get_trigger_stats (remove_trigger name self)) = None /\
  (forall other, other <> name ->
     dict_get other (get_trigger_stats (remove_trigger name self))
     = dict_get other (get_trigger_stats self)) /\
  (contains name self = false ->
   remove_trigger name self = self /\
   remove_trigger name (add_trigger name trigger self) = self).
Proof.
  intro stats_of.
  assert (Hremoved : forall d : t,
             dict_get name
               (filter (fun item => negb (String.eqb (fst item) name)) d)
             = None).
  { induction d as [|[n x] rest IH]; cbn [filter fst]; [reflexivity|].
    destruct (String.eqb n name) eqn:E; cbn [negb]; [exact IH|].
    cbn [dict_get]. rewrite E. exact IH. }
  assert (Hkept : forall other (d : t), other <> name ->
             dict_get other
               (filter (fun item => negb (String.eqb (fst item) name)) d)
             = dict_get other d).
  { intros other d Hne. induction d as [|[n x] rest IH]; cbn [filter fst];
      [reflexivity|].
    destruct (String.eqb n name) eqn:E; cbn [negb dict_get].
    - apply String.eqb_eq in E. subst n.
      apply String.eqb_neq in Hne. rewrite String.eqb_sym, Hne. exact IH.
    - rewrite IH. reflexivity. }
  split; [|split; [|split; [|split; [|split]]]].
  - rewrite dict_get_stats.
    rewrite (dict_get_add_same name trigger self (add_trigger name trigger)
               (add_trigger_eq name trigger)).
    reflexivity.
  - intros other Hne. rewrite !dict_get_stats, dict_get_add_other by exact Hne.
    reflexivity.
  - intro Hnodup. rewrite add_trigger_keys.
    destruct (contains name self) eqn:E; [exact Hnodup|].
    apply NoDup_app; [exact Hnodup | repeat constructor; intros [] |].
    intros x Hx [<-|[]].
    apply contains_in in Hx. congruence.
  - rewrite dict_get_stats. unfold remove_trigger.
    destruct (contains name self) eqn:E.
    + rewrite Hremoved. reflexivity.
    + rewrite <- (filter_absent name self E), Hremoved. reflexivity.
  - intros other Hne. rewrite !dict_get_stats. unfold remove_trigger.
    destruct (contains name self); [rewrite Hkept by exact Hne|]; reflexivity.
  - intro Habsent. split.
    + unfold remove_trigger. rewrite Habsent. reflexivity.
    + unfold remove_trigger.
      assert (Hc : contains name (add_trigger name trigger self) = true).
      { apply contains_in. rewrite add_trigger_keys, Habsent.
        apply in_or_app. right. left. reflexivity. }
      rewrite Hc. clear Hc.
      unfold contains in Habsent.
      induction self as [|[n x] rest IH]; cbn [add_trigger filter fst].
      * rewrite String.eqb_refl. reflexivity.
      * cbn [existsb fst] in Habsent. apply orb_false_iff in Habsent.
        destruct Habsent as [H1 H2]. rewrite H1. cbn [filter fst].
        rewrite H1. cbn [negb]. rewrite (IH H2). reflexivity.
Qed.

(** The manager of a default Classic strategy and a name it does not
    hold. *)
Lemma trigger_registry_add_remove_witness :
  let self := strategies.classic._setup_triggers 100 5 24 in
  remove_trigger "one_way" self = self /\
  remove_trigger "one_way"
    (add_trigger "one_way" (OneWayExitTrigger base0 "down" 5 0 None) self)
  = self.
Proof.
  intro self.
  apply (proj2 (proj2 (proj2 (proj2 (proj2
           (trigger_registry_add_remove "one_way"
              (OneWayExitTrigger base0 "down" 5 0 None) self)))))).
  reflexivity.
Defined.

End ManagerStats.

(** ** steerbt/curves.py: the transforms and the factory *)

Section CurveTransforms.

Import curves.

Lemma half_of_odd (k : nat) : Nat.div (2 * k + 1) 2 = k.
Proof. symmetry. apply (Nat.div_unique _ 2 k 1); lia. Qed.

Lemma half_of_even (k : nat) : Nat.div (2 * k + 2) 2 = S k.
Proof. symmetry. apply (Nat.div_unique _ 2 (S k) 0); lia. Qed.

(** Arrays of different lengths, neither of length one, do not broadcast. *)
Lemma np_add_mismatch (a b : list Q) :
  List.length a <> List.length b ->
  (2 <= List.length a)%nat -> (2 <= List.length b)%nat ->
  np_add a b = Raise ValueError.
Proof.
  intros Hne Ha Hb. unfold np_add.
  apply Nat.eqb_neq in Hne. rewrite Hne.
  destruct a as [|x [|x' a']]; cbn [List.length] in *; try lia.
  destruct b as [|y [|y' b']]; cbn [List.length] in *; try lia.
  reflexivity.
Qed.

Lemma np_add_same_length (a b : list Q) :
  List.length a = List.length b ->
  np_add a b = Ok (map (fun xy => fst xy + snd xy) (combine a b)).
Proof.
  intro H. unfold np_add. apply Nat.eqb_eq in H. rewrite H. reflexivity.
Qed.

Lemma create_bins_enough (prices liquidities : list Q) (n : nat) :
  List.length prices = S n -> (n <= List.length liquidities)%nat ->
  create_bins prices liquidities
  = Ok (map (fun i => (nth i prices 0, nth (S i) prices 0, nth i liquidities 0))
            (seq 0 n)).
Proof.
  intros Hp Hl. unfold create_bins. rewrite Hp.
  replace (S n - 1)%nat with n by lia.
  apply rmap_seq_ok. intros i Hi.
  rewrite (getitem_ok prices i (nth i prices 0))
    by (apply nth_error_nth'; lia).
  rewrite (getitem_ok prices (S i) (nth (S i) prices 0))
    by (apply nth_error_nth'; lia).
  rewrite (getitem_ok liquidities i (nth i liquidities 0))
    by (apply nth_error_nth'; lia).
  reflexivity.
Qed.

(** The two halves added by the mirror transform: the sample [j] of the
    first half meets the sample [N - j] of the grid. *)
Lemma mirrored_price (prices : list Q) (k j : nat) :
  List.length prices = S (2 * k) -> (j <= k)%nat ->
  nth j (map (fun xy => fst xy + snd xy)
             (combine (firstn (S k) prices) (rev (skipn k prices)))) 0
  = nth j prices 0 + nth (2 * k - j) prices 0.
Proof.
  intros Hlen Hj.
  assert (Ha : List.length (firstn (S k) prices) = S k)
    by (rewrite length_firstn; lia).
  assert (Hb : List.length (rev (skipn k prices)) = S k)
    by (rewrite length_rev, length_skipn; lia).
  change 0 with ((fun xy : Q * Q => fst xy + snd xy) (0, 0)) at 1.
  rewrite map_nth, combine_nth by lia. cbn [fst snd].
  rewrite nth_firstn.
  replace (j <? S k)%nat with true by (symmetry; apply Nat.ltb_lt; lia).
  rewrite rev_nth by (rewrite length_skipn; lia).
  rewrite length_skipn, nth_skipn, Hlen.
  replace (k + (S (2 * k) - k - S j))%nat with (2 * k - j)%nat by lia.
  reflexivity.
Qed.

Lemma linspace_symmetric (a b : Q) (n : Z) (k j : nat) :
  n = Z.of_nat (2 * k) -> (1 <= k)%nat -> (j <= k)%nat ->
  nth j (linspace a b (n + 1)) 0 + nth (2 * k - j) (linspace a b (n + 1)) 0
  == a + b.
Proof.
  intros Hn Hk Hj.
  rewrite (linspace_nth_point a b n j) by lia.
  rewrite (linspace_nth_point a b n (2 * k - j)) by lia.
  assert (Hsum : float (Z.of_nat j) + float (Z.of_nat (2 * k - j)) == float n).
  { unfold float. rewrite <- inject_Z_plus. rewrite Hn.
    replace (Z.of_nat j + Z.of_nat (2 * k - j))%Z with (Z.of_nat (2 * k)) by lia.
    reflexivity. }
  assert (Hnz : ~ float n == 0).
  { intro E. pose proof (float_pos n ltac:(lia)) as Hp. rewrite E in Hp.
    apply (Qlt_irrefl 0 Hp). }
  setoid_replace (float (Z.of_nat (2 * k - j)))
    with (float n - float (Z.of_nat j)) by lra.
  field. exact Hnz.
Qed.

(** A weighted variant run with [mirror=True]. *)
Lemma weighted_distribution_mirrored
  (self : CurveBase) (m : Z) (f : Z -> list Q -> Z -> result Q)
  (center width : Q) :
  mirror self = true -> (2 <= m)%Z ->
  let n := bin_count_of m self width in
  let prices :=
    linspace (center - center * width / 100 / 2)
             (center + center * width / 100 / 2) (n + 1) in
  (forall i, (0 <= i < n)%Z -> exists x, f n prices i = Ok x) ->
  (Z.odd n = true ->
   weighted_distribution self m f center width = Raise ValueError) /\
  (Z.even n = true ->
   exists bins,
     weighted_distribution self m f center width = Ok bins /\
     Z.of_nat (List.length bins) = (n / 2)%Z /\
     forall b, In b bins ->
               bin_lower b == 2 * center /\ bin_upper b == 2 * center).
Proof.
  intros Hmir Hm n prices Hf.
  assert (Hn : (2 <= n)%Z) by (pose proof (bin_count_ge m self width); lia).
  set (g := fun i => match f n prices i with Ok v => v | Raise _ => 0 end).
  assert (Hfg : forall i, (0 <= i < n)%Z -> f n prices i = Ok (g i)).
  { intros i Hi. destruct (Hf i Hi) as [x Hx]. unfold g. now rewrite Hx. }
  assert (Hplen : List.length prices = S (Z.to_nat n))
    by (unfold prices; apply linspace_length; lia).
  assert (Hllen : List.length (map g (range n)) = Z.to_nat n)
    by (rewrite length_map, range_length; reflexivity).
  unfold weighted_distribution. fold n. fold prices.
  rewrite (rmap_range_ok _ g n Hfg). cbn [rbind].
  unfold _apply_transforms. rewrite Hmir.
  split.
  - intro Hodd. apply Z.odd_spec in Hodd. destruct Hodd as [q Hq].
    assert (HN : Z.to_nat n = (2 * Z.to_nat q + 1)%nat) by lia.
    rewrite Hplen, HN.
    replace (S (2 * Z.to_nat q + 1)) with (2 * Z.to_nat q + 2)%nat by lia.
    rewrite half_of_even.
    rewrite np_add_mismatch; [reflexivity| | |].
    + rewrite length_firstn, length_rev, length_skipn, Hplen. lia.
    + rewrite length_firstn, Hplen. lia.
    + rewrite length_rev, length_skipn, Hplen. lia.
  - intro Heven. apply Z.even_spec in Heven. destruct Heven as [q Hq].
    set (k := Z.to_nat q).
    assert (HN : Z.to_nat n = (2 * k)%nat) by (unfold k; lia).
    assert (Hk : (1 <= k)%nat) by (unfold k; lia).
    assert (Hplen' : List.length prices = S (2 * k)) by (rewrite Hplen, HN; reflexivity).
    rewrite Hplen'.
    replace (S (2 * k)) with (2 * k + 1)%nat by lia.
    rewrite half_of_odd.
    rewrite np_add_same_length
      by (rewrite length_firstn, length_rev, length_skipn, Hplen'; lia).
    cbn [rbind].
    set (prices' := map (fun xy => fst xy + snd xy)
                        (combine (firstn (S k) prices) (rev (skipn k prices)))).
    set (liqs' := firstn (S k) (map g (range n))
                    ++ rev (skipn k (map g (range n)))).
    assert (Hp'len : List.length prices' = S k).
    { unfold prices'. rewrite length_map, length_combine, length_firstn,
        length_rev, length_skipn, Hplen'. lia. }
    assert (Hl'len : List.length liqs' = S (2 * k)).
    { unfold liqs'. rewrite length_app, length_firstn, length_rev,
        length_skipn, Hllen, HN. lia. }
    assert (Hbins : exists liqs'',
               (if invert self
                then Ok (prices',
                         map (fun liq => max_or_zero liqs' - liq) liqs')
                else Ok (prices', liqs'))
               = Ok (prices', liqs'') /\
               List.length liqs'' = S (2 * k)).
    { destruct (invert self); eexists; (split; [reflexivity|]);
        [rewrite length_map|]; exact Hl'len. }
    destruct Hbins as [liqs'' [-> Hl''len]]. cbn [rbind fst snd].
    rewrite (create_bins_enough prices' liqs'' k Hp'len) by lia.
    eexists. split; [reflexivity|].
    split.
    { rewrite length_map, length_seq. unfold k.
      rewrite Hq, Z.mul_comm, Z.div_mul by lia. lia. }
    intros b Hb. apply in_map_iff in Hb. destruct Hb as [i [<- Hi]].
    apply in_seq in Hi. unfold bin_lower, bin_upper. cbn [fst snd].
    assert (Hpoint : forall j, (j <= k)%nat -> nth j prices' 0 == 2 * center).
    { intros j Hj. unfold prices'.
      rewrite (mirrored_price prices k j Hplen' Hj). unfold prices.
      rewrite (linspace_symmetric _ _ n k j); [ring | lia | exact Hk | exact Hj]. }
    split; apply Hpoint; lia.
Qed.

Lemma weighted_rule_returns (c : Curve) (m : Z) :
  weighted c m ->
  (2 <= m)%Z /\
  exists f,
    (forall center width total,
       _generate_distribution_impl c center width total
       = weighted_distribution (base c) m (f center total) center width) /\
    (forall center width total,
       let n := bin_count_of m (base c) width in
       let prices :=
         linspace (center - center * width / 100 / 2)
                  (center + center * width / 100 / 2) (n + 1) in
       forall i, (0 <= i < n)%Z -> exists x, f center total n prices i = Ok x).
Proof.
  intro H. destruct H as [b slope|np_exp b std Hstd|np_exp b k|np_log b lb
                          |np_exp b sep w].
  - split; [lia|].
    exists (fun center total bin_count (_ : list Q) i =>
              let distance_from_center :=
                Qabs (float i - float bin_count / 2) / (float bin_count / 2) in
              let liq := total / float bin_count
                         * (1 - distance_from_center * slope) in
              Ok (Qmax liq (total / float bin_count * (1 # 10)))).
    split; [reflexivity|]. intros. eexists. reflexivity.
  - split; [lia|].
    exists (fun center total bin_count (_ : list Q) i =>
              let center_idx := float bin_count / 2 in
              let distance := (float i - center_idx) / (float bin_count / 2) in
              (z <~ truediv distance std ;;
               let gaussian := np_exp (- (1 # 2) * z ^ 2) in
               let liq := total / float bin_count * gaussian in
               Ok (Qmax liq (total / float bin_count * (5 # 100))))%py).
    split; [reflexivity|]. intros. cbv zeta.
    rewrite truediv_ok by exact Hstd. eexists. reflexivity.
  - split; [lia|].
    exists (fun center total bin_count (_ : list Q) i =>
              let x := (float i - float bin_count / 2)
                       / (float bin_count / 2) * 2 in
              let sigmoid := 1 / (1 + np_exp (- k * x)) in
              let liq := total / float bin_count * sigmoid in
              Ok (Qmax liq (total / float bin_count * (1 # 10)))).
    split; [reflexivity|]. intros. eexists. reflexivity.
  - split; [lia|].
    exists (fun center total bin_count (_ : list Q) i =>
              let log_factor := np_log (float (1 + i + 1)) / np_log lb in
              let liq := total / float bin_count * log_factor in
              Ok (Qmax liq (total / float bin_count * (1 # 10)))).
    split; [reflexivity|]. intros. eexists. reflexivity.
  - split; [lia|].
    exists (fun center total bin_count prices i =>
              (price <~ getitem prices (Z.to_nat i) ;;
               let peak1 := center - sep * center / 2 in
               let peak2 := center + sep * center / 2 in
               let dist1 := Qabs (price - peak1) / (w * center) in
               let dist2 := Qabs (price - peak2) / (w * center) in
               let gaussian1 := np_exp (- (1 # 2) * dist1 ^ 2) in
               let gaussian2 := np_exp (- (1 # 2) * dist2 ^ 2) in
               let combined := (gaussian1 + gaussian2) / 2 in
               let liq := total / float bin_count * combined in
               Ok (Qmax liq (total / float bin_count * (5 # 100))))%py).
    split; [reflexivity|]. intros center width total n prices i Hi. cbv zeta.
    pose proof (bin_count_ge 5 b width) as Hge. fold n in Hge.
    erewrite getitem_ok.
    2:{ apply (nth_error_nth' _ 0). unfold prices.
        rewrite linspace_length by lia. lia. }
    eexists. reflexivity.
Qed.

(** [mirror=True] does not mirror the grid.  The transform adds the two
    halves of the price array element by element, where the liquidity list
    is concatenated.  For the five weighted classes this makes an odd bin
    count raise [ValueError] (the halves differ in length and do not
    broadcast), and an even bin count return half as many bins, every one
    of them with both bounds equal to twice the centre price. *)
Theorem mirror_collapses_the_grid
  (c : Curve) (m : Z) (center width usd : Q) :
  weighted c m -> mirror (base c) = true ->
  let n := Z.max m (Z.min (max_bins (base c)) (int (width / 2))) in
  (Z.odd n = true ->
   generate_distribution c center width usd = Raise ValueError) /\
  (Z.even n = true ->
   exists bins,
     generate_distribution c center width usd = Ok bins /\
     Z.of_nat (List.length bins) = (n / 2)%Z /\
     forall b, In b bins ->
               bin_lower b == 2 * center /\ bin_upper b == 2 * center).
Proof.
  intros Hw Hmir n.
  destruct (weighted_rule_returns c m Hw) as [Hm [f [Himpl Hret]]].
  unfold generate_distribution. rewrite Himpl.
  apply (weighted_distribution_mirrored (base c) m _ center width Hmir Hm).
  apply Hret.
Qed.

(** A mirrored linear curve of width 10% (five bins) and one of width 8%
    (four bins) around 2000. *)
Lemma mirror_collapses_the_grid_witness :
  let c := LinearCurve.new (mkCurveBase 10 true false (1 # 1000)) 1 in
  generate_distribution c 2000 10 9500 = Raise ValueError /\
  exists bins,
    generate_distribution c 2000 8 9500 = Ok bins /\
    Z.of_nat (List.length bins) = 2%Z /\
    forall b, In b bins -> bin_lower b == 2 * 2000 /\ bin_upper b == 2 * 2000.
Proof.
  intro c. split.
  - apply (proj1 (mirror_collapses_the_grid c 2 2000 10 9500
                    (weighted_linear _ _) eq_refl)).
    reflexivity.
  - apply (proj2 (mirror_collapses_the_grid c 2 2000 8 9500
                    (weighted_linear _ _) eq_refl)).
    reflexivity.
Defined.

End CurveTransforms.

Section CurveInvert.

Import curves.






End CurveInvert.

Section LinearBudget.

Import curves.

Lemma sum_bounds (xs : list Q) (lo hi : Q) :
  (forall x, In x xs -> lo <= x /\ x <= hi) ->
  float (Z.of_nat (List.length xs)) * lo <= sum xs /\
  sum xs <= float (Z.of_nat (List.length xs)) * hi.
Proof.
  induction xs as [|x xs IH]; intro H.
  - cbn [List.length]. change (float (Z.of_nat 0)) with 0. rewrite sum_nil.
    lra.
  - destruct (H x (or_introl eq_refl)) as [Hlo Hhi].
    destruct IH as [IH1 IH2]; [intros y Hy; apply H; right; exact Hy|].
    rewrite sum_cons. cbn [List.length].
    assert (E : float (Z.of_nat (S (List.length xs)))
                == float (Z.of_nat (List.length xs)) + 1).
    { unfold float. rewrite Nat2Z.inj_succ, <- Z.add_1_r, inject_Z_plus.
      reflexivity. }
    rewrite E. split; lra.
Qed.

(** A linear curve with a non-negative slope, without mirroring or
    inversion, never hands out more than the scaled budget
    [max(usd * liquidity_scale, 100)]: no bin gets more than an even share,
    and the floor under each bin keeps the total at a tenth of the budget
    or more.  With slope 0 the whole budget is handed out. *)
Theorem linear_curve_stays_within_budget
  (b : CurveBase) (slope center width usd : Q) :
  mirror b = false -> invert b = false ->
  0 < center -> 0 < width -> 0 <= slope ->
  let T := Qmax (usd * liquidity_scale b) 100 in
  exists bins,
    generate_distribution (LinearCurve.new b slope) center width usd = Ok bins /\
    T / 10 <= sum (map bin_liquidity bins) /\
    sum (map bin_liquidity bins) <= T /\
    (slope == 0 -> sum (map bin_liquidity bins) == T).
Proof.
  intros Hmir Hinv Hc Hw Hs T.
  assert (HT : 0 < T) by apply scaled_budget_positive.
  unfold generate_distribution. cbn [base LinearCurve.new _generate_distribution_impl].
  fold T. unfold LinearCurve._generate_distribution_impl.
  unfold weighted_distribution.
  set (n := bin_count_of 2 b width).
  assert (Hn : (2 <= n)%Z) by (pose proof (bin_count_ge 2 b width); lia).
  set (prices := linspace (center - center * width / 100 / 2)
                          (center + center * width / 100 / 2) (n + 1)).
  set (g := fun i : Z =>
              Qmax (T / float n
                    * (1 - Qabs (float i - float n / 2) / (float n / 2) * slope))
                   (T / float n * (1 # 10))).
  rewrite (rmap_range_ok _ g n) by (intros i Hi; reflexivity).
  cbn [rbind]. unfold _apply_transforms. rewrite Hmir, Hinv. cbn [rbind fst snd].
  rewrite (create_bins_ok prices (map g (range n)) (Z.to_nat n)).
  2:{ unfold prices. apply linspace_length. lia. }
  2:{ now rewrite length_map, range_length. }
  eexists. split; [reflexivity|].
  assert (Hfn : 0 < float n) by (apply float_pos; lia).
  assert (Hshare : 0 < T / float n)
    by (apply Qlt_shift_div_l; [exact Hfn | lra]).
  assert (Hliqs : map bin_liquidity
                    (map (fun i => (nth i prices 0, nth (S i) prices 0,
                                    nth i (map g (range n)) 0))
                         (seq 0 (Z.to_nat n)))
                  = map g (range n)).
  { rewrite map_map. unfold bin_liquidity. cbn [snd].
    apply nth_ext with (d := 0) (d' := 0).
    - rewrite !length_map, length_seq, range_length. reflexivity.
    - intros i Hi. rewrite length_map, length_seq in Hi.
      rewrite (nth_indep _ 0 (nth 0 (map g (range n)) 0))
        by (rewrite length_map, length_seq; exact Hi).
      rewrite (map_nth (fun i => nth i (map g (range n)) 0) (seq 0 (Z.to_nat n)) 0%nat i).
      rewrite seq_nth by exact Hi. reflexivity. }
  rewrite Hliqs.
  assert (Hrange : forall x, In x (map g (range n)) ->
                             T / float n * (1 # 10) <= x /\ x <= T / float n).
  { intros x Hx. apply in_map_iff in Hx. destruct Hx as [i [<- _]].
    unfold g. split; [apply Q.le_max_r|].
    apply Q.max_lub; [|lra].
    assert (Hd : 0 <= Qabs (float i - float n / 2) / (float n / 2) * slope).
    { apply Qmult_le_0_compat; [|exact Hs].
      apply Qle_shift_div_l; [|rewrite Qmult_0_l; apply Qabs_nonneg].
      apply Qlt_shift_div_l; [reflexivity|]. rewrite Qmult_0_l. exact Hfn. }
    setoid_replace (T / float n) with (T / float n * 1) at 2 by ring.
    apply Qmult_le_l; [exact Hshare|]. lra. }
  destruct (sum_bounds _ _ _ Hrange) as [Hlow Hhigh].
  rewrite length_map, range_length, Z2Nat.id in Hlow, Hhigh by lia.
  assert (E1 : float n * (T / float n * (1 # 10)) == T / 10) by (field; lra).
  assert (E2 : float n * (T / float n) == T) by (field; lra).
  rewrite E1 in Hlow. rewrite E2 in Hhigh.
  split; [exact Hlow|]. split; [exact Hhigh|].
  intro Hz.
  assert (Heven : forall x, In x (map g (range n)) ->
                            T / float n <= x /\ x <= T / float n).
  { intros x Hx. split; [|apply Hrange, Hx].
    apply in_map_iff in Hx. destruct Hx as [i [<- _]]. unfold g.
    eapply Qle_trans; [|apply Q.le_max_l]. rewrite Hz. lra. }
  destruct (sum_bounds _ _ _ Heven) as [Hlow' Hhigh'].
  rewrite length_map, range_length, Z2Nat.id in Hlow', Hhigh' by lia.
  rewrite E2 in Hlow', Hhigh'. lra.
Qed.

(** The default linear curve, 10% wide around 2000, with 9500 USD. *)
Lemma linear_curve_stays_within_budget_witness :
  exists bins,
    generate_distribution (LinearCurve.new default_base 1) 2000 10 9500
    = Ok bins /\
    Qmax (9500 * liquidity_scale default_base) 100 / 10
    <= sum (map bin_liquidity bins) /\
    sum (map bin_liquidity bins) <= Qmax (9500 * liquidity_scale default_base) 100 /\
    (1 == 0 -> sum (map bin_liquidity bins)
               == Qmax (9500 * liquidity_scale default_base) 100).
Proof.
  apply (linear_curve_stays_within_budget default_base 1 2000 10 9500);
    vm_compute; congruence.
Defined.

End LinearBudget.

Section Factory.

Import curves.
Import CurveFactory.

(** [CurveFactory.create_curve] returns a curve exactly for the six names
    [get_available_curves] lists and raises [ValueError] for any other;
    the parameters [get_curve_params] advertises for a name are the
    defaults the class uses, so creating a curve with them gives the same
    curve as creating it with no parameters at all. *)
Theorem curve_factory_defaults
  (np_exp np_log : Q -> Q) (curve_type : string) (kw : kwargs.t) :
  ((exists c, create_curve np_exp np_log curve_type kw = Ok c)
   <-> In curve_type (get_available_curves np_exp np_log)) /\
  (~ In curve_type (get_available_curves np_exp np_log) ->
   create_curve np_exp np_log curve_type kw = Raise ValueError) /\
  create_curve np_exp np_log curve_type (get_curve_params curve_type)
  = create_curve np_exp np_log curve_type kwargs.empty /\
  get_available_curves np_exp np_log
  = ["linear"; "gaussian"; "sigmoid"; "logarithmic"; "bid_ask"; "uniform"]%string.
Proof.
  assert (Hget : forall (d : list (string * (kwargs.t -> Curve))),
             (exists cls, dict_get curve_type d = Some cls)
             <-> In curve_type (map fst d)).
  { induction d as [|[n cls] rest IH]; cbn [dict_get map In fst].
    - split; [intros [cls H]; discriminate | intros []].
    - destruct (String.eqb n curve_type) eqn:E.
      + apply String.eqb_eq in E. split; [intros _; left; exact E|].
        intros _. eexists. reflexivity.
      + apply String.eqb_neq in E. rewrite IH. tauto. }
  split; [|split; [|split]].
  - unfold create_curve, get_available_curves. rewrite <- Hget.
    destruct (dict_get curve_type (_curves np_exp np_log)) as [cls|].
    + split; intros _; eexists; reflexivity.
    + split; intros [x H]; discriminate.
  - intro Hnot. unfold create_curve, get_available_curves in *.
    rewrite <- Hget in Hnot.
    destruct (dict_get curve_type (_curves np_exp np_log)) as [cls|];
      [|reflexivity].
    exfalso. apply Hnot. eexists. reflexivity.
  - unfold create_curve, get_curve_params, _curves. cbn [dict_get].
    rewrite (String.eqb_sym "linear" curve_type),
            (String.eqb_sym "gaussian" curve_type),
            (String.eqb_sym "sigmoid" curve_type),
            (String.eqb_sym "logarithmic" curve_type),
            (String.eqb_sym "bid_ask" curve_type),
            (String.eqb_sym "uniform" curve_type).
    destruct (String.eqb curve_type "linear"); [reflexivity|].
    destruct (String.eqb curve_type "gaussian"); [reflexivity|].
    destruct (String.eqb curve_type "sigmoid"); [reflexivity|].
    destruct (String.eqb curve_type "logarithmic"); [reflexivity|].
    destruct (String.eqb curve_type "bid_ask"); [reflexivity|].
    destruct (String.eqb curve_type "uniform"); reflexivity.
  - reflexivity.
Qed.

(** A name that is not registered. *)
Lemma curve_factory_defaults_witness :
  create_curve (fun _ => 1) (fun _ => 1) "cubic" kwargs.empty = Raise ValueError.
Proof.
  apply (proj1 (proj2 (curve_factory_defaults
                         (fun _ => 1) (fun _ => 1) "cubic" kwargs.empty))).
  intros [H|[H|[H|[H|[H|[H|[]]]]]]]; discriminate.
Defined.

End Factory.

(** ** steerbt/strategies/base.py: when an update means a rebalance *)

Section RebalanceDecision.

Import strategies.
Import base.

Lemma ranges_changed_spec (pairs : list ((Q * Q) * (Q * Q))) :
  (forall p, In p pairs -> 0 < fst (snd p) /\ 0 < snd (snd p)) ->
  exists b,
    ranges_changed pairs = Ok b /\
    (b = true <->
     exists p, In p pairs /\
       (1 # 100 < Qabs (fst (fst p) - fst (snd p)) / fst (snd p) \/
        1 # 100 < Qabs (snd (fst p) - snd (snd p)) / snd (snd p))).
Proof.
  induction pairs as [|[[nl nu] [cl cu]] rest IH]; intro Hpos;
    cbn [ranges_changed].
  - exists false. split; [reflexivity|]. split; [discriminate|].
    intros [p [[] _]].
  - destruct (Hpos _ (or_introl eq_refl)) as [Hcl Hcu]. cbn [fst snd] in Hcl, Hcu.
    rewrite !truediv_ok by lra. cbn [rbind].
    destruct (Qltb (1 # 100) (Qabs (nl - cl) / cl)) eqn:E1; cbn [orb].
    + exists true. split; [reflexivity|]. split; [|reflexivity]. intros _.
      exists ((nl, nu), (cl, cu)). split; [left; reflexivity|].
      left. apply Qltb_true. exact E1.
    + destruct (Qltb (1 # 100) (Qabs (nu - cu) / cu)) eqn:E2.
      * exists true. split; [reflexivity|]. split; [|reflexivity]. intros _.
        exists ((nl, nu), (cl, cu)). split; [left; reflexivity|].
        right. apply Qltb_true. exact E2.
      * destruct IH as [b [Hb Hiff]];
          [intros p Hp; apply Hpos; right; exact Hp|].
        exists b. split; [exact Hb|]. rewrite Hiff. split.
        -- intros [p [Hp Hm]]. exists p. split; [right; exact Hp | exact Hm].
        -- intros [p [[<-|Hp] Hm]]; [|exists p; split; assumption].
           cbn [fst snd] in Hm. apply Qltb_false in E1, E2.
           destruct Hm as [Hm|Hm]; exfalso; lra.
Qed.

Lemma liquidities_changed_spec (pairs : list (Q * Q)) :
  (forall p, In p pairs -> 0 < snd p) ->
  exists b,
    liquidities_changed pairs = Ok b /\
    (b = true <->
     exists p, In p pairs /\ 5 # 100 < Qabs (fst p - snd p) / snd p).
Proof.
  induction pairs as [|[nl cl] rest IH]; intro Hpos;
    cbn [liquidities_changed].
  - exists false. split; [reflexivity|]. split; [discriminate|].
    intros [p [[] _]].
  - pose proof (Hpos _ (or_introl eq_refl)) as Hcl. cbn [snd] in Hcl.
    rewrite truediv_ok by lra. cbn [rbind].
    destruct (Qltb (5 # 100) (Qabs (nl - cl) / cl)) eqn:E1.
    + exists true. split; [reflexivity|]. split; [|reflexivity]. intros _.
      exists (nl, cl). split; [left; reflexivity|].
      apply Qltb_true. exact E1.
    + destruct IH as [b [Hb Hiff]];
        [intros p Hp; apply Hpos; right; exact Hp|].
      exists b. split; [exact Hb|]. rewrite Hiff. split.
      * intros [p [Hp Hm]]. exists p. split; [right; exact Hp | exact Hm].
      * intros [p [[<-|Hp] Hm]]; [|exists p; split; assumption].
        cbn [fst snd] in Hm. apply Qltb_false in E1. exfalso. lra.
Qed.

(** Equal numbers of positions, positive current bounds and liquidities:
    the answer is whether something moved past its threshold. *)
Lemma should_rebalance_decides {Sub : Type}
  (self : t Sub) (new_ranges : list (Q * Q)) (new_liquidities : list Q) :
  List.length new_ranges = List.length (current_ranges self) ->
  List.length new_liquidities = List.length (current_liquidities self) ->
  (forall r, In r (current_ranges self) -> 0 < fst r /\ 0 < snd r) ->
  (forall l, In l (current_liquidities self) -> 0 < l) ->
  exists b,
    _should_rebalance self new_ranges new_liquidities = Ok b /\
    (b = true <->
     (exists p, In p (zip new_ranges (current_ranges self)) /\
        (1 # 100 < Qabs (fst (fst p) - fst (snd p)) / fst (snd p) \/
         1 # 100 < Qabs (snd (fst p) - snd (snd p)) / snd (snd p))) \/
     (exists p, In p (zip new_liquidities (current_liquidities self)) /\
        5 # 100 < Qabs (fst p - snd p) / snd p)).
Proof.
  intros Hr Hl Hposr Hposl. unfold _should_rebalance.
  apply Nat.eqb_eq in Hr, Hl. rewrite Hr, Hl. cbn [negb].
  destruct (ranges_changed_spec (zip new_ranges (current_ranges self)))
    as [b1 [Hb1 Hiff1]].
  { intros [nr cr] Hp. apply in_combine_r in Hp. apply Hposr, Hp. }
  destruct (liquidities_changed_spec
              (zip new_liquidities (current_liquidities self)))
    as [b2 [Hb2 Hiff2]].
  { intros [nl cl] Hp. apply in_combine_r in Hp. apply Hposl, Hp. }
  rewrite Hb1. cbn [rbind]. destruct b1.
  - exists true. split; [reflexivity|]. split; [|reflexivity].
    intros _. left. apply Hiff1. reflexivity.
  - exists b2. split; [exact Hb2|]. rewrite Hiff2. split.
    + intro H. right. exact H.
    + intros [H|H]; [|exact H]. apply Hiff1 in H. discriminate.
Qed.



Section Update.

Context {Sub : Type}.
Variable calculate_range :
  list data.Bar -> Q -> Q -> M (t Sub) (list (Q * Q) * list Q).

(** [calculate_range] may keep notes in the attributes of its own class,
    and leaves those of [BaseStrategy] alone. *)
Hypothesis calculate_range_frame :
  forall price_data current_price portfolio_value s r s',
    calculate_range price_data current_price portfolio_value s = (r, s') ->
    initialized s' = initialized s /\
    current_ranges s' = current_ranges s /\
    current_liquidities s' = current_liquidities s /\
    last_update s' = last_update s /\
    rebalance_count s' = rebalance_count s.

(** What a returning [update] does to the strategy.  The strategy is
    initialised afterwards.  The first call (not yet initialised) stores
    the computed positions and returns True without counting a rebalance.
    Any later call raises [rebalance_count] by one exactly when it returns
    True, and then holds the positions [calculate_range] returned and the
    timestamp of the last bar; when it returns False the stored positions
    are untouched.  A forced update always returns True. *)
Theorem update_counts_rebalances
  (self self' : t Sub) (price_data : list data.Bar)
  (current_price portfolio_value : Q) (force_update rebalance : bool) :
  update calculate_range price_data current_price portfolio_value
         force_update self = (Ok rebalance, self') ->
  exists ranges liquidities computed,
    calculate_range price_data current_price portfolio_value self
    = (Ok (ranges, liquidities), computed) /\
    initialized self' = true /\
    (initialized self = false ->
     rebalance = true /\
     rebalance_count self' = rebalance_count self /\
     current_ranges self' = ranges /\ current_liquidities self' = liquidities) /\
    (initialized self = true ->
     rebalance_count self'
     = (rebalance_count self + (if rebalance then 1 else 0))%Z /\
     (force_update = true -> rebalance = true) /\
     (rebalance = true ->
      current_ranges self' = ranges /\ current_liquidities self' = liquidities /\
      last_update self' = last_index price_data) /\
     (rebalance = false ->
      current_ranges self' = current_ranges self /\
      current_liquidities self' = current_liquidities self /\
      last_update self' = last_update self)).
Proof.
  intro H. unfold update in H. unfold bind at 1 in H. unfold get at 1 in H.
  destruct (initialized self) eqn:Hinit; cbn [negb] in H.
  - unfold bind at 1 in H.
    destruct (calculate_range price_data current_price portfolio_value self)
      as [[[ranges liquidities]|e] computed] eqn:Hcalc; [|discriminate].
    destruct (calculate_range_frame _ _ _ _ _ _ Hcalc)
      as [Fi [Fr [Fl [Fu Fc]]]].
    exists ranges, liquidities, computed. split; [reflexivity|].
    unfold bind at 1 in H. unfold get at 1 in H.
    unfold bind at 1 in H.
    destruct force_update.
    + unfold ret at 1 in H. unfold bind, modify, ret in H.
      injection H as <- <-. cbn [initialized rebalance_count current_ranges
                                 current_liquidities last_update].
      split; [congruence|]. split; [discriminate|]. intros _.
      split; [lia|]. split; [reflexivity|]. split; [|discriminate].
      intros _. repeat split.
    + unfold lift at 1 in H.
      destruct (_should_rebalance computed ranges liquidities) as [needed|e];
        [|discriminate].
      destruct needed.
      * unfold bind, modify, ret in H.
        injection H as <- <-. cbn [initialized rebalance_count current_ranges
                                   current_liquidities last_update].
        split; [congruence|]. split; [discriminate|]. intros _.
        split; [lia|]. split; [discriminate|]. split; [|discriminate].
        intros _. repeat split.
      * unfold ret in H. injection H as <- <-.
        split; [congruence|]. split; [discriminate|]. intros _.
        split; [lia|]. split; [discriminate|]. split; [discriminate|].
        intros _. repeat split; assumption.
  - unfold bind at 1 in H. unfold initialize in H.
    unfold bind at 1 in H. unfold get at 1 in H. rewrite Hinit in H.
    unfold bind at 1 in H.
    destruct (calculate_range price_data current_price portfolio_value self)
      as [[[ranges liquidities]|e] computed] eqn:Hcalc; [|discriminate].
    destruct (calculate_range_frame _ _ _ _ _ _ Hcalc)
      as [Fi [Fr [Fl [Fu Fc]]]].
    exists ranges, liquidities, computed. split; [reflexivity|].
    unfold modify, ret in H. injection H as <- <-.
    cbn [initialized rebalance_count current_ranges current_liquidities].
    split; [reflexivity|]. split; [|discriminate].
    intros _. repeat split. exact Fc.
Qed.

End Update.

Lemma channel_multiplier_calculate_range
  (self : channel_multiplier.t) (price_data : list data.Bar)
  (current_price portfolio_value : Q) :
  channel_multiplier.calculate_range price_data current_price portfolio_value
    self
  = (Ok ([(current_price
             * (1 - channel_multiplier.width_pct (sub self) / 200),
           current_price
             * (1 + channel_multiplier.width_pct (sub self) / 200))],
         [portfolio_value * (95 # 100)]),
     self).
Proof. reflexivity. Qed.

Lemma channel_multiplier_frame
  (price_data : list data.Bar) (current_price portfolio_value : Q)
  (s : channel_multiplier.t) (r : result (list (Q * Q) * list Q))
  (s' : channel_multiplier.t) :
  channel_multiplier.calculate_range price_data current_price portfolio_value s
  = (r, s') ->
  initialized s' = initialized s /\
  current_ranges s' = current_ranges s /\
  current_liquidities s' = current_liquidities s /\
  last_update s' = last_update s /\
  rebalance_count s' = rebalance_count s.
Proof.
  intro H. rewrite channel_multiplier_calculate_range in H.
  injection H as _ <-. repeat split.
Qed.

(** A channel strategy holding the range computed at 2000, updated at
    2100. *)
Lemma update_counts_rebalances_witness :
  let self :=
    mk true [(1900, 2100)] [9500] None 0%Z 0 (channel_multiplier.mkFields 10) in
  let bars := [data.mkBar 3600%Z 2100 2100 2100 2100 (Some 1) (Some 2100)] in
  let outcome := channel_multiplier.update bars 2100 10000 false self in
  fst outcome = Ok true /\
  rebalance_count (snd outcome) = 1%Z /\
  last_update (snd outcome) = Some 3600%Z.
Proof.
  intros self bars outcome.
  assert (H : channel_multiplier.update bars 2100 10000 false self
              = (Ok true, snd outcome)) by (vm_compute; reflexivity).
  destruct (update_counts_rebalances channel_multiplier.calculate_range
              channel_multiplier_frame
              self (snd outcome) bars 2100 10000 false true H)
    as [ranges [liquidities [computed [_ [_ [_ Hlater]]]]]].
  destruct (Hlater eq_refl) as [Hcount [_ [Hstored _]]].
  destruct (Hstored eq_refl) as [_ [_ Hlast]].
  split; [unfold outcome; rewrite H; reflexivity|].
  split; [rewrite Hcount; reflexivity | rewrite Hlast; reflexivity].
Defined.

End RebalanceDecision.

(** ** steerbt/strategies/channel_multiplier.py *)

Section ChannelMultiplier.

Import strategies.
Import portfolio.

(** The range of a Channel Multiplier strategy is centred on the current
    price and as wide as [width_pct] percent of it; the liquidity asked for
    is 95% of the portfolio value, and the strategy object is not changed.
    For a non-negative price and width the range contains the price, so a
    position opened on it is in range; and for a non-zero price
    [Position.get_range_width_pct] of that position gives [width_pct]
    back. *)
Theorem channel_multiplier_range_is_centred
  (self : channel_multiplier.t) (price_data : list data.Bar)
  (current_price portfolio_value : Q) (now : data.timestamp) :
  let width_pct := channel_multiplier.width_pct (base.sub self) in
  exists lower upper,
    channel_multiplier.calculate_range price_data current_price portfolio_value
      self
    = (Ok ([(lower, upper)], [portfolio_value * (95 # 100)]), self) /\
    (lower + upper) / 2 == current_price /\
    upper - lower == current_price * width_pct / 100 /\
    (0 <= current_price -> 0 <= width_pct ->
     Position.is_in_range
       (Position.new lower upper (portfolio_value * (95 # 100)) now)
       current_price = true) /\
    (~ current_price == 0 ->
     exists width,
       Position.get_range_width_pct
         (Position.new lower upper (portfolio_value * (95 # 100)) now)
       = Ok width /\
       width == width_pct).
Proof.
  intro width_pct.
  rewrite channel_multiplier_calculate_range. fold width_pct.
  eexists. eexists. split; [reflexivity|].
  split; [field|]. split; [field|]. split.
  - intros Hp Hw. unfold Position.is_in_range, Position.new.
    cbn [Position.lower_price Position.upper_price].
    assert (Hpw : 0 <= current_price * width_pct)
      by (apply Qmult_le_0_compat; assumption).
    apply andb_true_iff. split; apply Qle_bool_iff.
    + setoid_replace (current_price * (1 - width_pct / 200))
        with (current_price - current_price * width_pct * (1 # 200)) by field.
      lra.
    + setoid_replace (current_price * (1 + width_pct / 200))
        with (current_price + current_price * width_pct * (1 # 200)) by field.
      lra.
  - intro Hp. unfold Position.get_range_width_pct, Position.new.
    cbn [Position.lower_price Position.upper_price].
    assert (Hcenter :
      (current_price * (1 - width_pct / 200)
       + current_price * (1 + width_pct / 200)) / 2 == current_price)
      by field.
    rewrite truediv_ok by (rewrite Hcenter; exact Hp).
    cbn [rbind]. eexists. split; [reflexivity|].
    rewrite Hcenter. field. exact Hp.
Qed.

(** A 10% channel around 2000. *)
Lemma channel_multiplier_range_is_centred_witness :
  exists lower upper,
    channel_multiplier.calculate_range [] 2000 10000 (channel_multiplier.new 10)
    = (Ok ([(lower, upper)], [10000 * (95 # 100)]), channel_multiplier.new 10) /\
    (lower + upper) / 2 == 2000 /\
    upper - lower == 2000 * 10 / 100 /\
    (0 <= 2000 -> 0 <= 10 ->
     Position.is_in_range (Position.new lower upper (10000 * (95 # 100)) 0%Z)
       2000 = true) /\
    (~ 2000 == 0 ->
     exists width,
       Position.get_range_width_pct
         (Position.new lower upper (10000 * (95 # 100)) 0%Z) = Ok width /\
       width == 10).
Proof.
  apply (channel_multiplier_range_is_centred
           (channel_multiplier.new 10) [] 2000 10000 0%Z).
Defined.

Lemma Qabs_scaled (x c : Q) : 0 < c -> Qabs (x * c) == Qabs x * c.
Proof.
  intro Hc. rewrite Qabs_Qmult. rewrite (Qabs_pos c) by lra. reflexivity.
Qed.

Lemma relative_change_scaled (x y c : Q) :
  0 < y -> 0 < c ->
  Qabs (x * c - y * c) / (y * c) == Qabs (x - y) / y.
Proof.
  intros Hy Hc.
  setoid_replace (x * c - y * c) with ((x - y) * c) by ring.
  rewrite Qabs_scaled by exact Hc. field. split; lra.
Qed.

(** When a Channel Multiplier strategy rebalances.  Let the strategy hold
    the positions it computed at price [p0] for a portfolio worth [v0]
    (both positive, the width between 0 and 200 percent).  An update at
    price [p] for a portfolio worth [v] signals a rebalance when the price
    has moved by more than 1% of [p0] or the value by more than 5% of
    [v0], and signals none when both moves are smaller.  The program
    compares rounded doubles with the thresholds, so a move within one
    billionth of a threshold is left open. *)
Theorem channel_multiplier_rebalances_on_move
  (self : channel_multiplier.t) (history price_data : list data.Bar)
  (p0 v0 p v : Q) :
  base.initialized self = true ->
  channel_multiplier.calculate_range history p0 v0 self
  = (Ok (base.current_ranges self, base.current_liquidities self), self) ->
  0 < p0 -> 0 < v0 ->
  0 <= channel_multiplier.width_pct (base.sub self) ->
  channel_multiplier.width_pct (base.sub self) < 200 ->
  let margin := 1 # 1000000000 in
  exists rebalance self',
    channel_multiplier.update price_data p v false self
    = (Ok rebalance, self') /\
    ((1 # 100) + margin <= Qabs (p - p0) / p0 \/
     (5 # 100) + margin <= Qabs (v - v0) / v0 ->
     rebalance = true) /\
    (Qabs (p - p0) / p0 <= (1 # 100) - margin ->
     Qabs (v - v0) / v0 <= (5 # 100) - margin ->
     rebalance = false).
Proof.
  intros Hinit Hstored Hp0 Hv0 Hw0 Hw200 margin.
  rewrite channel_multiplier_calculate_range in Hstored.
  injection Hstored as Hr Hl.
  set (w := channel_multiplier.width_pct (base.sub self)) in *.
  assert (Hlo : 0 < 1 - w / 200).
  { setoid_replace (1 - w / 200) with (1 - w * (1 # 200)) by field. lra. }
  assert (Hhi : 0 < 1 + w / 200).
  { setoid_replace (1 + w / 200) with (1 + w * (1 # 200)) by field. lra. }
  assert (H95 : 0 < v0 * (95 # 100)) by lra.
  destruct (should_rebalance_decides self
              [(p * (1 - w / 200), p * (1 + w / 200))]
              [v * (95 # 100)])
    as [b [Hb Hiff]].
  - rewrite <- Hr. reflexivity.
  - rewrite <- Hl. reflexivity.
  - rewrite <- Hr. intros r [<-|[]]. cbn [fst snd].
    split; apply Qmult_lt_0_compat; assumption.
  - rewrite <- Hl. intros l [<-|[]]. exact H95.
  - unfold channel_multiplier.update, base.update.
    unfold bind at 1. unfold get at 1. rewrite Hinit. cbn [negb].
    unfold bind at 1. rewrite channel_multiplier_calculate_range. fold w.
    unfold bind at 1. unfold get at 1. unfold bind at 1. unfold lift at 1.
    rewrite Hb.
    assert (Hmeaning :
      b = true <->
      1 # 100 < Qabs (p - p0) / p0 \/ 5 # 100 < Qabs (v - v0) / v0).
    { rewrite Hiff, <- Hr, <- Hl. unfold zip. cbn [combine]. split.
      - intros [[q [[<-|[]] Hm]]|[q [[<-|[]] Hm]]]; cbn [fst snd] in Hm.
        + left. rewrite !relative_change_scaled in Hm by assumption. tauto.
        + right.
          rewrite (relative_change_scaled v v0 (95 # 100)) in Hm
            by (try assumption; reflexivity).
          exact Hm.
      - intros [Hm|Hm].
        + left. eexists. split; [left; reflexivity|]. cbn [fst snd].
          left. rewrite relative_change_scaled by assumption. exact Hm.
        + right. eexists. split; [left; reflexivity|]. cbn [fst snd].
          rewrite (relative_change_scaled v v0 (95 # 100))
            by (try assumption; reflexivity).
          exact Hm. }
    assert (Hmargin : 0 < margin) by reflexivity.
    assert (Hdecided :
      ((1 # 100) + margin <= Qabs (p - p0) / p0 \/
       (5 # 100) + margin <= Qabs (v - v0) / v0 -> b = true) /\
      (Qabs (p - p0) / p0 <= (1 # 100) - margin ->
       Qabs (v - v0) / v0 <= (5 # 100) - margin -> b = false)).
    { split.
      - intros [H|H]; apply Hmeaning; [left|right]; lra.
      - intros H1 H2. destruct b; [|reflexivity].
        destruct (proj1 Hmeaning eq_refl) as [H|H]; lra. }
    destruct b.
    + unfold bind, modify, ret. eexists. eexists. split; [reflexivity|].
      exact Hdecided.
    + unfold ret. eexists. eexists. split; [reflexivity|]. exact Hdecided.
Qed.

(** A 10% channel computed at 2000 for a portfolio of 10000, updated at
    2015: a move of 0.75%, no rebalance. *)
Lemma channel_multiplier_rebalances_on_move_witness :
  let self :=
    base.mk true
      [(2000 * (1 - 10 / 200), 2000 * (1 + 10 / 200))] [10000 * (95 # 100)]
      None 0%Z 0 (channel_multiplier.mkFields 10) in
  fst (channel_multiplier.update [] 2015 10000 false self) = Ok false.
Proof.
  intro self.
  assert (Hinit : base.initialized self = true) by reflexivity.
  assert (Hstored :
    channel_multiplier.calculate_range [] 2000 10000 self
    = (Ok (base.current_ranges self, base.current_liquidities self), self))
    by reflexivity.
  assert (Hp0 : 0 < 2000) by reflexivity.
  assert (Hv0 : 0 < 10000) by reflexivity.
  assert (Hw0 : 0 <= channel_multiplier.width_pct (base.sub self))
    by (vm_compute; congruence).
  assert (Hw200 : channel_multiplier.width_pct (base.sub self) < 200)
    by reflexivity.
  destruct (channel_multiplier_rebalances_on_move
              self [] [] 2000 10000 2015 10000
              Hinit Hstored Hp0 Hv0 Hw0 Hw200)
    as [rebalance [self' [Hupdate [_ Hsmall]]]].
  rewrite Hupdate. cbn [fst]. f_equal.
  apply Hsmall; vm_compute; discriminate.
Defined.

End ChannelMultiplier.

(** ** steerbt/backtester.py: what a run records *)

Section Preservation.

Context {S X : Type} (proj : S -> X).

Lemma preserves_ret {A} (a : A) : preserves proj (ret a : M S A).
Proof. intro s. reflexivity. Qed.

Lemma preserves_raise {A} (e : exn) : preserves proj (raise e : M S A).
Proof. intro s. reflexivity. Qed.

Lemma preserves_get : preserves proj (get : M S S).
Proof. intro s. reflexivity. Qed.

Lemma preserves_lift {A} (r : result A) : preserves proj (lift r : M S A).
Proof. intro s. reflexivity. Qed.

Lemma preserves_modify (f : S -> S) :
  (forall s, proj (f s) = proj s) -> preserves proj (modify f).
Proof. intros H s. apply H. Qed.

Lemma preserves_bind {A B} (m : M S A) (k : A -> M S B) :
  preserves proj m -> (forall a, preserves proj (k a)) ->
  preserves proj (bind m k).
Proof.
  intros Hm Hk s. unfold bind. specialize (Hm s).
  destruct (m s) as [[a|e] s1]; cbn [snd] in *.
  - rewrite (Hk a s1). exact Hm.
  - exact Hm.
Qed.

Lemma preserves_for_each {Y} (xs : list Y) (body : Y -> M S unit) :
  (forall x, preserves proj (body x)) -> preserves proj (for_each xs body).
Proof.
  intro H. induction xs as [|x xs IH]; cbn [for_each].
  - apply preserves_ret.
  - apply preserves_bind; [apply H | intros _; exact IH].
Qed.

Lemma preserves_for_fold {Y A} (xs : list Y) (body : A -> Y -> M S A) :
  (forall a x, preserves proj (body a x)) ->
  forall acc, preserves proj (for_fold xs acc body).
Proof.
  intro H. induction xs as [|x xs IH]; intro acc; cbn [for_fold].
  - apply preserves_ret.
  - apply preserves_bind; [apply H | intro a; apply IH].
Qed.

Lemma preserved {A} (m : M S A) (s : S) (r : result A) (s' : S) :
  preserves proj m -> m s = (r, s') -> proj s' = proj s.
Proof. intros H E. specialize (H s). rewrite E in H. exact H. Qed.

End Preservation.

Lemma bind_returns {S A B} (m : M S A) (k : A -> M S B) (s : S) (b : B) (s' : S) :
  bind m k s = (Ok b, s') ->
  exists a s1, m s = (Ok a, s1) /\ k a s1 = (Ok b, s').
Proof.
  unfold bind. destruct (m s) as [[a|e] s1]; intro H; [|discriminate].
  exists a, s1. split; [reflexivity | exact H].
Qed.

Section PortfolioFrame.

Import portfolio.

(** Rebalancing and fee accrual do not touch the equity curve. *)
Lemma rebalance_positions_keeps_curve
  (ranges : list (Q * Q)) (liqs : list Q) (price : Q) (now : data.timestamp) :
  preserves Portfolio.equity_curve
            (Portfolio.rebalance_positions ranges liqs price now).
Proof.
  unfold Portfolio.rebalance_positions, Portfolio.liquidate,
    Portfolio.open_position.
  repeat first
    [ apply preserves_raise
    | apply preserves_get
    | apply preserves_lift
    | apply preserves_ret
    | apply preserves_modify; intro; reflexivity
    | apply preserves_for_each; intro
    | apply preserves_for_fold; intros
    | apply preserves_bind; [|intro]
    | match goal with
      | |- preserves _ (match ?v with _ => _ end) => destruct v
      end ].
Qed.

Lemma add_fees_to_positions_keeps_curve (bar : data.Bar) (share : Q) :
  preserves Portfolio.equity_curve (Portfolio.add_fees_to_positions bar share).
Proof.
  unfold Portfolio.add_fees_to_positions.
  apply preserves_bind; [apply preserves_get | intro self].
  apply preserves_bind; [|intro; apply preserves_ret].
  apply preserves_for_fold. intros i position.
  destruct (Position.is_in_range position (data.close bar));
    [|apply preserves_ret].
  destruct (data.quote_volume bar); [|apply preserves_raise].
  apply preserves_bind; [|intro; apply preserves_ret].
  apply preserves_modify. intro. reflexivity.
Qed.

End PortfolioFrame.

Section Engine.

Import portfolio.
Import backtester.

Variable C : StrategyClass.

Lemma on_strategy_keeps {A} (m : M (Self C) A) :
  preserves (kept C) (on_strategy C m).
Proof.
  intro s. unfold on_strategy. destruct (m (strategy C s)). reflexivity.
Qed.

Lemma on_portfolio_keeps {A} (m : M Portfolio.t A) :
  preserves Portfolio.equity_curve m -> preserves (kept C) (on_portfolio C m).
Proof.
  intros H s. unfold on_portfolio. specialize (H (portfolio C s)).
  destruct (m (portfolio C s)). cbn [snd] in *. unfold kept.
  cbn [portfolio hodl_portfolio single_asset_portfolio]. rewrite H.
  reflexivity.
Qed.

Lemma bind_keeps {X A B} (proj : backtester.t C -> X)
  (m : M (backtester.t C) A) (k : A -> M (backtester.t C) B)
  (s : backtester.t C) (b : B) (s' : backtester.t C) :
  preserves proj m -> bind m k s = (Ok b, s') ->
  exists a s1, proj s1 = proj s /\ k a s1 = (Ok b, s').
Proof.
  intros Hm H. apply bind_returns in H. destruct H as [a [s1 [H1 H2]]].
  exists a, s1. split; [|exact H2]. exact (preserved proj m s _ s1 Hm H1).
Qed.

(** One bar.  When the body of the loop returns, the hold-50:50 baseline
    has been rebalanced if the bar index is a multiple of 24, each of the
    three portfolios has recorded one point for the bar, and nothing else
    has happened to the baselines or to the strategy's equity curve. *)
Lemma step_records
  (now : data.timestamp) (history : list data.Bar) (i : nat) (row : data.Bar)
  (s s' : backtester.t C) :
  step C now history i row s = (Ok tt, s') ->
  let ts := data.bar_timestamp row in
  let price := data.close row in
  single_asset_portfolio C s'
  = snd (BaselinePortfolio.record_equity_point ts price
           (single_asset_portfolio C s)) /\
  (exists rebalanced,
     (if Nat.eqb (Nat.modulo i 24) 0
      then BaselinePortfolio.rebalance_to_50_50 price (hodl_portfolio C s)
           = (Ok tt, rebalanced)
      else rebalanced = hodl_portfolio C s) /\
     hodl_portfolio C s'
     = snd (BaselinePortfolio.record_equity_point ts price rebalanced)) /\
  (exists total,
     Portfolio.get_total_value (portfolio C s') price = Ok total /\
     Portfolio.equity_curve (portfolio C s')
     = Portfolio.equity_curve (portfolio C s)
         ++ [mkEquityPoint ts price total
               (Portfolio.cash (portfolio C s'))
               (total - Portfolio.cash (portfolio C s'))
               (sum (map Position.fees_earned
                         (Portfolio.positions (portfolio C s'))))
               (Portfolio.total_fees_paid (portfolio C s')
                + Portfolio.total_gas_paid (portfolio C s')
                + Portfolio.total_slippage (portfolio C s'))]).
Proof.
  intros H ts price. unfold step in H. fold ts price in H.
  (* the baselines *)
  apply bind_returns in H. destruct H as [u [s1 [Hbase H]]].
  assert (Hs1 : Portfolio.equity_curve (portfolio C s1)
                = Portfolio.equity_curve (portfolio C s) /\
                single_asset_portfolio C s1 = single_asset_portfolio C s /\
                exists rebalanced,
                  (if Nat.eqb (Nat.modulo i 24) 0
                   then BaselinePortfolio.rebalance_to_50_50 price
                          (hodl_portfolio C s) = (Ok tt, rebalanced)
                   else rebalanced = hodl_portfolio C s) /\
                  hodl_portfolio C s1 = rebalanced).
  { unfold _update_baseline_portfolios in Hbase.
    destruct (Nat.eqb (Nat.modulo i 24) 0).
    - unfold on_hodl in Hbase.
      destruct (BaselinePortfolio.rebalance_to_50_50 price (hodl_portfolio C s))
        as [r h] eqn:E.
      injection Hbase as -> <-. destruct u.
      split; [reflexivity|]. split; [reflexivity|].
      exists h. split; reflexivity.
    - unfold ret in Hbase. injection Hbase as _ <-.
      split; [reflexivity|]. split; [reflexivity|].
      exists (hodl_portfolio C s). split; reflexivity. }
  destruct Hs1 as [Hcurve1 [Hsingle1 [rebalanced [Hreb Hhodl1]]]].
  (* the strategy and the portfolio *)
  apply (bind_keeps (kept C)) in H; [|apply preserves_get].
  destruct H as [self1 [s2 [K2 H]]].
  apply (bind_keeps (kept C)) in H; [|apply preserves_lift].
  destruct H as [value [s3 [K3 H]]].
  apply (bind_keeps (kept C)) in H; [|apply on_strategy_keeps].
  destruct H as [should [s4 [K4 H]]].
  apply (bind_keeps (kept C)) in H.
  2:{ destruct should; [|apply preserves_ret].
      repeat first
        [ apply preserves_get
        | apply preserves_lift
        | apply preserves_ret
        | apply on_strategy_keeps
        | apply on_portfolio_keeps, rebalance_positions_keeps_curve
        | apply preserves_bind; [|intro]
        | match goal with
          | |- preserves _ (match ?v with _ => _ end) => destruct v
          end ]. }
  destruct H as [u5 [s5 [K5 H]]].
  apply (bind_keeps (kept C)) in H.
  2:{ apply preserves_bind; [apply preserves_get | intro].
      match goal with
      | |- preserves _ (if ?c then _ else _) => destruct c
      end; [|apply preserves_ret].
      apply on_portfolio_keeps, add_fees_to_positions_keeps_curve. }
  destruct H as [u6 [s6 [K6 H]]].
  assert (K : kept C s6 = kept C s1) by congruence.
  unfold kept in K. injection K as Kc Kh Ks.
  (* the three records *)
  apply bind_returns in H. destruct H as [u7 [s7 [Hrec H]]].
  apply bind_returns in H. destruct H as [u8 [s8 [Hrech Hrecs]]].
  unfold on_portfolio, Portfolio.record_equity_point in Hrec.
  unfold bind at 1 in Hrec. unfold get at 1 in Hrec.
  unfold bind at 1 in Hrec. unfold lift at 1 in Hrec.
  destruct (Portfolio.get_total_value (portfolio C s6) price)
    as [total|e] eqn:Etotal; [|discriminate].
  unfold modify in Hrec. injection Hrec as _ <-.
  unfold on_hodl, BaselinePortfolio.record_equity_point, modify in Hrech.
  injection Hrech as _ <-.
  unfold on_single_asset, BaselinePortfolio.record_equity_point, modify in Hrecs.
  injection Hrecs as <-.
  cbn [portfolio hodl_portfolio single_asset_portfolio].
  split; [|split].
  - unfold BaselinePortfolio.record_equity_point, modify. cbn [snd].
    rewrite Ks, Hsingle1. reflexivity.
  - exists rebalanced. split; [exact Hreb|].
    unfold BaselinePortfolio.record_equity_point, modify. cbn [snd].
    rewrite Kh, Hhodl1. reflexivity.
  - exists total. split.
    + unfold Portfolio.get_total_value in *.
      cbn [Portfolio.cash Portfolio.positions Portfolio.set_equity_curve].
      exact Etotal.
    + cbn [Portfolio.equity_curve Portfolio.set_equity_curve Portfolio.cash
           Portfolio.positions Portfolio.total_fees_paid
           Portfolio.total_gas_paid Portfolio.total_slippage].
      rewrite Kc, Hcurve1. reflexivity.
Qed.

(** The whole loop, from the bar of index [i]. *)
Lemma main_loop_records (now : data.timestamp) (price_data : list data.Bar) :
  forall (rows : list data.Bar) (i : nat) (s s' : backtester.t C),
    main_loop C now price_data i rows s = (Ok tt, s') ->
    single_asset_portfolio C s'
    = fold_left
        (fun acc row =>
           snd (BaselinePortfolio.record_equity_point
                  (data.bar_timestamp row) (data.close row) acc))
        rows (single_asset_portfolio C s) /\
    hodl_baseline_loop i rows (hodl_portfolio C s)
    = (Ok tt, hodl_portfolio C s') /\
    exists points,
      Portfolio.equity_curve (portfolio C s')
      = Portfolio.equity_curve (portfolio C s) ++ points /\
      map (fun pt => (ep_timestamp pt, ep_price pt)) points
      = map (fun row => (data.bar_timestamp row, data.close row)) rows /\
      Forall (fun pt => ep_positions_value pt = ep_total_value pt - ep_cash pt)
             points.
Proof.
  induction rows as [|row rows IH]; intros i s s' H; cbn [main_loop] in H.
  - unfold ret in H. injection H as <-. cbn [fold_left hodl_baseline_loop].
    split; [reflexivity|]. split; [reflexivity|].
    exists []. rewrite app_nil_r. repeat split. constructor.
  - apply bind_returns in H. destruct H as [u [s1 [Hstep Hloop]]]. destruct u.
    destruct (step_records _ _ _ _ _ _ Hstep)
      as [Hsingle [[rebalanced [Hreb Hhodl]] [total [Htotal Hcurve]]]].
    destruct (IH _ _ _ Hloop) as [Hsingle' [Hhodl' [points [Hcurve' [Hkeys Hvals]]]]].
    split; [|split].
    + cbn [fold_left]. rewrite Hsingle', Hsingle. reflexivity.
    + cbn [hodl_baseline_loop]. unfold bind at 1.
      assert (Hfirst :
        (if Nat.eqb (Nat.modulo i 24) 0
         then BaselinePortfolio.rebalance_to_50_50 (data.close row)
         else ret tt) (hodl_portfolio C s) = (Ok tt, rebalanced)).
      { destruct (Nat.eqb (Nat.modulo i 24) 0);
          [exact Hreb | rewrite Hreb; reflexivity]. }
      rewrite Hfirst. unfold bind at 1.
      unfold BaselinePortfolio.record_equity_point at 1. unfold modify at 1.
      unfold BaselinePortfolio.record_equity_point, modify in Hhodl.
      cbn [snd] in Hhodl. rewrite <- Hhodl. exact Hhodl'.
    + eexists. split; [rewrite Hcurve', Hcurve, <- app_assoc; reflexivity|].
      cbn [map app ep_timestamp ep_price]. rewrite Hkeys.
      split; [reflexivity|]. constructor; [reflexivity | exact Hvals].
Qed.

(** A run, from the state the engine is in when [run] is called. *)
Lemma run_records (now : data.timestamp) (first : data.Bar)
  (rest : list data.Bar) (s s' : backtester.t C) :
  run C now (first :: rest) s = (Ok tt, s') ->
  exists hodl0 single0,
    BaselinePortfolio.initialize_position (data.close first)
      (hodl_portfolio C s) = (Ok tt, hodl0) /\
    BaselinePortfolio.initialize_position (data.close first)
      (single_asset_portfolio C s) = (Ok tt, single0) /\
    single_asset_portfolio C s'
    = fold_left
        (fun acc row =>
           snd (BaselinePortfolio.record_equity_point
                  (data.bar_timestamp row) (data.close row) acc))
        (first :: rest) single0 /\
    hodl_baseline_loop 0 (first :: rest) hodl0 = (Ok tt, hodl_portfolio C s') /\
    exists points,
      Portfolio.equity_curve (portfolio C s')
      = Portfolio.equity_curve (portfolio C s) ++ points /\
      map (fun pt => (ep_timestamp pt, ep_price pt)) points
      = map (fun row => (data.bar_timestamp row, data.close row))
            (first :: rest) /\
      Forall (fun pt => ep_positions_value pt = ep_total_value pt - ep_cash pt)
             points.
Proof.
  intro H. unfold run in H.
  apply bind_returns in H. destruct H as [u1 [s1 [Hh H]]].
  apply bind_returns in H. destruct H as [u2 [s2 [Hs H]]].
  apply (bind_keeps (kept C)) in H; [|apply preserves_get].
  destruct H as [self [s3 [K3 H]]].
  apply (bind_keeps (kept C)) in H; [|apply on_strategy_keeps].
  destruct H as [u4 [s4 [K4 H]]].
  unfold on_hodl in Hh.
  destruct (BaselinePortfolio.initialize_position (data.close first)
              (hodl_portfolio C s)) as [rh hodl0] eqn:Eh.
  injection Hh as -> <-.
  unfold on_single_asset in Hs. cbn [single_asset_portfolio] in Hs.
  destruct (BaselinePortfolio.initialize_position (data.close first)
              (single_asset_portfolio C s)) as [rs single0] eqn:Es.
  injection Hs as -> <-.
  assert (K : kept C s4
              = (Portfolio.equity_curve (portfolio C s), hodl0, single0))
    by (rewrite K4, K3; reflexivity).
  unfold kept in K. injection K as Kc Kh Ks.
  destruct (main_loop_records _ _ _ _ _ _ H)
    as [Hsingle [Hhodl [points [Hcurve [Hkeys Hvals]]]]].
  exists hodl0, single0. destruct u1, u2.
  split; [reflexivity|]. split; [reflexivity|].
  split; [rewrite Hsingle, Ks; reflexivity|].
  split; [rewrite <- Kh; exact Hhodl|].
  exists points. split; [rewrite Hcurve, Kc; reflexivity|].
  split; assumption.
Qed.

Lemma record_fold (rows : list data.Bar) :
  forall single : BaselinePortfolio.t,
    fold_left
      (fun acc row =>
         snd (BaselinePortfolio.record_equity_point
                (data.bar_timestamp row) (data.close row) acc))
      rows single
    = BaselinePortfolio.mk
        (BaselinePortfolio.initial_cash single) (BaselinePortfolio.cash single)
        (BaselinePortfolio.strategy single)
        (BaselinePortfolio.amount0 single) (BaselinePortfolio.amount1 single)
        (BaselinePortfolio.equity_curve single
           ++ map (fun row =>
                     BaselinePortfolio.mkBaselineEquityPoint
                       (data.bar_timestamp row) (data.close row)
                       (BaselinePortfolio.get_value single (data.close row))
                       (BaselinePortfolio.amount0 single)
                       (BaselinePortfolio.amount1 single)
                       (BaselinePortfolio.cash single))
                  rows).
Proof.
  induction rows as [|row rows IH]; intro single; cbn [fold_left map].
  - rewrite app_nil_r. destruct single. reflexivity.
  - rewrite IH. unfold BaselinePortfolio.record_equity_point, modify.
    cbn [snd BaselinePortfolio.initial_cash BaselinePortfolio.cash
         BaselinePortfolio.strategy BaselinePortfolio.amount0
         BaselinePortfolio.amount1 BaselinePortfolio.equity_curve].
    rewrite <- app_assoc. reflexivity.
Qed.

(** A run returns only on data that is not empty, and then records every
    bar: the strategy's equity curve grows by one point per bar, carrying
    the bar's timestamp and close in order and a [positions_value] that is
    the total value less the cash.  On empty data [run] raises
    [ValueError] and changes nothing. *)
Theorem run_records_every_bar
  (now : data.timestamp) (price_data : list data.Bar) (s s' : backtester.t C) :
  run C now [] s = (Raise ValueError, s) /\
  (run C now price_data s = (Ok tt, s') ->
   price_data <> [] /\
   exists points,
     Portfolio.equity_curve (portfolio C s')
     = Portfolio.equity_curve (portfolio C s) ++ points /\
     map (fun pt => (ep_timestamp pt, ep_price pt)) points
     = map (fun row => (data.bar_timestamp row, data.close row)) price_data /\
     Forall (fun pt => ep_positions_value pt = ep_total_value pt - ep_cash pt)
            points).
Proof.
  split; [reflexivity|]. intro H.
  destruct price_data as [|first rest]; [discriminate|].
  split; [discriminate|].
  destruct (run_records _ _ _ _ _ H) as [h0 [s0 [_ [_ [_ [_ Hpoints]]]]]].
  exact Hpoints.
Qed.

(** The single-asset baseline follows the price.  After a run, from a
    newly built engine, over data whose first close is not zero, it holds
    [initial_cash / first close] units of token0 and nothing else, and the
    point it recorded for each bar values those units at the bar's
    close. *)
Theorem single_asset_baseline_tracks_price
  (now : data.timestamp) (first : data.Bar) (rest : list data.Bar)
  (strategy : Self C) (initial_cash : Q) (fee_bps slippage_bps : Z)
  (gas_cost liq_share : Q) (s' : backtester.t C) :
  ~ data.close first == 0 ->
  run C now (first :: rest)
      (backtester.new C strategy initial_cash fee_bps slippage_bps
                      gas_cost liq_share) = (Ok tt, s') ->
  let units := initial_cash / data.close first in
  single_asset_portfolio C s'
  = BaselinePortfolio.mk initial_cash 0 "single_asset" units 0
      (map (fun row =>
              BaselinePortfolio.mkBaselineEquityPoint
                (data.bar_timestamp row) (data.close row)
                (units * data.close row + 0 + 0) units 0 0)
           (first :: rest)).
Proof.
  intros _ H units.
  destruct (run_records _ _ _ _ _ H) as [h0 [s0 [_ [Hs [Hsingle _]]]]].
  cbn [backtester.new single_asset_portfolio] in Hs.
  unfold BaselinePortfolio.initialize_position in Hs.
  unfold bind at 1 in Hs. unfold get at 1 in Hs.
  cbn [BaselinePortfolio.new BaselinePortfolio.strategy String.eqb Ascii.eqb
       Bool.eqb BaselinePortfolio.cash] in Hs.
  unfold bind, lift, truediv in Hs.
  destruct (Qeq_bool (data.close first) 0) eqn:E; [discriminate|].
  unfold put in Hs. injection Hs as <-.
  rewrite Hsingle, record_fold. reflexivity.
Qed.

End Engine.

Section EngineWitnesses.

Import strategies.
Import portfolio.
Import backtester.

(** Three bars through a channel strategy. *)
Lemma run_records_every_bar_witness :
  let bars :=
    [data.mkBar 0%Z 2000 2000 2000 2000 (Some 1) (Some 2000);
     data.mkBar 3600%Z 2010 2010 2010 2010 (Some 1) (Some 2010);
     data.mkBar 7200%Z 1995 1995 1995 1995 (Some 1) (Some 1995)] in
  let outcome :=
    run ChannelMultiplierStrategy 0%Z bars
      (new ChannelMultiplierStrategy (channel_multiplier.new 10)
           10000 5 1 0 (2 # 1000)) in
  fst outcome = Ok tt /\
  map (fun pt => (ep_timestamp pt, ep_price pt))
      (Portfolio.equity_curve (portfolio _ (snd outcome)))
  = [(0%Z, 2000); (3600%Z, 2010); (7200%Z, 1995)].
Proof.
  intros bars outcome.
  assert (H : run ChannelMultiplierStrategy 0%Z bars
                (new ChannelMultiplierStrategy (channel_multiplier.new 10)
                     10000 5 1 0 (2 # 1000))
              = (Ok tt, snd outcome)) by (vm_compute; reflexivity).
  split; [unfold outcome; rewrite H; reflexivity|].
  destruct (proj2 (run_records_every_bar ChannelMultiplierStrategy 0%Z bars
                     _ (snd outcome)) H) as [_ [points [Hcurve [Hkeys _]]]].
  rewrite Hcurve. cbn [new portfolio Portfolio.new Portfolio.equity_curve app].
  exact Hkeys.
Defined.

(** The same run, seen from the single-asset baseline. *)
Lemma single_asset_baseline_tracks_price_witness :
  let first := data.mkBar 0%Z 2000 2000 2000 2000 (Some 1) (Some 2000) in
  let rest :=
    [data.mkBar 3600%Z 2010 2010 2010 2010 (Some 1) (Some 2010);
     data.mkBar 7200%Z 1995 1995 1995 1995 (Some 1) (Some 1995)] in
  let outcome :=
    run ChannelMultiplierStrategy 0%Z (first :: rest)
      (new ChannelMultiplierStrategy (channel_multiplier.new 10)
           10000 5 1 0 (2 # 1000)) in
  BaselinePortfolio.amount0 (single_asset_portfolio _ (snd outcome))
  = 10000 / 2000 /\
  List.length
    (BaselinePortfolio.equity_curve (single_asset_portfolio _ (snd outcome)))
  = 3%nat.
Proof.
  intros first rest outcome.
  assert (H : run ChannelMultiplierStrategy 0%Z (first :: rest)
                (new ChannelMultiplierStrategy (channel_multiplier.new 10)
                     10000 5 1 0 (2 # 1000))
              = (Ok tt, snd outcome)) by (vm_compute; reflexivity).
  assert (Hclose : ~ data.close first == 0) by (vm_compute; congruence).
  pose proof (single_asset_baseline_tracks_price ChannelMultiplierStrategy
                0%Z first rest _ _ _ _ _ _ _ Hclose H) as Hsingle.
  cbv zeta in Hsingle. rewrite Hsingle. split; reflexivity.
Defined.

End EngineWitnesses.

Section HodlBaseline.

Import portfolio.
Import backtester.
Import BaselinePortfolio.

Lemma rebalance_to_50_50_returns (price : Q) (h h1 : BaselinePortfolio.t) :
  strategy h = "hodl_50_50"%string ->
  rebalance_to_50_50 price h = (Ok tt, h1) ->
  ~ price == 0 /\
  h1 = BaselinePortfolio.mk (initial_cash h) (cash h) (strategy h)
         (get_value h price / (2 * price)) (get_value h price / 2)
         (equity_curve h).
Proof.
  intros Hs H. unfold rebalance_to_50_50 in H.
  unfold bind at 1 in H. unfold get at 1 in H. rewrite Hs in H.
  cbn [String.eqb Ascii.eqb Bool.eqb negb] in H.
  unfold bind, lift, truediv in H.
  destruct (Qeq_bool (2 * price) 0) eqn:E; [discriminate|].
  unfold put in H. injection H as <-. rewrite Hs. split; [|reflexivity].
  intro Hz. assert (Hz2 : 2 * price == 0) by (rewrite Hz; ring).
  apply Qeq_bool_iff in Hz2. congruence.
Qed.

(** The loop on the hold-50:50 baseline, from the bar of index [i], for a
    baseline without cash: [amounts] lists the holdings before the first
    bar and after each bar. *)
Lemma hodl_baseline_loop_spec :
  forall (rows : list data.Bar) (i : nat) (h h' : BaselinePortfolio.t),
    strategy h = "hodl_50_50"%string -> cash h = 0 ->
    hodl_baseline_loop i rows h = (Ok tt, h') ->
    exists points,
      equity_curve h' = equity_curve h ++ points /\
      List.length points = List.length rows /\
      let amounts :=
        (amount0 h, amount1 h)
          :: map (fun pt => (bep_amount0 pt, bep_amount1 pt)) points in
      forall j row pt held,
        nth_error rows j = Some row -> nth_error points j = Some pt ->
        nth_error amounts j = Some held ->
        bep_timestamp pt = data.bar_timestamp row /\
        bep_price pt = data.close row /\
        bep_cash pt = 0 /\
        bep_total_value pt
        == bep_amount0 pt * data.close row + bep_amount1 pt /\
        bep_total_value pt == fst held * data.close row + snd held /\
        (Nat.modulo (i + j) 24 = 0%nat ->
         bep_amount0 pt * data.close row == bep_amount1 pt) /\
        (Nat.modulo (i + j) 24 <> 0%nat ->
         (bep_amount0 pt, bep_amount1 pt) = held).
Proof.
  induction rows as [|row rows IH]; intros i h h' Hs Hc H;
    cbn [hodl_baseline_loop] in H.
  - unfold ret in H. injection H as <-. exists [].
    rewrite app_nil_r. split; [reflexivity|]. split; [reflexivity|].
    cbv zeta. intros j row pt held Hrow. destruct j; discriminate.
  - apply bind_returns in H. destruct H as [[] [h1 [Hfirst H]]].
    apply bind_returns in H. destruct H as [[] [h2 [Hrec Hrest]]].
    unfold record_equity_point, modify in Hrec. injection Hrec as <-.
    set (price := data.close row) in *.
    assert (Hh1 :
      strategy h1 = "hodl_50_50"%string /\ cash h1 = 0 /\
      equity_curve h1 = equity_curve h /\
      get_value h1 price == amount0 h * price + amount1 h /\
      (Nat.modulo i 24 = 0%nat -> amount0 h1 * price == amount1 h1) /\
      (Nat.modulo i 24 <> 0%nat ->
       (amount0 h1, amount1 h1) = (amount0 h, amount1 h))).
    { destruct (Nat.eqb (Nat.modulo i 24) 0) eqn:E.
      - destruct (rebalance_to_50_50_returns price h h1 Hs Hfirst) as [Hp ->].
        cbn [strategy cash equity_curve amount0 amount1].
        split; [exact Hs|]. split; [exact Hc|]. split; [reflexivity|].
        unfold get_value at 1. cbn [amount0 amount1 cash]. rewrite Hc.
        unfold get_value. rewrite Hc.
        split; [field; exact Hp|].
        split; [intros _; field; exact Hp|].
        intro Hne. apply Nat.eqb_eq in E. contradiction.
      - unfold ret in Hfirst. injection Hfirst as <-.
        split; [exact Hs|]. split; [exact Hc|]. split; [reflexivity|].
        unfold get_value. rewrite Hc.
        split; [ring|]. split; [|reflexivity].
        intro Hz. apply Nat.eqb_neq in E. contradiction. }
    destruct Hh1 as [Hs1 [Hc1 [Hcurve1 [Hvalue [Hsplit Hsame]]]]].
    apply IH in Hrest; [|exact Hs1|exact Hc1].
    destruct Hrest as [points [Hcurve [Hlen Hpoints]]].
    cbv zeta in Hpoints.
    cbn [equity_curve amount0 amount1] in Hcurve, Hpoints.
    eexists. split.
    { rewrite Hcurve, Hcurve1, <- app_assoc. cbn [app]. reflexivity. }
    split; [cbn [List.length]; rewrite Hlen; reflexivity|].
    cbv zeta. intros j r pt held Hrow Hpt Hheld.
    destruct j as [|j]; cbn [nth_error map] in Hrow, Hpt, Hheld.
    + injection Hrow as <-. injection Hpt as <-. injection Hheld as <-.
      cbn [bep_timestamp bep_price bep_cash bep_total_value bep_amount0
           bep_amount1 fst snd]. fold price.
      rewrite Nat.add_0_r.
      split; [reflexivity|]. split; [reflexivity|]. split; [exact Hc1|].
      split; [unfold get_value; rewrite Hc1; ring|].
      split; [exact Hvalue|]. split; assumption.
    + cbn [bep_amount0 bep_amount1] in Hheld.
      replace (i + S j)%nat with (S i + j)%nat by lia.
      apply (Hpoints j r pt held Hrow Hpt Hheld).
Qed.

Variable C : StrategyClass.

(** The hold-50:50 baseline is self-financing.  After a run, from a newly
    built engine, over data whose closes are all non-zero, it has recorded
    one point per bar, with the bar's timestamp and close and no cash,
    worth its two holdings at the close.
    The first point is worth the initial cash; every later point is worth
    what the holdings of the point before it are worth at the new close, so
    a rebalance neither adds nor removes value.  On a bar whose index is a
    multiple of 24 the two holdings are equal in value; on any other bar
    they are those of the bar before. *)
Theorem hodl_baseline_is_self_financing
  (now : data.timestamp) (first : data.Bar) (rest : list data.Bar)
  (strategy : Self C) (initial_cash : Q) (fee_bps slippage_bps : Z)
  (gas_cost liq_share : Q) (s' : backtester.t C) :
  (forall bar, In bar (first :: rest) -> ~ data.close bar == 0) ->
  run C now (first :: rest)
      (backtester.new C strategy initial_cash fee_bps slippage_bps
                      gas_cost liq_share) = (Ok tt, s') ->
  let bars := first :: rest in
  let points := equity_curve (hodl_portfolio C s') in
  List.length points = List.length bars /\
  (forall j bar pt,
     nth_error bars j = Some bar -> nth_error points j = Some pt ->
     bep_timestamp pt = data.bar_timestamp bar /\
     bep_price pt = data.close bar /\
     bep_cash pt = 0 /\
     bep_total_value pt == bep_amount0 pt * bep_price pt + bep_amount1 pt /\
     (Nat.modulo j 24 = 0%nat ->
      bep_amount0 pt * bep_price pt == bep_amount1 pt)) /\
  (forall pt, nth_error points 0 = Some pt ->
              bep_total_value pt == initial_cash) /\
  (forall j pt pt',
     nth_error points j = Some pt -> nth_error points (S j) = Some pt' ->
     bep_total_value pt'
     == bep_amount0 pt * bep_price pt' + bep_amount1 pt /\
     (Nat.modulo (S j) 24 <> 0%nat ->
      bep_amount0 pt' = bep_amount0 pt /\ bep_amount1 pt' = bep_amount1 pt)).
Proof.
  intros _ H bars points.
  destruct (run_records C _ _ _ _ _ H) as [h0 [s0 [Hh [_ [_ [Hloop _]]]]]].
  cbn [backtester.new hodl_portfolio] in Hh.
  assert (Hp0 : ~ data.close first == 0 /\
                h0 = BaselinePortfolio.mk initial_cash 0 "hodl_50_50"
                       (initial_cash / 2 / data.close first)
                       (initial_cash / 2) []).
  { unfold initialize_position in Hh.
    unfold bind at 1 in Hh. unfold get at 1 in Hh.
    cbn [BaselinePortfolio.new BaselinePortfolio.strategy String.eqb Ascii.eqb
         Bool.eqb cash] in Hh.
    unfold bind, lift, truediv in Hh.
    destruct (Qeq_bool (data.close first) 0) eqn:E; [discriminate|].
    unfold put in Hh. injection Hh as <-. split; [|reflexivity].
    intro Hz. apply Qeq_bool_iff in Hz. congruence. }
  destruct Hp0 as [Hp0 ->].
  apply hodl_baseline_loop_spec in Hloop; [|reflexivity|reflexivity].
  destruct Hloop as [pts [Hcurve [Hlen Hspec]]].
  cbv zeta in Hspec.
  cbn [equity_curve amount0 amount1 app] in Hcurve, Hspec.
  unfold points. rewrite Hcurve. fold bars in Hlen, Hspec.
  split; [exact Hlen|].
  assert (Hbar : forall j pt, nth_error pts j = Some pt ->
                              exists bar, nth_error bars j = Some bar).
  { intros j pt Hpt.
    destruct (nth_error bars j) as [bar|] eqn:E; [exists bar; reflexivity|].
    apply nth_error_None in E. apply nth_error_lt in Hpt. lia. }
  assert (Hheld : forall j pt, nth_error pts j = Some pt ->
            exists held,
              nth_error
                ((initial_cash / 2 / data.close first, initial_cash / 2)
                   :: map (fun pt => (bep_amount0 pt, bep_amount1 pt)) pts) j
              = Some held).
  { intros j pt Hpt.
    match goal with
    | |- exists held, nth_error ?l j = Some held =>
        destruct (nth_error l j) as [held|] eqn:E
    end; [exists held; reflexivity|].
    apply nth_error_None in E. cbn [List.length] in E.
    rewrite length_map in E. apply nth_error_lt in Hpt. lia. }
  split; [|split].
  - intros j bar pt Hb Hpt.
    destruct (Hheld j pt Hpt) as [held Hh'].
    destruct (Hspec j bar pt held Hb Hpt Hh')
      as [Hts [Hpr [Hcash [Hval [_ [Hsplit _]]]]]].
    rewrite Hpr. cbn [Nat.add] in Hsplit.
    split; [exact Hts|]. split; [reflexivity|]. split; [exact Hcash|].
    split; [exact Hval | exact Hsplit].
  - intros pt Hpt.
    destruct (Hspec 0%nat first pt _ eq_refl Hpt eq_refl)
      as [_ [_ [_ [_ [Hval _]]]]].
    cbn [fst snd] in Hval. rewrite Hval. field. exact Hp0.
  - intros j pt pt' Hpt Hpt'.
    destruct (Hbar (S j) pt' Hpt') as [bar Hb].
    assert (Hprev :
      nth_error
        ((initial_cash / 2 / data.close first, initial_cash / 2)
           :: map (fun pt => (bep_amount0 pt, bep_amount1 pt)) pts) (S j)
      = Some (bep_amount0 pt, bep_amount1 pt)).
    { cbn [nth_error]. rewrite nth_error_map, Hpt. reflexivity. }
    destruct (Hspec (S j) bar pt' _ Hb Hpt' Hprev)
      as [_ [Hpr [_ [_ [Hval [_ Hsame]]]]]].
    cbn [fst snd Nat.add] in Hval, Hsame. rewrite Hpr.
    split; [exact Hval|].
    intro Hne. specialize (Hsame Hne). injection Hsame as -> ->.
    split; reflexivity.
Qed.

End HodlBaseline.

Section BaselineIndependence.

Import strategies.
Import portfolio.
Import backtester.

(** The two baselines do not depend on the strategy.  Two engines, of any
    two strategy classes, that start with the same baselines and both
    return from a run over the same data end with the same baselines,
    whatever their strategies, portfolios, costs and clocks. *)
Theorem baselines_do_not_depend_on_strategy
  (C1 C2 : StrategyClass) (now1 now2 : data.timestamp)
  (price_data : list data.Bar)
  (s1 s1' : backtester.t C1) (s2 s2' : backtester.t C2) :
  hodl_portfolio C1 s1 = hodl_portfolio C2 s2 ->
  single_asset_portfolio C1 s1 = single_asset_portfolio C2 s2 ->
  run C1 now1 price_data s1 = (Ok tt, s1') ->
  run C2 now2 price_data s2 = (Ok tt, s2') ->
  hodl_portfolio C1 s1' = hodl_portfolio C2 s2' /\
  single_asset_portfolio C1 s1' = single_asset_portfolio C2 s2'.
Proof.
  intros Hh Hs H1 H2.
  destruct price_data as [|first rest]; [discriminate|].
  destruct (run_records C1 _ _ _ _ _ H1)
    as [h1 [x1 [Hh1 [Hx1 [Hsingle1 [Hloop1 _]]]]]].
  destruct (run_records C2 _ _ _ _ _ H2)
    as [h2 [x2 [Hh2 [Hx2 [Hsingle2 [Hloop2 _]]]]]].
  rewrite Hh in Hh1. rewrite Hs in Hx1.
  assert (h1 = h2) by congruence. assert (x1 = x2) by congruence.
  subst h2 x2. split; congruence.
Qed.

(** A computation that returns, written with its final state. *)
Lemma returns_with_final_state {S A : Type} (outcome : result A * S) (a : A) :
  fst outcome = Ok a -> outcome = (Ok a, snd outcome).
Proof.
  destruct outcome as [r s]. cbn [fst snd]. intros ->. reflexivity.
Qed.

(** A channel strategy and a Classic strategy over the same three bars. *)
Lemma baselines_do_not_depend_on_strategy_witness :
  let bars :=
    [data.mkBar 0%Z 2000 2000 2000 2000 (Some 1) (Some 2000);
     data.mkBar 3600%Z 2010 2010 2010 2010 (Some 1) (Some 2010);
     data.mkBar 7200%Z 1995 1995 1995 1995 (Some 1) (Some 1995)] in
  let channel :=
    run ChannelMultiplierStrategy 0%Z bars
      (new ChannelMultiplierStrategy (channel_multiplier.new 10)
           10000 5 1 0 (2 # 1000)) in
  let classic :=
    run ClassicStrategy 99%Z bars
      (new ClassicStrategy (classic.new_default "percent" 10 "center")
           10000 30 1 2 (1 # 1000)) in
  hodl_portfolio _ (snd channel) = hodl_portfolio _ (snd classic) /\
  single_asset_portfolio _ (snd channel)
  = single_asset_portfolio _ (snd classic).
Proof.
  intros bars channel classic.
  assert (H1 : fst channel = Ok tt) by (vm_compute; reflexivity).
  assert (H2 : fst classic = Ok tt) by (vm_compute; reflexivity).
  apply returns_with_final_state in H1.
  apply returns_with_final_state in H2.
  exact (baselines_do_not_depend_on_strategy
           ChannelMultiplierStrategy ClassicStrategy 0%Z 99%Z bars
           (new ChannelMultiplierStrategy (channel_multiplier.new 10)
                10000 5 1 0 (2 # 1000))
           (snd channel)
           (new ClassicStrategy (classic.new_default "percent" 10 "center")
                10000 30 1 2 (1 # 1000))
           (snd classic) eq_refl eq_refl H1 H2).
Defined.

(** The hold-50:50 baseline of the same channel run. *)
Lemma hodl_baseline_is_self_financing_witness :
  let first := data.mkBar 0%Z 2000 2000 2000 2000 (Some 1) (Some 2000) in
  let rest :=
    [data.mkBar 3600%Z 2010 2010 2010 2010 (Some 1) (Some 2010);
     data.mkBar 7200%Z 1995 1995 1995 1995 (Some 1) (Some 1995)] in
  let outcome :=
    run ChannelMultiplierStrategy 0%Z (first :: rest)
      (new ChannelMultiplierStrategy (channel_multiplier.new 10)
           10000 5 1 0 (2 # 1000)) in
  List.length
    (BaselinePortfolio.equity_curve (hodl_portfolio _ (snd outcome)))
  = 3%nat /\
  forall pt,
    nth_error (BaselinePortfolio.equity_curve (hodl_portfolio _ (snd outcome))) 0
    = Some pt ->
    BaselinePortfolio.bep_total_value pt == 10000.
Proof.
  intros first rest outcome.
  assert (H : run ChannelMultiplierStrategy 0%Z (first :: rest)
                (new ChannelMultiplierStrategy (channel_multiplier.new 10)
                     10000 5 1 0 (2 # 1000))
              = (Ok tt, snd outcome)) by (vm_compute; reflexivity).
  assert (Hcloses :
    forall bar, In bar (first :: rest) -> ~ data.close bar == 0).
  { intros bar [<-|[<-|[<-|[]]]]; vm_compute; congruence. }
  destruct (hodl_baseline_is_self_financing ChannelMultiplierStrategy
              0%Z first rest _ _ _ _ _ _ _ Hcloses H) as [Hlen [_ [Hfirst _]]].
  split; [exact Hlen | exact Hfirst].
Defined.

End BaselineIndependence.

(** ** steerbt/strategies/classic.py: the two gates of an update *)

Section ClassicUpdate.

Import strategies.
Import triggers.

(** [calculate_range] and [_should_rebalance] do not read the triggers. *)
Lemma classic_ignores_trigger_manager
  (self : classic.t) (m : TriggerManager.t) (price_data : list data.Bar)
  (current_price portfolio_value : Q)
  (ranges : list (Q * Q)) (liquidities : list Q) :
  let self1 :=
    base.set_sub (classic.set_trigger_manager m (base.sub self)) self in
  classic.calculate_range_of self1 price_data current_price portfolio_value
  = classic.calculate_range_of self price_data current_price portfolio_value /\
  base._should_rebalance self1 ranges liquidities
  = base._should_rebalance self ranges liquidities.
Proof.
  split; reflexivity.
Qed.

(** An unforced update of an initialised Classic strategy passes two
    gates.  The triggers are consulted first and their state is updated
    either way.  When none fires, the update returns False and leaves the
    stored positions and the rebalance count alone, however far the
    proposed range is from the stored one.  When one fires, the new
    positions are computed and the thresholds of [_should_rebalance]
    decide: the update returns what they answer, and only a True answer
    stores the new positions and counts a rebalance, so a fired trigger
    alone does not rebalance. *)
Theorem classic_update_is_gated_twice
  (self self' : classic.t) (price_data : list data.Bar)
  (current_price portfolio_value : Q) (rebalance : bool) :
  base.initialized self = true ->
  classic.update price_data current_price portfolio_value false self
  = (Ok rebalance, self') ->
  exists fired names,
    TriggerManager.should_trigger_any
      (classic.current_state_of self price_data current_price portfolio_value)
      (classic.trigger_manager (base.sub self))
    = (Ok (fired, names), classic.trigger_manager (base.sub self')) /\
    (fired = false ->
     rebalance = false /\
     base.current_ranges self' = base.current_ranges self /\
     base.current_liquidities self' = base.current_liquidities self /\
     base.rebalance_count self' = base.rebalance_count self) /\
    (fired = true ->
     exists ranges liquidities,
       classic.calculate_range_of self price_data current_price portfolio_value
       = Ok (ranges, liquidities) /\
       base._should_rebalance self ranges liquidities = Ok rebalance /\
       base.rebalance_count self'
       = (base.rebalance_count self + (if rebalance then 1 else 0))%Z /\
       base.current_ranges self'
       = (if rebalance then ranges else base.current_ranges self) /\
       base.current_liquidities self'
       = (if rebalance then liquidities else base.current_liquidities self)).
Proof.
  intros Hinit H. unfold classic.update in H.
  apply bind_returns in H. destruct H as [go [s1 [Hgate H]]].
  unfold classic.should_rebalance in Hgate. rewrite Hinit in Hgate.
  cbn [negb] in Hgate.
  destruct (TriggerManager.should_trigger_any
              (classic.current_state_of self price_data current_price
                                        portfolio_value)
              (classic.trigger_manager (base.sub self)))
    as [[[fired names]|e] m'] eqn:E; [|discriminate].
  injection Hgate as <- <-.
  exists fired, names.
  destruct fired.
  - unfold base.update in H.
    unfold bind at 1 in H. unfold get at 1 in H.
    cbn [base.initialized base.set_sub] in H. rewrite Hinit in H.
    cbn [negb] in H.
    apply bind_returns in H. destruct H as [[ranges liquidities] [s2 [Hrange H]]].
    unfold classic.calculate_range in Hrange.
    injection Hrange as Hrange <-.
    unfold bind at 1 in H. unfold get at 1 in H.
    apply bind_returns in H. destruct H as [needed [s3 [Hneeded H]]].
    unfold lift in Hneeded.
    destruct (classic_ignores_trigger_manager
                self m' price_data current_price portfolio_value
                ranges liquidities) as [Hrange' Hneeded'].
    cbv zeta in Hrange', Hneeded'.
    rewrite Hrange' in Hrange. rewrite Hneeded' in Hneeded.
    destruct (base._should_rebalance self ranges liquidities)
      as [answer|e] eqn:Eanswer; [|discriminate].
    injection Hneeded as <- <-.
    destruct answer.
    + unfold bind, modify, ret in H. injection H as <- <-.
      split; [reflexivity|]. split; [discriminate|]. intros _.
      exists ranges, liquidities. split; [exact Hrange|].
      split; [exact Eanswer|]. split; [reflexivity|].
      split; reflexivity.
    + unfold ret in H. injection H as <- <-.
      split; [reflexivity|]. split; [discriminate|]. intros _.
      exists ranges, liquidities. split; [exact Hrange|].
      split; [exact Eanswer|]. split; [cbn; lia|].
      split; reflexivity.
  - unfold ret in H. injection H as <- <-.
    split; [reflexivity|]. split; [|discriminate]. intros _.
    split; [reflexivity|]. split; [reflexivity|]. split; reflexivity.
Qed.

(** A strategy initialised at 2000, updated at 2010.  The stored range is
    the first bin, (1900, 1940), so the gap trigger and the range trigger
    fire; the proposed bin has moved by 0.5%, under the 1% threshold, and
    the update returns False. *)
Lemma classic_update_is_gated_twice_witness :
  let bars := [data.mkBar 0%Z 2000 2000 2000 2000 (Some 1) (Some 2000)] in
  let self :=
    snd (classic.initialize 2000 10000 bars
           (classic.new_default "percent" 10 "center")) in
  let outcome := classic.update bars 2010 10000 false self in
  fst outcome = Ok false /\
  exists names,
    fst (TriggerManager.should_trigger_any
           (classic.current_state_of self bars 2010 10000)
           (classic.trigger_manager (base.sub self)))
    = Ok (true, names) /\
    base.rebalance_count (snd outcome) = 0%Z.
Proof.
  intros bars self outcome.
  assert (Hinit : base.initialized self = true) by (vm_compute; reflexivity).
  assert (Hout : fst outcome = Ok false) by (vm_compute; reflexivity).
  split; [exact Hout|].
  apply returns_with_final_state in Hout.
  destruct (classic_update_is_gated_twice
              self (snd outcome) bars 2010 10000 false Hinit Hout)
    as [fired [names [Hany [_ Hfired]]]].
  assert (Hf : fst (TriggerManager.should_trigger_any
                      (classic.current_state_of self bars 2010 10000)
                      (classic.trigger_manager (base.sub self)))
               = Ok (true, ["gap_from_center"; "range_inactive"]%string)).
  { vm_compute. reflexivity. }
  rewrite Hany in Hf. cbn [fst] in Hf. injection Hf as -> ->.
  exists ["gap_from_center"; "range_inactive"]%string.
  split; [rewrite Hany; reflexivity|].
  destruct (Hfired eq_refl) as [ranges [liquidities [_ [_ [Hcount _]]]]].
  rewrite Hcount. vm_compute. reflexivity.
Defined.

End ClassicUpdate.
